(** * CoSim: signaling relay and collaboration bridges

    A shallow embedding of
    - [webrtc-signaling/stateStore.js] (the Redis bookkeeping of rooms and
      clients),
    - [webrtc-signaling/server.js] (the WebSocket signaling handlers and the
      cross-node relay),
    - [collab-server/redisPersistence.js] and
      [collab-server/redisAwareness.js] (the Yjs persistence and awareness
      bridges),
    together with the properties the specification states about them.

    Every [async] handler is embedded as one run-to-completion function on an
    explicit world; interleavings of two handlers at their [await] points are
    outside this model. *)

From Stdlib Require Import ZArith Lia.
From stdpp Require Import base tactics option list strings gmap pretty.

Local Open Scope string_scope.
Local Open Scope list_scope.

(** ** JavaScript truthiness of the values the handlers test *)

Module Js.

(** [!s] for a string: only the empty string is falsy. *)
Definition truthy (s : string) : bool :=
  match s with
  | EmptyString => false
  | String _ _ => true
  end.

(** A field that may be [undefined] (or [null]): absent is falsy. *)
Definition present (o : option string) : bool :=
  match o with
  | None => false
  | Some s => truthy s
  end.

(** The string of a field whose presence was tested. *)
Definition value (o : option string) : string :=
  match o with
  | Some s => s
  | None => EmptyString
  end.

(** [a || b] on strings. *)
Definition or_else (a : option string) (b : string) : string :=
  match a with
  | Some s => if truthy s then s else b
  | None => b
  end.

(** A JSON value carried as a signaling payload (SDP offer, answer, ICE
    candidate). Objects and arrays are always truthy; their text is kept
    opaque. *)
Inductive json :=
| JNull
| JBool (b : bool)
| JNum (n : Z)
| JStr (s : string)
| JObj (text : string).

Definition truthy_json (j : json) : bool :=
  match j with
  | JNull => false
  | JBool b => b
  | JNum n => negb (n =? 0)%Z
  | JStr s => truthy s
  | JObj _ => true
  end.

Definition present_json (o : option json) : bool :=
  match o with
  | None => false
  | Some j => truthy_json j
  end.

End Js.

(** ** The shared substrate: the Redis commands the services issue *)

Module Redis.

Inductive value :=
| VString (s : string)
| VSet (members : gset string)
| VHash (fields : gmap string string).

Inductive command :=
| SADD (key member : string)
| SREM (key member : string)
| SMEMBERS (key : string)
| SCARD (key : string)
| DEL (key : string)
| HSET (key : string) (fields : list (string * string))
| HGETALL (key : string)
| GET (key : string)
| SET (key val : string)
| EXPIRE (key : string) (seconds : nat).

Inductive reply :=
| Int (n : nat)
| Ok
| Bulk (s : option string)
| Members (l : list string)
| Fields (h : gmap string string)
| WrongType.

(** One round trip to the server: a single command, a [MULTI]/[EXEC]
    transaction, or a pipeline. *)
Inductive request :=
| Single (c : command)
| Multi (cs : list command)
| Pipeline (cs : list command).

(** A set or hash that becomes empty is removed by the server. *)
Definition store_set (key : string) (X : gset string)
    (d : gmap string value) : gmap string value :=
  if decide (X = ∅) then delete key d else <[key := VSet X]> d.

Definition hset_fields (fs : list (string * string))
    (h : gmap string string) : gmap string string :=
  foldl (λ acc kv, <[kv.1 := kv.2]> acc) h fs.

Definition bool_to_nat (b : bool) : nat := if b then 1 else 0.

(** Effect of one command on the database, and its reply. A command run
    against a key of another type replies [WRONGTYPE] and changes nothing.
    The time to live of a key is not tracked: [EXPIRE] only reports whether
    the key exists. *)
Definition run (c : command) (d : gmap string value)
    : gmap string value * reply :=
  match c with
  | SADD key m =>
      match d !! key with
      | None => (<[key := VSet {[ m ]}]> d, Int 1)
      | Some (VSet X) =>
          (<[key := VSet ({[ m ]} ∪ X)]> d, Int (bool_to_nat (bool_decide (m ∉ X))))
      | Some _ => (d, WrongType)
      end
  | SREM key m =>
      match d !! key with
      | None => (d, Int 0)
      | Some (VSet X) =>
          (store_set key (X ∖ {[ m ]}) d, Int (bool_to_nat (bool_decide (m ∈ X))))
      | Some _ => (d, WrongType)
      end
  | SMEMBERS key =>
      match d !! key with
      | None => (d, Members [])
      | Some (VSet X) => (d, Members (elements X))
      | Some _ => (d, WrongType)
      end
  | SCARD key =>
      match d !! key with
      | None => (d, Int 0)
      | Some (VSet X) => (d, Int (size X))
      | Some _ => (d, WrongType)
      end
  | DEL key =>
      (delete key d, Int (bool_to_nat (bool_decide (is_Some (d !! key)))))
  | HSET key fs =>
      match d !! key with
      | None => (<[key := VHash (hset_fields fs ∅)]> d, Int (length fs))
      | Some (VHash h) => (<[key := VHash (hset_fields fs h)]> d, Int (length fs))
      | Some _ => (d, WrongType)
      end
  | HGETALL key =>
      match d !! key with
      | None => (d, Fields ∅)
      | Some (VHash h) => (d, Fields h)
      | Some _ => (d, WrongType)
      end
  | GET key =>
      match d !! key with
      | None => (d, Bulk None)
      | Some (VString s) => (d, Bulk (Some s))
      | Some _ => (d, WrongType)
      end
  | SET key v => (<[key := VString v]> d, Ok)
  | EXPIRE key _ => (d, Int (bool_to_nat (bool_decide (is_Some (d !! key)))))
  end.

(** [exec()] of a transaction or a pipeline: the queued commands run in
    order; a command that fails at run time leaves the others in effect and
    its error is one entry of the result array. *)
Fixpoint exec (cs : list command) (d : gmap string value)
    : gmap string value * list reply :=
  match cs with
  | [] => (d, [])
  | c :: cs' =>
      let '(d1, r) := run c d in
      let '(d2, rs) := exec cs' d1 in
      (d2, r :: rs)
  end.

(** The members of the set stored at [key]; no set, no members. *)
Definition set_at (d : gmap string value) (key : string) : gset string :=
  match d !! key with
  | Some (VSet X) => X
  | _ => ∅
  end.

(** Commands that can change the database. *)
Definition writes (c : command) : bool :=
  match c with
  | SADD _ _ | SREM _ _ | DEL _ | HSET _ _ | SET _ _ | EXPIRE _ _ => true
  | SMEMBERS _ | SCARD _ | HGETALL _ | GET _ => false
  end.

End Redis.

(** ** Effects and the handler monad *)

(** A WebSocket object; two sockets are the same object iff the handles are
    equal. *)
Definition Ws := nat.

Inductive ReadyState := CONNECTING | OPEN | CLOSING | CLOSED.

Global Instance ReadyState_eq_dec : EqDecision ReadyState.
Proof. solve_decision. Defined.

(** One entry of a [joined] participant list. *)
Record participant := { p_id : string; p_role : string }.

(** The JSON envelopes the server sends to clients. *)
Inductive outbound :=
| Welcome (clientId : string)
| Error (error : string)
| Joined (roomId role : string) (participants : list participant)
| PeerJoined (peerId role : string)
| PeerLeft (peerId : string)
| Offer (fromId : string) (offer : Js.json)
| Answer (fromId : string) (answer : Js.json)
| IceCandidate (fromId : string) (candidate : Js.json).

(** A payload of the relay channel. Read back from the channel, any field
    may be missing. *)
Record relayPayload := {
  originServerId : option string;
  targetServerId : option string;
  targetId : option string;
  message : option outbound;
}.

Inductive effect :=
| WsSend (ws : Ws) (m : outbound)
| RelayPublish (channel : string) (p : relayPayload)
| Publish (channel : string) (data : string)
| Subscribe (channel : string)
| Substrate (r : Redis.request).

(** What a rejected promise carries. *)
Inductive exn :=
| ReplyError
| TypeError.

Inductive outcome (A : Type) :=
| Done (a : A)
| Thrown (e : exn).
Arguments Done {A} a.
Arguments Thrown {A} e.

(** A handler reads and updates its state, leaves a trace of effects and
    either returns or throws; what it did before throwing stays done. *)
Definition M (S A : Type) : Type := S → S * list effect * outcome A.

Definition ret {S A} (a : A) : M S A := λ s, (s, [], Done a).

Definition bind {S A B} (m : M S A) (k : A → M S B) : M S B :=
  λ s,
    match m s with
    | (s1, t1, Done a) =>
        match k a s1 with
        | (s2, t2, o) => (s2, t1 ++ t2, o)
        end
    | (s1, t1, Thrown e) => (s1, t1, Thrown e)
    end.

Definition throw {S A} (e : exn) : M S A := λ s, (s, [], Thrown e).
Definition get {S} : M S S := λ s, (s, [], Done s).
Definition modify {S} (f : S → S) : M S unit := λ s, (f s, [], Done tt).
Definition emit {S} (e : effect) : M S unit := λ s, (s, [e], Done tt).

(** [try { ... } catch]: the handler's exception is consumed. *)
Definition catch {S A} (m : M S A) (h : exn → M S A) : M S A :=
  λ s,
    match m s with
    | (s1, t1, Done a) => (s1, t1, Done a)
    | (s1, t1, Thrown e) =>
        match h e s1 with
        | (s2, t2, o) => (s2, t1 ++ t2, o)
        end
    end.

(** [when c m]: an [if (c) { m }] without [else]. *)
Definition when {S} (c : bool) (m : M S unit) : M S unit :=
  if c then m else ret tt.

(** [for (const x of l) body(x)]. *)
Fixpoint for_each {S A} (l : list A) (body : A → M S unit) : M S unit :=
  match l with
  | [] => ret tt
  | x :: l' => bind (body x) (λ _, for_each l' body)
  end.

Global Instance M_ret S : MRet (M S) := λ A, @ret S A.
Global Instance M_bind S : MBind (M S) := λ A B k m, @bind S A B m k.

(** How the promise of a single command settles: a wrong-type reply
    rejects it. *)
Definition settle (r : Redis.reply) : outcome Redis.reply :=
  match r with
  | Redis.WrongType => Thrown ReplyError
  | _ => Done r
  end.

(** State, trace and outcome of a run. *)
Definition state_of {S A} (r : S * list effect * outcome A) : S := r.1.1.
Definition trace_of {S A} (r : S * list effect * outcome A) : list effect := r.1.2.
Definition outcome_of {S A} (r : S * list effect * outcome A) : outcome A := r.2.

(** A run that comes after the effects [t]. *)
Definition prepend {S A} (t : list effect) (r : S * list effect * outcome A)
    : S * list effect * outcome A :=
  match r with
  | (s, t', o) => (s, t ++ t', o)
  end.

(** The messages of a trace that reached socket [ws]. *)
Definition sent_to (ws : Ws) (t : list effect) : list outbound :=
  omap (λ e, match e with
             | WsSend ws' m => if decide (ws' = ws) then Some m else None
             | _ => None
             end) t.

(** All socket sends, all publications and all substrate round trips of a
    trace. *)
Definition sends (t : list effect) : list (Ws * outbound) :=
  omap (λ e, match e with WsSend ws m => Some (ws, m) | _ => None end) t.
Definition publications (t : list effect) : list (string * relayPayload) :=
  omap (λ e, match e with RelayPublish c p => Some (c, p) | _ => None end) t.
Definition requests (t : list effect) : list Redis.request :=
  omap (λ e, match e with Substrate r => Some r | _ => None end) t.

(** ** stateStore.js *)

Module StateStore.

Definition ROOM_INDEX_KEY : string := "signaling:rooms".
Definition clientKey (clientId : string) : string :=
  "signaling:clients:" +:+ clientId.
Definition roomMembersKey (roomId : string) : string :=
  "signaling:rooms:" +:+ roomId +:+ ":members".
Definition serverKey (serverId : string) : string :=
  "signaling:servers:" +:+ serverId.

(** [this.redis] and [this.serverId]. *)
Record t := {
  redis : gmap string Redis.value;
  serverId : string;
}.

Definition with_redis (d : gmap string Redis.value) (s : t) : t :=
  {| redis := d; serverId := serverId s |}.

(** [await this.redis.cmd(...)]: a wrong-type reply rejects the promise. *)
Definition call (c : Redis.command) : M t Redis.reply :=
  λ s,
    let '(d, r) := Redis.run c (redis s) in
    (with_redis d s, [Substrate (Redis.Single c)], settle r).

(** [await this.redis.multi()....exec()]. *)
Definition multi (cs : list Redis.command) : M t (list Redis.reply) :=
  λ s,
    let '(d, rs) := Redis.exec cs (redis s) in
    (with_redis d s, [Substrate (Redis.Multi cs)], Done rs).

(** [await pipeline.exec()]. *)
Definition pipeline (cs : list Redis.command) : M t (list Redis.reply) :=
  λ s,
    let '(d, rs) := Redis.exec cs (redis s) in
    (with_redis d s, [Substrate (Redis.Pipeline cs)], Done rs).

(** [Date.now().toString()] and [String(n)]. *)
Definition timestamp (now : Z) : string := pretty now.

Definition registerClient (now : Z) (id roomId role : option string)
    : M t unit :=
  if negb (Js.present id) || negb (Js.present roomId) then mret tt
  else
    let id := Js.value id in
    let roomId := Js.value roomId in
    s ← get;
    _ ← multi [ Redis.SADD ROOM_INDEX_KEY roomId;
                Redis.SADD (roomMembersKey roomId) id;
                Redis.HSET (clientKey id)
                  [ ("id", id);
                    ("roomId", roomId);
                    ("role", Js.or_else role EmptyString);
                    ("serverId", serverId s);
                    ("updatedAt", timestamp now) ] ];
    mret tt.

Definition getClient (clientId : option string)
    : M t (option (gmap string string)) :=
  if negb (Js.present clientId) then mret None
  else
    r ← call (Redis.HGETALL (clientKey (Js.value clientId)));
    match r with
    | Redis.Fields data =>
        if negb (Js.present (data !! "id")) then mret None
        else mret (Some data)
    | _ => mret None
    end.

(** The loop over the pipeline's responses: errors carry no data and are
    skipped, as are hashes without an [id]. *)
Definition participants_of (responses : list Redis.reply) : list participant :=
  omap (λ r,
          match r with
          | Redis.Fields data =>
              match data !! "id" with
              | Some i =>
                  if Js.truthy i
                  then Some {| p_id := i; p_role := Js.or_else (data !! "role") "viewer" |}
                  else None
              | None => None
              end
          | _ => None
          end) responses.

Definition listParticipants (roomId : option string)
    : M t (list participant) :=
  if negb (Js.present roomId) then mret []
  else
    r ← call (Redis.SMEMBERS (roomMembersKey (Js.value roomId)));
    match r with
    | Redis.Members memberIds =>
        if bool_decide (length memberIds = 0) then mret []
        else
          responses ← pipeline (map (λ id, Redis.HGETALL (clientKey id)) memberIds);
          mret (participants_of responses)
    | _ => mret []
    end.

Definition removeClient (id roomId : option string) : M t unit :=
  if negb (Js.present id) then mret tt
  else
    let id := Js.value id in
    _ ← multi (Redis.DEL (clientKey id) ::
               (if Js.present roomId
                then [Redis.SREM (roomMembersKey (Js.value roomId)) id]
                else []));
    if Js.present roomId then
      let roomId := Js.value roomId in
      remaining ← call (Redis.SCARD (roomMembersKey roomId));
      match remaining with
      | Redis.Int 0 =>
          _ ← multi [ Redis.DEL (roomMembersKey roomId);
                      Redis.SREM ROOM_INDEX_KEY roomId ];
          mret tt
      | _ => mret tt
      end
    else mret tt.

(** [stats.connections || 0] and [stats.rooms || 0] are counts. *)
Definition setHeartbeat (now : Z) (connections rooms : nat) : M t unit :=
  s ← get;
  _ ← call (Redis.HSET (serverKey (serverId s))
              [ ("serverId", serverId s);
                ("connections", pretty connections);
                ("rooms", pretty rooms);
                ("updatedAt", timestamp now) ]);
  _ ← call (Redis.EXPIRE (serverKey (serverId s)) 30);
  mret tt.

Definition cleanupServerState : M t unit :=
  s ← get;
  _ ← call (Redis.DEL (serverKey (serverId s)));
  mret tt.

End StateStore.

(** ** server.js *)

(** A JavaScript [Map] keyed by socket objects, in insertion order. *)
Module JsMap.
Section map.
Context {A : Type}.

Fixpoint get (ws : Ws) (m : list (Ws * A)) : option A :=
  match m with
  | [] => None
  | (k, v) :: m' => if decide (k = ws) then Some v else get ws m'
  end.

(** [m.set(ws, v)]: an existing key keeps its place. *)
Fixpoint set (ws : Ws) (v : A) (m : list (Ws * A)) : list (Ws * A) :=
  match m with
  | [] => [(ws, v)]
  | (k, v') :: m' =>
      if decide (k = ws) then (k, v) :: m' else (k, v') :: set ws v m'
  end.

(** [m.delete(ws)]: no entry for [ws] is left. *)
Fixpoint delete (ws : Ws) (m : list (Ws * A)) : list (Ws * A) :=
  match m with
  | [] => []
  | (k, v) :: m' =>
      if decide (k = ws) then delete ws m' else (k, v) :: delete ws m'
  end.

(** Assignment to a property of the object stored under [ws]. *)
Fixpoint mutate (ws : Ws) (f : A → A) (m : list (Ws * A)) : list (Ws * A) :=
  match m with
  | [] => []
  | (k, v) :: m' =>
      if decide (k = ws) then (k, f v) :: m' else (k, v) :: mutate ws f m'
  end.

End map.
End JsMap.

(** A JavaScript [Set] of socket objects, in insertion order. *)
Module JsSet.

Definition add (ws : Ws) (s : list Ws) : list Ws :=
  if decide (ws ∈ s) then s else s ++ [ws].

Definition delete (ws : Ws) (s : list Ws) : list Ws :=
  filter (λ x, x ≠ ws) s.

End JsSet.

(** The envelope a client sends, after [JSON.parse]. Identifier fields are
    strings when present. *)
Module Msg.
Record t := {
  type : option string;
  roomId : option string;
  role : option string;
  targetId : option string;
  offer : option Js.json;
  answer : option Js.json;
  candidate : option Js.json;
}.
End Msg.

Module Server.

Definition RELAY_CHANNEL : string := "signaling:relay".

(** The metadata object of one connection. *)
Record client := {
  id : string;
  roomId : option string;
  role : option string;
}.

(** The module-level state of one server process, the substrate it talks to
    and what it reads from its environment. *)
Record world := {
  clients : list (Ws * client);
  rooms : gmap string (list Ws);
  stateStore : StateStore.t;
  readyState : Ws → ReadyState;
  now : Z;
}.

Definition with_clients (f : list (Ws * client) → list (Ws * client))
    (w : world) : world :=
  {| clients := f (clients w); rooms := rooms w; stateStore := stateStore w;
     readyState := readyState w; now := now w |}.

Definition with_rooms (f : gmap string (list Ws) → gmap string (list Ws))
    (w : world) : world :=
  {| clients := clients w; rooms := f (rooms w); stateStore := stateStore w;
     readyState := readyState w; now := now w |}.

Definition with_store (s : StateStore.t) (w : world) : world :=
  {| clients := clients w; rooms := rooms w; stateStore := s;
     readyState := readyState w; now := now w |}.

(** A call into the [stateStore] object. *)
Definition on_store {A} (m : M StateStore.t A) : M world A :=
  λ w,
    match m (stateStore w) with
    | (s, t, o) => (with_store s w, t, o)
    end.

Definition send (ws : Ws) (message : outbound) : M world unit :=
  w ← get;
  when (bool_decide (readyState w ws = OPEN)) (emit (WsSend ws message)).

Definition broadcast (sender : Ws) (roomId : string) (message : outbound)
    : M world unit :=
  w ← get;
  match rooms w !! roomId with
  | None => mret tt
  | Some room =>
      for_each room (λ ws, when (bool_decide (ws ≠ sender)) (send ws message))
  end.

Fixpoint findClientById (clientId : string) (m : list (Ws * client))
    : option Ws :=
  match m with
  | [] => None
  | (ws, c) :: m' =>
      if decide (id c = clientId) then Some ws else findClientById clientId m'
  end.

Definition handleLeave (ws : Ws) : M world unit :=
  w ← get;
  match JsMap.get ws (clients w) with
  | None => throw TypeError
  | Some client =>
      if negb (Js.present (roomId client)) then mret tt
      else
        let roomId := Js.value (roomId client) in
        _ ← match rooms w !! roomId with
            | Some room =>
                let room := JsSet.delete ws room in
                _ ← modify (with_rooms (λ r, <[roomId := room]> r));
                _ ← broadcast ws roomId (PeerLeft (id client));
                when (bool_decide (length room = 0))
                     (modify (with_rooms (λ r, delete roomId r)))
            | None => mret tt
            end;
        _ ← on_store (StateStore.removeClient (Some (id client)) (Some roomId));
        modify (with_clients
                  (JsMap.mutate ws (λ c, {| id := id c; roomId := None; role := None |})))
  end.

Definition handleJoin (ws : Ws) (message : Msg.t) : M world unit :=
  w ← get;
  let client := JsMap.get ws (clients w) in
  if negb (Js.present (Msg.roomId message)) || negb (Js.present (Msg.role message))
  then send ws (Error "roomId and role are required")
  else
    let roomId := Js.value (Msg.roomId message) in
    let role := Js.value (Msg.role message) in
    match client with
    | None => throw TypeError
    | Some client =>
        _ ← when (Js.present (Server.roomId client)) (handleLeave ws);
        _ ← modify (with_clients
                      (JsMap.mutate ws (λ c, {| id := id c; roomId := Some roomId;
                                                role := Some role |})));
        _ ← modify (with_rooms
                      (λ r, if decide (is_Some (r !! roomId)) then r
                            else <[roomId := []]> r));
        _ ← modify (with_rooms
                      (λ r, <[roomId := JsSet.add ws (default [] (r !! roomId))]> r));
        _ ← on_store (StateStore.registerClient (now w) (Some (id client))
                        (Some roomId) (Some role));
        participants ← on_store (StateStore.listParticipants (Some roomId));
        _ ← send ws (Joined roomId role participants);
        broadcast ws roomId (PeerJoined (id client) role)
    end.

(** [options.notifyMissing], [true] when the option is not given. *)
Definition relayOrSend (ws : Ws) (targetId : string) (message : outbound)
    (notifyMissing : option bool) : M world bool :=
  let notifyMissing := default true notifyMissing in
  w ← get;
  match findClientById targetId (clients w) with
  | Some targetWs =>
      _ ← send targetWs message;
      mret true
  | None =>
      remoteClient ← on_store (StateStore.getClient (Some targetId));
      let home := remoteClient ≫= (λ data : gmap string string, data !! "serverId") in
      if negb (Js.present home) then
        _ ← when notifyMissing
               (send ws (Error ("Target client " +:+ targetId +:+ " not found")));
        mret false
      else
        _ ← emit (RelayPublish RELAY_CHANNEL
                    {| originServerId := Some (StateStore.serverId (stateStore w));
                       targetServerId := home;
                       targetId := Some targetId;
                       message := Some message |});
        mret true
  end.

Definition handleOffer (ws : Ws) (message : Msg.t) : M world unit :=
  w ← get;
  let client := JsMap.get ws (clients w) in
  if negb (Js.present (Msg.targetId message)) || negb (Js.present_json (Msg.offer message))
  then send ws (Error "targetId and offer are required")
  else
    match client, Msg.offer message with
    | Some client, Some offer =>
        _ ← relayOrSend ws (Js.value (Msg.targetId message))
              (Offer (id client) offer) (Some true);
        mret tt
    | _, _ => throw TypeError
    end.

Definition handleAnswer (ws : Ws) (message : Msg.t) : M world unit :=
  w ← get;
  let client := JsMap.get ws (clients w) in
  if negb (Js.present (Msg.targetId message)) || negb (Js.present_json (Msg.answer message))
  then send ws (Error "targetId and answer are required")
  else
    match client, Msg.answer message with
    | Some client, Some answer =>
        _ ← relayOrSend ws (Js.value (Msg.targetId message))
              (Answer (id client) answer) (Some true);
        mret tt
    | _, _ => throw TypeError
    end.

Definition handleIceCandidate (ws : Ws) (message : Msg.t) : M world unit :=
  w ← get;
  let client := JsMap.get ws (clients w) in
  if negb (Js.present (Msg.targetId message))
     || negb (Js.present_json (Msg.candidate message))
  then send ws (Error "targetId and candidate are required")
  else
    match client, Msg.candidate message with
    | Some client, Some candidate =>
        _ ← relayOrSend ws (Js.value (Msg.targetId message))
              (IceCandidate (id client) candidate) (Some false);
        mret tt
    | _, _ => throw TypeError
    end.

Definition handleDisconnect (ws : Ws) : M world unit :=
  w ← get;
  match JsMap.get ws (clients w) with
  | None => mret tt
  | Some _ =>
      _ ← handleLeave ws;
      modify (with_clients (JsMap.delete ws))
  end.

(** [payload] is [None] when the parsed JSON is falsy. *)
Definition handleRelayDelivery (payload : option relayPayload) : M world unit :=
  w ← get;
  match payload with
  | None => mret tt
  | Some payload =>
      if bool_decide (targetServerId payload ≠ Some (StateStore.serverId (stateStore w)))
      then mret tt
      else if bool_decide (originServerId payload = Some (StateStore.serverId (stateStore w)))
      then mret tt
      else
        let targetWs := targetId payload ≫= (λ t, findClientById t (clients w)) in
        match targetWs, message payload with
        | Some targetWs, Some message => send targetWs message
        | _, _ => mret tt
        end
  end.

Definition handleMessage (ws : Ws) (message : Msg.t) : M world unit :=
  w ← get;
  match JsMap.get ws (clients w) with
  | None => throw TypeError
  | Some _ =>
      let type := Msg.type message in
      if decide (type = Some "join") then handleJoin ws message
      else if decide (type = Some "offer") then handleOffer ws message
      else if decide (type = Some "answer") then handleAnswer ws message
      else if decide (type = Some "ice-candidate") then handleIceCandidate ws message
      else if decide (type = Some "leave") then handleLeave ws
      else send ws (Error ("Unknown message type: " +:+ default "undefined" type))
  end.

(** [wss.on('connection')]; [clientId] is the value of [uuidv4()]. *)
Definition on_connection (ws : Ws) (clientId : string) : M world unit :=
  _ ← modify (with_clients
                (JsMap.set ws {| id := clientId; roomId := None; role := None |}));
  send ws (Welcome clientId).

(** [ws.on('message')]; [data] is [None] when [JSON.parse] throws or yields
    [null]. *)
Definition on_message (ws : Ws) (data : option Msg.t) : M world unit :=
  catch (match data with
         | Some message => handleMessage ws message
         | None => throw TypeError
         end)
        (λ _, send ws (Error "Invalid JSON message")).

(** [ws.on('close')]. *)
Definition on_close (ws : Ws) : M world unit :=
  catch (handleDisconnect ws) (λ _, mret tt).

(** [relaySubscriber.on('message')]. *)
Definition on_relay (payload : option relayPayload) : M world unit :=
  catch (handleRelayDelivery payload) (λ _, mret tt).

(** The heartbeat timer's callback. *)
Definition on_heartbeat : M world unit :=
  w ← get;
  catch (on_store (StateStore.setHeartbeat (now w) (length (clients w))
                     (size (rooms w))))
        (λ _, mret tt).

End Server.

(** ** A cluster of signaling nodes on one substrate *)

Module Cluster.

(** The in-process state of one node. *)
Record node := {
  n_serverId : string;
  n_clients : list (Ws * Server.client);
  n_rooms : gmap string (list Ws);
}.

(** [issued] records the client ids handed out so far: [uuidv4()] does not
    repeat. *)
Record t := {
  nodes : list node;
  redis : gmap string Redis.value;
  issued : gset string;
}.

Definition fresh_node (serverId : string) : node :=
  {| n_serverId := serverId; n_clients := []; n_rooms := ∅ |}.

Definition init (serverIds : list string) : t :=
  {| nodes := map fresh_node serverIds; redis := ∅; issued := ∅ |}.

(** What happens at a node. *)
Inductive event :=
| Connect (ws : Ws) (clientId : string)
| Message (ws : Ws) (data : option Msg.t)
| Close (ws : Ws)
| Relay (payload : option relayPayload)
| Heartbeat.

Definition handler (e : event) : M Server.world unit :=
  match e with
  | Connect ws clientId => Server.on_connection ws clientId
  | Message ws data => Server.on_message ws data
  | Close ws => Server.on_close ws
  | Relay payload => Server.on_relay payload
  | Heartbeat => Server.on_heartbeat
  end.

(** The world node [n] sees, and what it leaves behind. *)
Definition world_of (c : t) (n : node) (rs : Ws → ReadyState) (now : Z)
    : Server.world :=
  {| Server.clients := n_clients n;
     Server.rooms := n_rooms n;
     Server.stateStore :=
       {| StateStore.redis := redis c; StateStore.serverId := n_serverId n |};
     Server.readyState := rs;
     Server.now := now |}.

Definition node_of (w : Server.world) : node :=
  {| n_serverId := StateStore.serverId (Server.stateStore w);
     n_clients := Server.clients w;
     n_rooms := Server.rooms w |}.

(** A new connection is a new socket object with a new id. *)
Definition admissible (c : t) (n : node) (e : event) : Prop :=
  match e with
  | Connect ws clientId =>
      JsMap.get ws (n_clients n) = None
      ∧ (clientId ∉ issued c)
      ∧ Js.truthy clientId = true
  | _ => True
  end.

Definition issue (e : event) (s : gset string) : gset string :=
  match e with
  | Connect _ clientId => {[ clientId ]} ∪ s
  | _ => s
  end.

(** One handler runs to completion at node [i]; a process may also exit and
    come back empty, or a server key may expire. *)
Inductive step : t → t → Prop :=
| step_handle c i n rs now e w' tr o :
    nodes c !! i = Some n →
    admissible c n e →
    handler e (world_of c n rs now) = (w', tr, o) →
    step c {| nodes := <[i := node_of w']> (nodes c);
              redis := StateStore.redis (Server.stateStore w');
              issued := issue e (issued c) |}
| step_restart c i n serverId :
    nodes c !! i = Some n →
    step c {| nodes := <[i := fresh_node serverId]> (nodes c);
              redis := delete (StateStore.serverKey (n_serverId n)) (redis c);
              issued := issued c |}
| step_expire c serverId :
    step c {| nodes := nodes c;
              redis := delete (StateStore.serverKey serverId) (redis c);
              issued := issued c |}.

Inductive reachable : t → Prop :=
| reachable_init serverIds : reachable (init serverIds)
| reachable_step c c' : reachable c → step c c' → reachable c'.

(** The member set of room [roomId] in the substrate. *)
Definition members (d : gmap string Redis.value) (roomId : string)
    : gset string :=
  Redis.set_at d (StateStore.roomMembersKey roomId).

End Cluster.

(** ** collab-server/redisPersistence.js *)

Module Persistence.
Section yjs.

(** Yjs and Node's [Buffer], as far as the bridge uses them. [integrates d u]
    tells whether applying [u] to [d] changes the document: only then does
    the document emit ['update']. *)
Variable Doc : Type.
Variable encodeStateAsUpdate : Doc → list Byte.byte.
Variable applyUpdate : Doc → list Byte.byte → Doc.
Variable integrates : Doc → list Byte.byte → bool.
Variable toBase64 : list Byte.byte → string.
Variable fromBase64 : string → list Byte.byte.

(** A [Y.Doc] object: its content and the document names captured by the
    ['update'] listeners that [bindState] registered on it. *)
Record ydoc := {
  content : Doc;
  listeners : list string;
}.

(** [this.redis], [this.prefix] and the document objects, by reference. *)
Record world := {
  redis : gmap string Redis.value;
  prefix : string;
  docs : gmap nat ydoc;
}.

Definition with_redis (d : gmap string Redis.value) (w : world) : world :=
  {| redis := d; prefix := prefix w; docs := docs w |}.

Definition with_docs (f : gmap nat ydoc → gmap nat ydoc) (w : world) : world :=
  {| redis := redis w; prefix := prefix w; docs := f (docs w) |}.

Definition call (c : Redis.command) : M world Redis.reply :=
  λ w,
    let '(d, r) := Redis.run c (redis w) in
    (with_redis d w, [Substrate (Redis.Single c)], settle r).

Definition docKey (w : world) (docName : string) : string :=
  prefix w +:+ ":" +:+ docName.

Definition writeState (docName : string) (h : nat) : M world unit :=
  w ← get;
  match docs w !! h with
  | None => throw TypeError
  | Some y =>
      _ ← call (Redis.SET (docKey w docName)
                  (toBase64 (encodeStateAsUpdate (content y))));
      mret tt
  end.

(** The listener [bindState] registers. *)
Definition listener (docName : string) (h : nat) : M world unit :=
  catch (writeState docName h) (λ _, mret tt).

(** [Y.applyUpdate(ydoc, u)], or a local transaction whose update is [u]:
    the content changes and, if it did integrate something, the listeners
    run in registration order. *)
Definition transact (h : nat) (u : list Byte.byte) : M world unit :=
  w ← get;
  match docs w !! h with
  | None => throw TypeError
  | Some y =>
      _ ← modify (with_docs
                    (λ ds, <[h := {| content := applyUpdate (content y) u;
                                     listeners := listeners y |}]> ds));
      when (integrates (content y) u)
           (for_each (listeners y) (λ docName, listener docName h))
  end.

Definition _loadState (docName : string) (h : nat) : M world unit :=
  w ← get;
  payload ← call (Redis.GET (docKey w docName));
  match payload with
  | Redis.Bulk (Some payload) =>
      if negb (Js.truthy payload) then mret tt
      else transact h (fromBase64 payload)
  | _ => mret tt
  end.

Definition bindState (docName : string) (h : nat) : M world unit :=
  _ ← _loadState docName h;
  modify (with_docs
            (λ ds, match ds !! h with
                   | Some y => <[h := {| content := content y;
                                         listeners := listeners y ++ [docName] |}]> ds
                   | None => ds
                   end)).

(** A run of document transactions, each at its instant (milliseconds); the
    requests a transaction issues leave in the same turn of the event loop,
    so they carry its instant. *)
Fixpoint transactions (h : nat) (us : list (Z * list Byte.byte)) (w : world)
    : world * list (Z * effect) :=
  match us with
  | [] => (w, [])
  | (at_ms, u) :: us' =>
      match transact h u w with
      | (w1, tr, _) =>
          match transactions h us' w1 with
          | (w2, trs) => (w2, map (λ e, (at_ms, e)) tr ++ trs)
          end
      end
  end.

(** The instants and values of the writes to [key] in a timed trace. *)
Definition writes_to (key : string) (tr : list (Z * effect))
    : list (Z * string) :=
  omap (λ te : Z * effect,
          match te.2 with
          | Substrate (Redis.Single (Redis.SET k v)) =>
              if decide (k = key) then Some (te.1, v) else None
          | _ => None
          end) tr.

(** Writes to one key are coalesced at interval [T] when no two of them are
    issued less than [T] milliseconds apart. *)
Fixpoint spaced (T : Z) (ws : list (Z * string)) : Prop :=
  match ws with
  | [] => True
  | (t1, _) :: ws' =>
      match ws' with
      | [] => True
      | (t2, _) :: _ => (T ≤ t2 - t1)%Z ∧ spaced T ws'
      end
  end.

(** The world after the encoded state of [d] was saved for [docName]. *)
Definition saved (w : world) (docName : string) (d : Doc) : world :=
  with_redis
    (<[docKey w docName := Redis.VString (toBase64 (encodeStateAsUpdate d))]>
       (redis w))
    w.

(** The world after document [h] became [d] with listeners [ls]. *)
Definition with_doc (h : nat) (d : Doc) (ls : list string) (w : world) : world :=
  with_docs (λ ds, <[h := {| content := d; listeners := ls |}]> ds) w.

(** What a bound document writes for a run of transactions: for each one
    that integrates, at its instant, the encoded state right after it. *)
Fixpoint immediate_writes (d : Doc) (us : list (Z * list Byte.byte))
    : list (Z * string) :=
  match us with
  | [] => []
  | (at_ms, u) :: us' =>
      (if integrates d u
       then [(at_ms, toBase64 (encodeStateAsUpdate (applyUpdate d u)))]
       else [])
      ++ immediate_writes (applyUpdate d u) us'
  end.

End yjs.

(** Write-behind as the specification words it: whatever the document type,
    the writes of a bound document are coalesced at some interval of at
    most 50 ms. *)
Definition coalesced_as_specified : Prop :=
  ∀ (Doc : Type) (encodeStateAsUpdate : Doc → list Byte.byte)
    (applyUpdate : Doc → list Byte.byte → Doc)
    (integrates : Doc → list Byte.byte → bool)
    (toBase64 : list Byte.byte → string)
    (w : world Doc) (h : nat) (y : ydoc Doc) (docName : string)
    (us : list (Z * list Byte.byte)),
    docs Doc w !! h = Some y →
    listeners Doc y = [docName] →
    ∃ T : Z,
      (0 < T ≤ 50)%Z
      ∧ spaced T (writes_to (docKey Doc w docName)
                    (transactions Doc encodeStateAsUpdate applyUpdate integrates
                       toBase64 h us w).2).

End Persistence.

(** ** collab-server/redisAwareness.js *)

Module Awareness.

(** The origin argument of an awareness event: the bridge's own [Symbol],
    or anything else (a connection, ['local'], ...). *)
Inductive origin :=
| Symbol (n : nat)
| Value (tag : string).

Global Instance origin_eq_dec : EqDecision origin.
Proof. solve_decision. Defined.

(** The client ids an awareness event reports. *)
Record changes := {
  added : list nat;
  updated : list nat;
  removed : list nat;
}.

(** [added.concat(updated, removed)]. *)
Definition changed (ch : changes) : list nat :=
  added ch ++ updated ch ++ removed ch.

(** [s.slice(n)]. *)
Fixpoint slice (n : nat) (s : string) : string :=
  match n, s with
  | 0, _ => s
  | S n', String _ s' => slice n' s'
  | S _, EmptyString => EmptyString
  end.

Section protocol.

(** The awareness protocol of y-protocols and Node's [Buffer], as far as
    the bridge uses them; [applyAwarenessUpdate] yields the new states and
    the changes it will report, or [None] when it throws. *)
Variable States : Type.
Variable encodeAwarenessUpdate : States → list nat → list Byte.byte.
Variable applyAwarenessUpdate : States → list Byte.byte → option (States * changes).
Variable toBase64 : list Byte.byte → string.
Variable fromBase64 : string → list Byte.byte.

(** An [Awareness] object: its states and the document names captured by
    the ['update'] handlers that [watch] registered on it. *)
Record awareness := {
  states : States;
  handlers : list string;
}.

(** [this.prefix], [this.boundDocs] (the handler of an entry is determined
    by its document name and awareness), [this.origin], and the awareness
    objects by reference. *)
Record world := {
  prefix : string;
  boundDocs : gmap string nat;
  origin_marker : origin;
  heap : gmap nat awareness;
}.

Definition with_boundDocs (f : gmap string nat → gmap string nat) (w : world)
    : world :=
  {| prefix := prefix w; boundDocs := f (boundDocs w);
     origin_marker := origin_marker w; heap := heap w |}.

Definition with_heap (f : gmap nat awareness → gmap nat awareness) (w : world)
    : world :=
  {| prefix := prefix w; boundDocs := boundDocs w;
     origin_marker := origin_marker w; heap := f (heap w) |}.

Definition channelName (w : world) (docName : string) : string :=
  prefix w +:+ ":" +:+ docName.

(** The handler [watch] registers for [docName] on awareness [h]. *)
Definition handler (docName : string) (h : nat) (ch : changes) (o : origin)
    : M world unit :=
  w ← get;
  if decide (o = origin_marker w) then mret tt
  else
    if bool_decide (length (changed ch) = 0) then mret tt
    else
      match heap w !! h with
      | None => throw TypeError
      | Some a =>
          emit (Publish (channelName w docName)
                  (toBase64 (encodeAwarenessUpdate (states a) (changed ch))))
      end.

(** [awareness.emit('update', [ch, o])]. *)
Definition emit_update (h : nat) (ch : changes) (o : origin) : M world unit :=
  w ← get;
  match heap w !! h with
  | None => mret tt
  | Some a => for_each (handlers a) (λ docName, handler docName h ch o)
  end.

(** The awareness states of [h] become [s] and the object reports [ch] with
    origin [o]; nothing is reported when nothing changed. *)
Definition change (h : nat) (s : States) (ch : changes) (o : origin)
    : M world unit :=
  w ← get;
  match heap w !! h with
  | None => throw TypeError
  | Some a =>
      _ ← modify (with_heap
                    (λ hp, <[h := {| states := s; handlers := handlers a |}]> hp));
      when (negb (bool_decide (length (changed ch) = 0)))
           (emit_update h ch o)
  end.

(** The world after the states of awareness [h] became [s]. *)
Definition with_states (h : nat) (s : States) (w : world) : world :=
  with_heap (λ hp, match hp !! h with
                   | Some a => <[h := {| states := s; handlers := handlers a |}]> hp
                   | None => hp
                   end) w.

Definition watch (docName : string) (awareness : option nat) : M world unit :=
  w ← get;
  match awareness with
  | None => mret tt
  | Some h =>
      if negb (Js.truthy docName) || bool_decide (is_Some (boundDocs w !! docName))
      then mret tt
      else
        _ ← modify (with_heap
                      (λ hp, match hp !! h with
                             | Some a => <[h := {| states := states a;
                                                   handlers := handlers a ++ [docName] |}]> hp
                             | None => hp
                             end));
        _ ← modify (with_boundDocs (λ b, <[docName := h]> b));
        emit (Subscribe (channelName w docName))
  end.

Definition handleMessage (channel payload : string) : M world unit :=
  w ← get;
  if negb (String.prefix (prefix w) channel) then mret tt
  else
    let docName := slice (String.length (prefix w) + 1) channel in
    match boundDocs w !! docName with
    | None => mret tt
    | Some h =>
        if negb (Js.truthy payload) then mret tt
        else
          catch
            (match heap w !! h with
             | None => throw TypeError
             | Some a =>
                 match applyAwarenessUpdate (states a) (fromBase64 payload) with
                 | None => throw TypeError
                 | Some (s, ch) => change h s ch (origin_marker w)
                 end
             end)
            (λ _, mret tt)
    end.

End protocol.
End Awareness.

(** ** The claims' vocabulary and sample worlds *)

Module Claims.

(** Target [t] is unknown at a node: no locally connected client has that
    id and the substrate holds no client hash for it. *)
Definition unknown_target (w : Server.world) (t : string) : Prop :=
  (∀ ws c, (ws, c) ∈ Server.clients w → Server.id c ≠ t)
  ∧ StateStore.redis (Server.stateStore w) !! StateStore.clientKey t = None.

Definition self (w : Server.world) : string :=
  StateStore.serverId (Server.stateStore w).

(** The relay rule as the specification words it: a payload for this node
    whose target client is locally connected is delivered to that client. *)
Definition relay_delivery_as_specified : Prop :=
  ∀ (w : Server.world) (p : relayPayload) (t : string) (targetWs : Ws)
    (m : outbound),
    targetServerId p = Some (self w) →
    targetId p = Some t →
    Server.findClientById t (Server.clients w) = Some targetWs →
    Server.readyState w targetWs = OPEN →
    message p = Some m →
    sends (trace_of (Server.handleRelayDelivery (Some p) w)) = [(targetWs, m)].

(** When the code does deliver: the payload is for this node, comes from
    another node, names a locally connected client with an open socket and
    carries a message. *)
Definition deliverable (w : Server.world) (payload : option relayPayload)
    (targetWs : Ws) (m : outbound) : Prop :=
  ∃ p t,
    payload = Some p
    ∧ targetServerId p = Some (self w)
    ∧ originServerId p ≠ Some (self w)
    ∧ targetId p = Some t
    ∧ Server.findClientById t (Server.clients w) = Some targetWs
    ∧ message p = Some m
    ∧ Server.readyState w targetWs = OPEN.

Definition is_set (v : Redis.value) : Prop := ∃ X, v = Redis.VSet X.
Definition is_hash (v : Redis.value) : Prop := ∃ h, v = Redis.VHash h.

(** The substrate respects the key schema: the room index and the member
    keys hold sets, the client keys hold hashes. *)
Definition well_typed (d : gmap string Redis.value) : Prop :=
  (∀ v, d !! StateStore.ROOM_INDEX_KEY = Some v → is_set v)
  ∧ (∀ r v, d !! StateStore.roomMembersKey r = Some v → is_set v)
  ∧ (∀ i v, d !! StateStore.clientKey i = Some v → is_hash v).

(** A check of the schema that computes. *)
Definition schema_check (d : gmap string Redis.value) : bool :=
  forallb (λ kv : string * Redis.value,
             if String.prefix "signaling:clients:" kv.1
             then match kv.2 with Redis.VHash _ => true | _ => false end
             else match kv.2 with Redis.VSet _ => true | _ => false end)
          (map_to_list d).

(** Requests that can change the database. *)
Definition request_writes (q : Redis.request) : bool :=
  match q with
  | Redis.Single c => Redis.writes c
  | Redis.Multi cs | Redis.Pipeline cs => existsb Redis.writes cs
  end.

(** The field [f] of the hash stored at [key]. *)
Definition field_at (d : gmap string Redis.value) (key f : string)
    : option string :=
  match d !! key with
  | Some (Redis.VHash h) => h !! f
  | _ => None
  end.

(** Room [r] has been collected: no member key, no index entry, and no
    entry in the node's room map. *)
Definition collected (r : string) (w : Server.world) : Prop :=
  StateStore.redis (Server.stateStore w) !! StateStore.roomMembersKey r = None
  ∧ (r ∉ Redis.set_at (StateStore.redis (Server.stateStore w))
           StateStore.ROOM_INDEX_KEY)
  ∧ Server.rooms w !! r = None.

End Claims.

(** ** Closed forms of what the handlers do *)

Module Shape.

Definition key_of (c : Redis.command) : string :=
  match c with
  | Redis.SADD k _ | Redis.SREM k _ | Redis.SMEMBERS k | Redis.SCARD k
  | Redis.DEL k | Redis.HSET k _ | Redis.HGETALL k | Redis.GET k
  | Redis.SET k _ | Redis.EXPIRE k _ => k
  end.

(** What a broadcast sends: the message, to every open socket of the room
    but the sender's. *)
Definition broadcast_trace (rs : Ws → ReadyState) (sender : Ws) (room : list Ws)
    (m : outbound) : list effect :=
  flat_map (λ ws, if bool_decide (ws ≠ sender) && bool_decide (rs ws = OPEN)
                  then [WsSend ws m] else []) room.

(** The room map after socket [ws] left, or entered, room [roomId]. *)
Definition rooms_without (ws : Ws) (roomId : string)
    (rooms : gmap string (list Ws)) : gmap string (list Ws) :=
  match rooms !! roomId with
  | Some room =>
      if bool_decide (length (JsSet.delete ws room) = 0) then delete roomId rooms
      else <[roomId := JsSet.delete ws room]> rooms
  | None => rooms
  end.

Definition rooms_with (ws : Ws) (roomId : string)
    (rooms : gmap string (list Ws)) : gmap string (list Ws) :=
  <[roomId := JsSet.add ws (default [] (rooms !! roomId))]> rooms.

(** The client object after it left, or entered, a room. *)
Definition cleared (c : Server.client) : Server.client :=
  {| Server.id := Server.id c; Server.roomId := None; Server.role := None |}.

Definition entered (roomId role : string) (c : Server.client) : Server.client :=
  {| Server.id := Server.id c; Server.roomId := Some roomId;
     Server.role := Some role |}.

(** The transaction that registers client [i] in room [r] with role [ro]. *)
Definition registration (serverId : string) (now : Z) (i r ro : string)
    : list Redis.command :=
  [ Redis.SADD StateStore.ROOM_INDEX_KEY r;
    Redis.SADD (StateStore.roomMembersKey r) i;
    Redis.HSET (StateStore.clientKey i)
      [ ("id", i); ("roomId", r); ("role", ro); ("serverId", serverId);
        ("updatedAt", StateStore.timestamp now) ] ].

(** The two transactions of a removal. *)
Definition removal (i r : string) : list Redis.command :=
  [ Redis.DEL (StateStore.clientKey i);
    Redis.SREM (StateStore.roomMembersKey r) i ].

Definition collection (r : string) : list Redis.command :=
  [ Redis.DEL (StateStore.roomMembersKey r);
    Redis.SREM StateStore.ROOM_INDEX_KEY r ].

(** The pipeline of [listParticipants]. *)
Definition lookups (ids : list string) : list Redis.command :=
  map (λ id, Redis.HGETALL (StateStore.clientKey id)) ids.

End Shape.

(** ** One room per client: the invariant of the cluster *)

Module Room.

(** Client [cl] is connected through socket [ws] of node [i]. *)
Definition live (c : Cluster.t) (i : nat) (ws : Ws) (cl : Server.client) : Prop :=
  ∃ n, Cluster.nodes c !! i = Some n ∧ JsMap.get ws (Cluster.n_clients n) = Some cl.

(** What reachable clusters keep: connected clients carry distinct, issued,
    non-empty ids; a client's [roomId] is [null] or non-empty and is the
    only room whose member set may hold its id; member sets hold issued ids
    only, and no id sits in two of them. *)
Record invariant (c : Cluster.t) : Prop := {
  inv_issued :
    ∀ i ws cl, live c i ws cl →
      Server.id cl ∈ Cluster.issued c ∧ Js.truthy (Server.id cl) = true;
  inv_unique :
    ∀ i ws cl j ws' cl', live c i ws cl → live c j ws' cl' →
      Server.id cl = Server.id cl' → i = j ∧ ws = ws';
  inv_roomId :
    ∀ i ws cl, live c i ws cl →
      Server.roomId cl = None ∨ Js.present (Server.roomId cl) = true;
  inv_room :
    ∀ i ws cl r, live c i ws cl →
      Server.id cl ∈ Cluster.members (Cluster.redis c) r → Server.roomId cl = Some r;
  inv_members :
    ∀ r x, x ∈ Cluster.members (Cluster.redis c) r → x ∈ Cluster.issued c;
  inv_one_room :
    ∀ x r1 r2, x ∈ Cluster.members (Cluster.redis c) r1 →
      x ∈ Cluster.members (Cluster.redis c) r2 → r1 = r2;
}.

Definition db (w : Server.world) : gmap string Redis.value :=
  StateStore.redis (Server.stateStore w).

(** The part of the invariant that concerns the client behind socket [ws]
    of one node. *)
Definition local_ok (w : Server.world) (ws : Ws) : Prop :=
  ∀ cl, JsMap.get ws (Server.clients w) = Some cl →
    Js.truthy (Server.id cl) = true
    ∧ (Server.roomId cl = None ∨ Js.present (Server.roomId cl) = true)
    ∧ ∀ r, Server.id cl ∈ Cluster.members (db w) r → Server.roomId cl = Some r.

(** What a handler that acts for socket [ws] may do to the node and the
    substrate: it leaves the other sockets' clients alone, keeps the id of
    its own client, changes no membership but that of its client's id, has
    removed that id from every room if it removed the client, and keeps
    [local_ok]. *)
Definition acted (ws : Ws) (w w' : Server.world) : Prop :=
  StateStore.serverId (Server.stateStore w') = StateStore.serverId (Server.stateStore w)
  ∧ (∀ ws', ws' ≠ ws →
       JsMap.get ws' (Server.clients w') = JsMap.get ws' (Server.clients w))
  ∧ (∀ cl', JsMap.get ws (Server.clients w') = Some cl' →
       ∃ cl, JsMap.get ws (Server.clients w) = Some cl ∧ Server.id cl' = Server.id cl)
  ∧ (∀ x r, x ∈ Cluster.members (db w') r →
       x ∈ Cluster.members (db w) r
       ∨ ∃ cl, JsMap.get ws (Server.clients w) = Some cl ∧ x = Server.id cl)
  ∧ (∀ cl, JsMap.get ws (Server.clients w) = Some cl →
       JsMap.get ws (Server.clients w') = None →
       ∀ r, Server.id cl ∉ Cluster.members (db w') r)
  ∧ local_ok w' ws.

(** The cluster after a handler of node [i] left world [w']. *)
Definition after (c : Cluster.t) (i : nat) (w' : Server.world) : Cluster.t :=
  {| Cluster.nodes := <[i := Cluster.node_of w']> (Cluster.nodes c);
     Cluster.redis := db w';
     Cluster.issued := Cluster.issued c |}.

(** The cluster after event [e] was handled at node [i]. *)
Definition run_event (c : Cluster.t) (i : nat) (rs : Ws → ReadyState) (now : Z)
    (e : Cluster.event) : Cluster.t :=
  match Cluster.nodes c !! i with
  | Some n =>
      let w' := state_of (Cluster.handler e (Cluster.world_of c n rs now)) in
      {| Cluster.nodes := <[i := Cluster.node_of w']> (Cluster.nodes c);
         Cluster.redis := db w';
         Cluster.issued := Cluster.issue e (Cluster.issued c) |}
  | None => c
  end.

End Room.

Module Sample.

Definition envelope (type : string) : Msg.t :=
  {| Msg.type := Some type; Msg.roomId := None; Msg.role := None;
     Msg.targetId := None; Msg.offer := None; Msg.answer := None;
     Msg.candidate := None |}.

Definition join (roomId role : option string) : Msg.t :=
  {| Msg.type := Some "join"; Msg.roomId := roomId; Msg.role := role;
     Msg.targetId := None; Msg.offer := None; Msg.answer := None;
     Msg.candidate := None |}.

Definition offer (targetId : string) : Msg.t :=
  {| Msg.type := Some "offer"; Msg.roomId := None; Msg.role := None;
     Msg.targetId := Some targetId; Msg.offer := Some (Js.JObj "{sdp}");
     Msg.answer := None; Msg.candidate := None |}.

Definition answer (targetId : string) : Msg.t :=
  {| Msg.type := Some "answer"; Msg.roomId := None; Msg.role := None;
     Msg.targetId := Some targetId; Msg.offer := None;
     Msg.answer := Some (Js.JObj "{sdp}"); Msg.candidate := None |}.

Definition ice (targetId : string) (candidate : option Js.json) : Msg.t :=
  {| Msg.type := Some "ice-candidate"; Msg.roomId := None; Msg.role := None;
     Msg.targetId := Some targetId; Msg.offer := None; Msg.answer := None;
     Msg.candidate := candidate |}.

Definition alice : Server.client :=
  {| Server.id := "alice"; Server.roomId := Some "lab"; Server.role := Some "viewer" |}.
Definition bob : Server.client :=
  {| Server.id := "bob"; Server.roomId := Some "lab"; Server.role := Some "broadcaster" |}.

Definition hash_of (serverId : string) (c : Server.client) (at_ms : string)
    : Redis.value :=
  Redis.VHash
    (Redis.hset_fields
       [ ("id", Server.id c); ("roomId", Js.value (Server.roomId c));
         ("role", Js.value (Server.role c)); ("serverId", serverId);
         ("updatedAt", at_ms) ] ∅).

(** Node [node-a] with Alice (socket 1) and Bob (socket 2) in room [lab]. *)
Definition lab : Server.world :=
  {| Server.clients := [(1, alice); (2, bob)];
     Server.rooms := {[ "lab" := [1; 2] ]};
     Server.stateStore :=
       {| StateStore.redis :=
            <[ StateStore.ROOM_INDEX_KEY := Redis.VSet {[ "lab" ]} ]>
            (<[ StateStore.roomMembersKey "lab" := Redis.VSet {[ "alice"; "bob" ]} ]>
            (<[ StateStore.clientKey "alice" := hash_of "node-a" alice "1700000000000" ]>
            (<[ StateStore.clientKey "bob" := hash_of "node-a" bob "1700000000001" ]> ∅)));
          StateStore.serverId := "node-a" |};
     Server.readyState := λ _, OPEN;
     Server.now := 1700000000002 |}.

(** Node [node-a] with Alice alone in room [lab]. *)
Definition solo : Server.world :=
  {| Server.clients := [(1, alice)];
     Server.rooms := {[ "lab" := [1] ]};
     Server.stateStore :=
       {| StateStore.redis :=
            <[ StateStore.ROOM_INDEX_KEY := Redis.VSet {[ "lab" ]} ]>
            (<[ StateStore.roomMembersKey "lab" := Redis.VSet {[ "alice" ]} ]>
            (<[ StateStore.clientKey "alice" := hash_of "node-a" alice "1700000000000" ]> ∅));
          StateStore.serverId := "node-a" |};
     Server.readyState := λ _, OPEN;
     Server.now := 1700000000002 |}.

(** A payload for Bob that [node-a] published itself, and the same payload
    coming from [node-b]. *)
Definition own_payload : relayPayload :=
  {| originServerId := Some "node-a"; targetServerId := Some "node-a";
     targetId := Some "bob"; message := Some (Offer "alice" (Js.JObj "{sdp}")) |}.

Definition remote_payload : relayPayload :=
  {| originServerId := Some "node-b"; targetServerId := Some "node-a";
     targetId := Some "bob"; message := Some (Offer "carol" (Js.JObj "{sdp}")) |}.

(** A payload for a client that is no longer connected to [node-a]. *)
Definition stale_payload : relayPayload :=
  {| originServerId := Some "node-b"; targetServerId := Some "node-a";
     targetId := Some "dave"; message := Some (Offer "carol" (Js.JObj "{sdp}")) |}.

(** One node; Alice connects and joins room [lab]. *)
Definition cluster0 : Cluster.t := Cluster.init ["node-a"].
Definition cluster1 : Cluster.t :=
  Room.run_event cluster0 0 (λ _, OPEN) 1700000000000 (Cluster.Connect 1 "alice").
Definition cluster2 : Cluster.t :=
  Room.run_event cluster1 0 (λ _, OPEN) 1700000000001
    (Cluster.Message 1 (Some (join (Some "lab") (Some "viewer")))).

End Sample.

(** ** A small CRDT to run the bridges on *)

(** A max-register: the document is a number, an update proposes the number
    of its bytes, merging takes the larger one. The encoded state of [n] is
    [n] zero bytes; text encoding maps bytes to characters one to one. *)
Module Register.

Definition Doc : Type := nat.
Definition encodeStateAsUpdate (d : Doc) : list Byte.byte := repeat Byte.x00 d.
Definition applyUpdate (d : Doc) (u : list Byte.byte) : Doc :=
  Nat.max d (List.length u).
Definition integrates (d : Doc) (u : list Byte.byte) : bool :=
  Nat.ltb d (List.length u).
Definition toBase64 (b : list Byte.byte) : string := String.string_of_list_byte b.
Definition fromBase64 (s : string) : list Byte.byte := String.list_byte_of_string s.

Definition ydoc := Persistence.ydoc Doc.
Definition world := Persistence.world Doc.

Definition transactions :=
  Persistence.transactions Doc encodeStateAsUpdate applyUpdate integrates toBase64.
Definition bindState :=
  Persistence.bindState Doc encodeStateAsUpdate applyUpdate integrates toBase64
    fromBase64.

(** An empty document bound as [main.py], on an empty substrate. *)
Definition bound : world :=
  {| Persistence.redis := ∅;
     Persistence.prefix := "collab:yjs:doc";
     Persistence.docs :=
       {[ 0 := {| Persistence.content := 0; Persistence.listeners := ["main.py"] |} ]} |}.

(** A fresh document object, and a substrate that holds a state of 2. *)
Definition fresh : world :=
  {| Persistence.redis := ∅;
     Persistence.prefix := "collab:yjs:doc";
     Persistence.docs :=
       {[ 0 := {| Persistence.content := 0; Persistence.listeners := [] |} ]} |}.

Definition stored : world :=
  {| Persistence.redis :=
       {[ "collab:yjs:doc:main.py" := Redis.VString (toBase64 [Byte.x00; Byte.x00]) ]};
     Persistence.prefix := "collab:yjs:doc";
     Persistence.docs :=
       {[ 0 := {| Persistence.content := 0; Persistence.listeners := [] |} ]} |}.

(** Two transactions in the same millisecond. *)
Definition burst : list (Z * list Byte.byte) :=
  [ (0%Z, [Byte.x00]); (0%Z, [Byte.x00; Byte.x00]) ].

End Register.

(** ** A small presence protocol to run the awareness bridge on *)

(** The states are the list of client ids seen so far; an update is the
    list of ids it announces, one byte each. *)
Module Presence.

Definition States : Type := list nat.
Definition encodeAwarenessUpdate (st : States) (changed : list nat)
    : list Byte.byte :=
  map (λ n, default Byte.x00 (Byte.of_nat n)) changed.
Definition applyAwarenessUpdate (st : States) (u : list Byte.byte)
    : option (States * Awareness.changes) :=
  Some (st ++ map Byte.to_nat u,
        {| Awareness.added := map Byte.to_nat u; Awareness.updated := [];
           Awareness.removed := [] |}).
Definition toBase64 (b : list Byte.byte) : string := String.string_of_list_byte b.
Definition fromBase64 (s : string) : list Byte.byte := String.list_byte_of_string s.

Definition change := Awareness.change States encodeAwarenessUpdate toBase64.
Definition handleMessage :=
  Awareness.handleMessage States encodeAwarenessUpdate applyAwarenessUpdate
    toBase64 fromBase64.
Definition watch := Awareness.watch States.

(** Document [main.py] watched on awareness object 0. *)
Definition watched : Awareness.world States :=
  {| Awareness.prefix := "collab:yjs:awareness";
     Awareness.boundDocs := {[ "main.py" := 0 ]};
     Awareness.origin_marker := Awareness.Symbol 0;
     Awareness.heap :=
       {[ 0 := {| Awareness.states := [7]; Awareness.handlers := ["main.py"] |} ]} |}.

Definition arrival : Awareness.changes :=
  {| Awareness.added := [9]; Awareness.updated := []; Awareness.removed := [] |}.

End Presence.

(** ** The scenarios of tests/stateStore.test.js *)

Module StoreTests.

Definition store (serverId : string) : StateStore.t :=
  {| StateStore.redis := ∅; StateStore.serverId := serverId |}.

Definition registers_and_lists : M StateStore.t (list participant) :=
  _ ← StateStore.registerClient 1 (Some "client-1") (Some "room-1") (Some "viewer");
  _ ← StateStore.registerClient 2 (Some "client-2") (Some "room-1") (Some "broadcaster");
  StateStore.listParticipants (Some "room-1").

Definition removes_and_cleans : M StateStore.t unit :=
  _ ← StateStore.registerClient 1 (Some "client-1") (Some "room-xyz") (Some "viewer");
  StateStore.removeClient (Some "client-1") (Some "room-xyz").

Definition returns_metadata : M StateStore.t (option (gmap string string)) :=
  _ ← StateStore.registerClient 1 (Some "client-42") (Some "room-42") (Some "viewer");
  StateStore.getClient (Some "client-42").

End StoreTests.

(** ** More of server.js: the health endpoint *)

Module Health.

(** The JSON body of a healthy reply. *)
Record body := {
  status : string;
  connections : nat;
  rooms : nat;
}.

(** What [res.writeHead] and [res.end] were given. *)
Record response := {
  statusCode : nat;
  contentType : option string;
  payload : option body;
}.

(** The request listener of [healthServer]. *)
Definition healthServer (url : string) (w : Server.world) : response :=
  if decide (url = "/health")
  then {| statusCode := 200;
          contentType := Some "application/json";
          payload := Some {| status := "healthy";
                             connections := length (Server.clients w);
                             rooms := size (Server.rooms w) |} |}
  else {| statusCode := 404; contentType := None; payload := None |}.

End Health.

(** ** The collaboration server's entry point *)

Module CollabServer.
Import Stdlib.Strings.Ascii.

(** [s.split(sep)[0]] for a separator of one character. *)
Fixpoint before (sep : Ascii.ascii) (s : string) : string :=
  match s with
  | EmptyString => EmptyString
  | String a s' =>
      if decide (a = sep) then EmptyString else String a (before sep s')
  end.

(** The character ['?']. *)
Definition query_mark : Ascii.ascii := "?"%char.

(** [req.url.slice(1).split('?')[0] || 'default']: the document a
    connection is for. *)
Definition docName (url : string) : string :=
  Js.or_else (Some (before query_mark (Awareness.slice 1 url))) "default".

End CollabServer.

(** ** The end of an awareness bridge *)

Module Bridge.

(** The connections a bridge may own. *)
Inductive connection := Subscriber | Publisher.

Section destroy.
Variable States : Type.

(** A listener list without the first entry for [docName]. *)
Fixpoint without (docName : string) (hs : list string) : list string :=
  match hs with
  | [] => []
  | n :: hs' => if decide (n = docName) then hs' else n :: without docName hs'
  end.

(** [awareness.off('update', handler)] for the handler that [watch]
    registered for [docName]: a handler is known by the document name it
    captured, and one handler is taken off. *)
Definition off (docName : string) (h : nat) : M (Awareness.world States) unit :=
  modify (Awareness.with_heap States
            (λ hp, match hp !! h with
                   | Some a =>
                       <[h := {| Awareness.states := Awareness.states States a;
                                 Awareness.handlers :=
                                   without docName (Awareness.handlers States a) |}]> hp
                   | None => hp
                   end)).

(** [destroy()]: every bound handler is taken off its awareness (the order
    of the bindings does not matter), the bindings are cleared, and the
    connections the bridge created itself are quit; the result lists
    those. *)
Definition destroy (externalSubscriber externalPublisher : bool)
    : M (Awareness.world States) (list connection) :=
  w ← get;
  _ ← for_each (map_to_list (Awareness.boundDocs States w))
        (λ entry, off entry.1 entry.2);
  _ ← modify (Awareness.with_boundDocs States (λ _, ∅));
  mret ((if externalSubscriber then [] else [Subscriber])
        ++ (if externalPublisher then [] else [Publisher])).

End destroy.
End Bridge.

(** ** More sample worlds *)

Module Scenario.

(** Node [node-a] as in [Sample.lab], on a substrate where the member key
    of room [studio] holds a string. *)
Definition clash : Server.world :=
  Server.with_store
    (StateStore.with_redis
       (<[ StateStore.roomMembersKey "studio" := Redis.VString "x" ]>
          (StateStore.redis (Server.stateStore Sample.lab)))
       (Server.stateStore Sample.lab))
    Sample.lab.


(** [node-a] after a restart under the same server id: nobody is
    connected, and the substrate still holds what [Sample.lab] held. *)
Definition restarted : Server.world :=
  {| Server.clients := [];
     Server.rooms := ∅;
     Server.stateStore := Server.stateStore Sample.lab;
     Server.readyState := λ _, OPEN;
     Server.now := 1700000000100 |}.

(** [node-b] with Carol (socket 7), who is in no room. *)
Definition carol : Server.client :=
  {| Server.id := "carol"; Server.roomId := None; Server.role := None |}.

Definition remote : Server.world :=
  {| Server.clients := [(7, carol)];
     Server.rooms := ∅;
     Server.stateStore :=
       {| StateStore.redis := StateStore.redis (Server.stateStore Sample.lab);
          StateStore.serverId := "node-b" |};
     Server.readyState := λ _, OPEN;
     Server.now := 1700000000100 |}.

(** Alice right after connecting to [node-a]: in no room yet. *)
Definition newcomer : Server.client :=
  {| Server.id := "alice"; Server.roomId := None; Server.role := None |}.

Definition lobby : Cluster.node :=
  {| Cluster.n_serverId := "node-a";
     Cluster.n_clients := [(1, newcomer)];
     Cluster.n_rooms := ∅ |}.

(** Two nodes: Alice connects to [node-a] and joins room [lab]; Carol
    connects to [node-b] and joins no room. *)
Definition pair0 : Cluster.t := Cluster.init ["node-a"; "node-b"].
Definition pair1 : Cluster.t :=
  Room.run_event pair0 0 (λ _, OPEN) 1700000000000 (Cluster.Connect 1 "alice").
Definition pair2 : Cluster.t :=
  Room.run_event pair1 0 (λ _, OPEN) 1700000000001
    (Cluster.Message 1 (Some (Sample.join (Some "lab") (Some "viewer")))).
Definition pair3 : Cluster.t :=
  Room.run_event pair2 1 (λ _, OPEN) 1700000000002 (Cluster.Connect 7 "carol").

End Scenario.

(** ** What reachable clusters keep, beyond one room per client *)

Module Registry.

(** The room index lists exactly the rooms that have members. *)
Definition indexed (d : gmap string Redis.value) : Prop :=
  ∀ r, r ∈ Redis.set_at d StateStore.ROOM_INDEX_KEY ↔ Cluster.members d r ≠ ∅.

(** The substrate respects the key schema and its index is exact. *)
Definition consistent (d : gmap string Redis.value) : Prop :=
  Claims.well_typed d ∧ indexed d.

(** The registry mirrors a connected client of node [sid]: in a room, its
    id is a member of the room and its hash carries its id, room, role and
    node; in no room, it has no hash. *)
Definition recorded (d : gmap string Redis.value) (sid : string)
    (cl : Server.client) : Prop :=
  match Server.roomId cl with
  | Some r =>
      Server.id cl ∈ Cluster.members d r
      ∧ Claims.field_at d (StateStore.clientKey (Server.id cl)) "id"
        = Some (Server.id cl)
      ∧ Claims.field_at d (StateStore.clientKey (Server.id cl)) "roomId" = Some r
      ∧ Claims.field_at d (StateStore.clientKey (Server.id cl)) "role"
        = Server.role cl
      ∧ Claims.field_at d (StateStore.clientKey (Server.id cl)) "serverId"
        = Some sid
  | None => d !! StateStore.clientKey (Server.id cl) = None
  end.

(** The socket an event is about. *)
Definition actor (e : Cluster.event) : option Ws :=
  match e with
  | Cluster.Connect ws _ | Cluster.Message ws _ | Cluster.Close ws => Some ws
  | Cluster.Relay _ | Cluster.Heartbeat => None
  end.

(** Every connected client of every node is mirrored, and only issued ids
    have a hash. *)
Definition mirrors (c : Cluster.t) : Prop :=
  (∀ i n ws cl,
     Cluster.nodes c !! i = Some n →
     JsMap.get ws (Cluster.n_clients n) = Some cl →
     recorded (Cluster.redis c) (Cluster.n_serverId n) cl)
  ∧ (∀ x, is_Some (Cluster.redis c !! StateStore.clientKey x) →
          x ∈ Cluster.issued c).

End Registry.

Module Local.

(** The room map of a node groups its connections: a room in the map has a
    non-empty name and at least one socket, holds no socket twice, and
    holds exactly the sockets of the connected clients whose [roomId] it
    is; and no socket has two entries in the client map. *)
Definition grouped (clients : list (Ws * Server.client))
    (rooms : gmap string (list Ws)) : Prop :=
  (∀ r room, rooms !! r = Some room →
     Js.truthy r = true ∧ room ≠ [] ∧ NoDup room
     ∧ ∀ ws, ws ∈ room →
         ∃ cl, JsMap.get ws clients = Some cl ∧ Server.roomId cl = Some r)
  ∧ (∀ ws cl r, JsMap.get ws clients = Some cl → Server.roomId cl = Some r →
       ∃ room, rooms !! r = Some room ∧ ws ∈ room)
  ∧ NoDup clients.*1.

(** The rooms the connected clients are in. *)
Definition occupied (clients : list (Ws * Server.client)) : gset string :=
  list_to_set (omap (λ p : Ws * Server.client, Server.roomId p.2) clients).

End Local.

(** * Properties *)

(** ** Truthiness and keys *)

Lemma truthy_nonempty s : Js.truthy s = true ↔ s ≠ EmptyString.
Proof. destruct s; simpl; split; intros; congruence. Qed.

Lemma present_Some o :
  Js.present o = true ↔ ∃ s, o = Some s ∧ Js.truthy s = true.
Proof.
  destruct o as [s|]; simpl; split.
  - intros H. exists s. auto.
  - intros (s' & [= <-] & H). exact H.
  - discriminate.
  - intros (s' & [=] & _).
Qed.

Lemma string_length_app (s t : string) :
  String.length (s +:+ t) = String.length s + String.length t.
Proof.
  induction s as [|a s IH]; [reflexivity |].
  change (S (String.length (s +:+ t)) = S (String.length s + String.length t)).
  rewrite IH. reflexivity.
Qed.

Lemma string_app_inv_tail (s1 s2 t : string) :
  s1 +:+ t = s2 +:+ t → s1 = s2.
Proof.
  revert s2. induction s1 as [|a s1 IH]; intros [|b s2] H.
  - reflexivity.
  - apply (f_equal String.length) in H.
    rewrite !string_length_app in H. simpl in H. lia.
  - apply (f_equal String.length) in H.
    rewrite !string_length_app in H. simpl in H. lia.
  - change (String a (s1 +:+ t) = String b (s2 +:+ t)) in H.
    injection H as -> H. f_equal. apply IH, H.
Qed.

Lemma roomMembersKey_inj r1 r2 :
  StateStore.roomMembersKey r1 = StateStore.roomMembersKey r2 → r1 = r2.
Proof.
  unfold StateStore.roomMembersKey. intros H.
  apply String.app_inj in H. eapply string_app_inv_tail, H.
Qed.

Lemma clientKey_inj i1 i2 :
  StateStore.clientKey i1 = StateStore.clientKey i2 → i1 = i2.
Proof. unfold StateStore.clientKey. apply String.app_inj. Qed.

Lemma index_ne_members r :
  StateStore.ROOM_INDEX_KEY ≠ StateStore.roomMembersKey r.
Proof. intros H. discriminate H. Qed.

Lemma client_ne_members i r :
  StateStore.clientKey i ≠ StateStore.roomMembersKey r.
Proof. intros H. discriminate H. Qed.

Lemma client_ne_index i :
  StateStore.clientKey i ≠ StateStore.ROOM_INDEX_KEY.
Proof. intros H. discriminate H. Qed.

Lemma server_ne_members s r :
  StateStore.serverKey s ≠ StateStore.roomMembersKey r.
Proof. intros H. discriminate H. Qed.

(** ** The state store *)

(** C9: [registerClient] called without an id or without a room id returns
    at once: the store is as before and no request reaches the substrate, so
    no client hash, member set or index entry is created. *)
Theorem registerClient_missing_noop now id roomId role (s : StateStore.t) :
  Js.present id = false ∨ Js.present roomId = false →
  StateStore.registerClient now id roomId role s = (s, [], Done tt).
Proof.
  intros [H | H]; unfold StateStore.registerClient; rewrite H; simpl.
  - reflexivity.
  - rewrite orb_true_r. reflexivity.
Qed.

Lemma registerClient_missing_noop_witness :
  let s := {| StateStore.redis := ∅; StateStore.serverId := "node-a" |} in
  StateStore.registerClient 0 None (Some "room-1") (Some "viewer") s
  = (s, [], Done tt)
  ∧ StateStore.registerClient 0 (Some "client-1") (Some EmptyString) (Some "viewer") s
    = (s, [], Done tt).
Proof.
  split.
  - apply registerClient_missing_noop. left. reflexivity.
  - apply registerClient_missing_noop. right. reflexivity.
Defined.

(** ** Running handlers *)

Lemma bind_get {S A} (k : S → M S A) (s : S) :
  (get ≫= k) s = k s s.
Proof.
  unfold mbind, M_bind, bind, get. destruct (k s s) as [[s' t] o]. reflexivity.
Qed.

Lemma bind_run {S A B} (m : M S A) (k : A → M S B) (s s1 : S) t1 a :
  m s = (s1, t1, Done a) →
  (m ≫= k) s = prepend t1 (k a s1).
Proof. intros H. unfold mbind, M_bind, bind. rewrite H. reflexivity. Qed.

Lemma bind_modify {S A} (f : S → S) (k : unit → M S A) (s : S) :
  (modify f ≫= k) s = k tt (f s).
Proof.
  unfold mbind, M_bind, bind, modify. destruct (k tt (f s)) as [[s' t] o].
  reflexivity.
Qed.

Lemma prepend_nil {S A} (r : S * list effect * outcome A) : prepend [] r = r.
Proof. destruct r as [[s t] o]. reflexivity. Qed.

Lemma prepend_prepend {S A} t1 t2 (r : S * list effect * outcome A) :
  prepend t1 (prepend t2 r) = prepend (t1 ++ t2) r.
Proof. destruct r as [[s t] o]. simpl. rewrite app_assoc. reflexivity. Qed.

Lemma bind_thrown {S A B} (m : M S A) (k : A → M S B) (s s1 : S) t1 e :
  m s = (s1, t1, Thrown e) →
  (m ≫= k) s = (s1, t1, Thrown e).
Proof. intros H. unfold mbind, M_bind, bind. rewrite H. reflexivity. Qed.

Lemma run_eta {S A} (r : S * list effect * outcome A) :
  r = (state_of r, trace_of r, outcome_of r).
Proof. destruct r as [[s t] o]. reflexivity. Qed.

Lemma send_open ws m (w : Server.world) :
  Server.readyState w ws = OPEN →
  Server.send ws m w = (w, [WsSend ws m], Done tt).
Proof.
  intros H. unfold Server.send. rewrite bind_get, H. reflexivity.
Qed.

Lemma send_not_open ws m (w : Server.world) :
  Server.readyState w ws ≠ OPEN →
  Server.send ws m w = (w, [], Done tt).
Proof.
  intros H. unfold Server.send. rewrite bind_get.
  rewrite bool_decide_eq_false_2 by exact H. reflexivity.
Qed.

(** [send] never changes the world, always returns, and sends at most the
    given message to the given socket. *)
Lemma send_run ws m (w : Server.world) :
  Server.send ws m w
  = (w, if bool_decide (Server.readyState w ws = OPEN) then [WsSend ws m] else [],
     Done tt).
Proof.
  unfold Server.send. rewrite bind_get.
  destruct (bool_decide (Server.readyState w ws = OPEN)); reflexivity.
Qed.

(** ** The relay channel *)

(** C10: a payload whose [originServerId] is the receiving node's own
    [serverId] is never delivered: [handleRelayDelivery] returns with the
    world unchanged and an empty trace, so nothing is sent to any client. *)
Theorem handleRelayDelivery_own_origin (w : Server.world) (payload : relayPayload) :
  originServerId payload = Some (StateStore.serverId (Server.stateStore w)) →
  Server.handleRelayDelivery (Some payload) w = (w, [], Done tt).
Proof.
  intros Horigin. unfold Server.handleRelayDelivery. rewrite bind_get.
  destruct (bool_decide (targetServerId payload
                         ≠ Some (StateStore.serverId (Server.stateStore w)))).
  - reflexivity.
  - rewrite bool_decide_eq_true_2 by exact Horigin. reflexivity.
Qed.

Lemma handleRelayDelivery_own_origin_witness :
  Server.handleRelayDelivery (Some Sample.own_payload) Sample.lab
  = (Sample.lab, [], Done tt).
Proof. apply handleRelayDelivery_own_origin. reflexivity. Defined.

(** C6, as the specification words it, fails: [node-a] receives a payload
    addressed to itself whose target, Bob, is connected with an open socket,
    and delivers nothing, because the payload's origin is [node-a] too. *)
Lemma relay_delivery_as_specified_fails : ¬ Claims.relay_delivery_as_specified.
Proof.
  intros H.
  specialize (H Sample.lab Sample.own_payload "bob" 2
                (Offer "alice" (Js.JObj "{sdp}"))
                eq_refl eq_refl eq_refl eq_refl eq_refl).
  vm_compute in H. discriminate H.
Qed.

Lemma findClientById_elem t m ws :
  Server.findClientById t m = Some ws →
  ∃ c, (ws, c) ∈ m ∧ Server.id c = t.
Proof.
  induction m as [|[k c] m IH]; simpl; [discriminate |].
  destruct (decide (Server.id c = t)) as [Heq | Hne].
  - intros [= <-]. exists c. split; [left | exact Heq].
  - intros H. destruct (IH H) as (c' & Hin & Hid).
    exists c'. split; [right; exact Hin | exact Hid].
Qed.

Lemma findClientById_None t m :
  (∀ ws c, (ws, c) ∈ m → Server.id c ≠ t) →
  Server.findClientById t m = None.
Proof.
  intros H. destruct (Server.findClientById t m) as [ws|] eqn:E; [| reflexivity].
  destruct (findClientById_elem _ _ _ E) as (c & Hin & Hid).
  exfalso. exact (H ws c Hin Hid).
Qed.

(** C6, amended: a payload is delivered exactly when it is for this node,
    comes from another node, names a locally connected client whose socket
    is open and carries a message; then that client gets the message and
    nothing else happens. In every other case the payload is dropped with an
    empty trace, whatever the type of its message: the receiving node never
    notifies anybody of a missing target. *)
Theorem handleRelayDelivery_delivers_or_drops (w : Server.world)
    (payload : option relayPayload) :
  (∀ targetWs m,
     Claims.deliverable w payload targetWs m →
     Server.handleRelayDelivery payload w = (w, [WsSend targetWs m], Done tt))
  ∧ ((∀ targetWs m, ¬ Claims.deliverable w payload targetWs m) →
     Server.handleRelayDelivery payload w = (w, [], Done tt)).
Proof.
  unfold Claims.deliverable, Claims.self. split.
  - intros targetWs m (p & t & -> & Htarget & Horigin & Ht & Hfind & Hm & Hopen).
    unfold Server.handleRelayDelivery. rewrite bind_get.
    rewrite bool_decide_eq_false_2 by (intros Hne; exact (Hne Htarget)).
    rewrite bool_decide_eq_false_2 by exact Horigin.
    rewrite Ht. simpl. rewrite Hfind, Hm. apply send_open, Hopen.
  - intros Hno. unfold Server.handleRelayDelivery. rewrite bind_get.
    destruct payload as [p|]; [| reflexivity].
    destruct (bool_decide_reflect
                (targetServerId p ≠ Some (StateStore.serverId (Server.stateStore w))))
      as [_ | Htarget]; [reflexivity |].
    destruct (bool_decide_reflect
                (originServerId p = Some (StateStore.serverId (Server.stateStore w))))
      as [_ | Horigin]; [reflexivity |].
    destruct (targetId p) as [t|] eqn:Ht; simpl; [| reflexivity].
    destruct (Server.findClientById t (Server.clients w)) as [targetWs|] eqn:Hfind;
      [| reflexivity].
    destruct (message p) as [m|] eqn:Hm; [| reflexivity].
    rewrite send_run.
    destruct (bool_decide_reflect (Server.readyState w targetWs = OPEN))
      as [Hopen | _]; [| reflexivity].
    exfalso. apply (Hno targetWs m). exists p, t.
    repeat split; try assumption.
    destruct (decide (targetServerId p
                      = Some (StateStore.serverId (Server.stateStore w))))
      as [Heq | Hne]; [exact Heq | exfalso; exact (Htarget Hne)].
Qed.

Lemma handleRelayDelivery_delivers_or_drops_witness :
  Server.handleRelayDelivery (Some Sample.remote_payload) Sample.lab
  = (Sample.lab, [WsSend 2 (Offer "carol" (Js.JObj "{sdp}"))], Done tt)
  ∧ Server.handleRelayDelivery (Some Sample.stale_payload) Sample.lab
    = (Sample.lab, [], Done tt).
Proof.
  split.
  - apply (proj1 (handleRelayDelivery_delivers_or_drops Sample.lab
                    (Some Sample.remote_payload))).
    exists Sample.remote_payload, "bob".
    repeat split; try reflexivity. discriminate.
  - apply (proj2 (handleRelayDelivery_delivers_or_drops Sample.lab
                    (Some Sample.stale_payload))).
    intros targetWs m (p & t & [= <-] & _ & _ & [= <-] & Hfind & _).
    vm_compute in Hfind. discriminate Hfind.
Defined.

(** ** Joining without a room or a role *)

Lemma handleJoin_missing_run (ws : Ws) (message : Msg.t) (w : Server.world) :
  Js.present (Msg.roomId message) = false ∨ Js.present (Msg.role message) = false →
  Server.handleJoin ws message w
  = Server.send ws (Error "roomId and role are required") w.
Proof.
  intros Hmissing. unfold Server.handleJoin. rewrite bind_get.
  destruct Hmissing as [-> | ->]; simpl; [| rewrite orb_true_r]; reflexivity.
Qed.

(** C2: a join whose [roomId] or [role] is missing (absent or empty) is
    answered with an error and changes nothing: the world after the handler
    is the world before it, so the client's [roomId] and [role] keep their
    values and the substrate holds what it held, and the handler's trace
    contains no substrate request at all. The error reaches the client when
    its socket is open. *)
Theorem handleJoin_missing_field (ws : Ws) (message : Msg.t) (w : Server.world) :
  Js.present (Msg.roomId message) = false ∨ Js.present (Msg.role message) = false →
  state_of (Server.handleJoin ws message w) = w
  ∧ requests (trace_of (Server.handleJoin ws message w)) = []
  ∧ outcome_of (Server.handleJoin ws message w) = Done tt
  ∧ (Server.readyState w ws = OPEN →
     sends (trace_of (Server.handleJoin ws message w))
     = [(ws, Error "roomId and role are required")]).
Proof.
  intros Hmissing.
  rewrite (handleJoin_missing_run ws message w Hmissing), send_run. unfold state_of, trace_of, outcome_of. simpl.
  repeat split.
  - destruct (bool_decide _); reflexivity.
  - intros ->. reflexivity.
Qed.

Lemma handleJoin_missing_field_witness :
  let r := Server.handleJoin 1 (Sample.join (Some "studio") None) Sample.lab in
  state_of r = Sample.lab
  ∧ requests (trace_of r) = []
  ∧ outcome_of r = Done tt
  ∧ sends (trace_of r) = [(1, Error "roomId and role are required")].
Proof.
  destruct (handleJoin_missing_field 1 (Sample.join (Some "studio") None) Sample.lab
              (or_intror eq_refl)) as (Hstate & Hrequests & Hdone & Hsent).
  split; [exact Hstate |]. split; [exact Hrequests |]. split; [exact Hdone |].
  exact (Hsent eq_refl).
Defined.

(** ** Relaying to an unknown target *)

Lemma with_redis_same (s : StateStore.t) :
  StateStore.with_redis (StateStore.redis s) s = s.
Proof. destruct s. reflexivity. Qed.

Lemma with_store_same (w : Server.world) :
  Server.with_store (Server.stateStore w) w = w.
Proof. destruct w. reflexivity. Qed.

(** Without a hash under the client's key, [getClient] finds nobody and
    leaves the store as it is. *)
Lemma getClient_no_hash (t : string) (s : StateStore.t) :
  Js.truthy t = true →
  StateStore.redis s !! StateStore.clientKey t = None →
  StateStore.getClient (Some t) s
  = (s, [Substrate (Redis.Single (Redis.HGETALL (StateStore.clientKey t)))],
     Done None).
Proof.
  intros Ht Hnone. unfold StateStore.getClient. simpl. rewrite Ht. simpl.
  unfold mbind, M_bind, bind, StateStore.call. simpl. rewrite Hnone.
  rewrite with_redis_same. reflexivity.
Qed.

Lemma relayOrSend_unknown (ws : Ws) (t : string) (m : outbound)
    (notifyMissing : option bool) (w : Server.world) :
  Js.truthy t = true →
  Claims.unknown_target w t →
  Server.relayOrSend ws t m notifyMissing w
  = (w,
     Substrate (Redis.Single (Redis.HGETALL (StateStore.clientKey t)))
     :: (if default true notifyMissing && bool_decide (Server.readyState w ws = OPEN)
         then [WsSend ws (Error ("Target client " +:+ t +:+ " not found"))]
         else []),
     Done false).
Proof.
  intros Ht [Hlocal Hhash]. unfold Server.relayOrSend. rewrite bind_get.
  rewrite (findClientById_None _ _ Hlocal).
  assert (Server.on_store (StateStore.getClient (Some t)) w
          = (w, [Substrate (Redis.Single (Redis.HGETALL (StateStore.clientKey t)))],
             Done None)) as Hget.
  { unfold Server.on_store. rewrite (getClient_no_hash _ _ Ht Hhash).
    rewrite with_store_same. reflexivity. }
  rewrite (bind_run _ _ _ _ _ _ Hget). simpl.
  destruct (default true notifyMissing); simpl.
  - rewrite (bind_run _ _ _ _ _ _ (send_run ws _ w)). simpl.
    rewrite app_nil_r. reflexivity.
  - reflexivity.
Qed.

Lemma catch_done {S A} (m : M S A) (h : exn → M S A) (s s1 : S) t a :
  m s = (s1, t, Done a) → catch m h s = (s1, t, Done a).
Proof. intros H. unfold catch. rewrite H. reflexivity. Qed.

Lemma handleMessage_dispatch (ws : Ws) (client : Server.client)
    (message : Msg.t) (w : Server.world) (k : M Server.world unit) :
  JsMap.get ws (Server.clients w) = Some client →
  (let type := Msg.type message in
   if decide (type = Some "join") then Server.handleJoin ws message
   else if decide (type = Some "offer") then Server.handleOffer ws message
   else if decide (type = Some "answer") then Server.handleAnswer ws message
   else if decide (type = Some "ice-candidate")
        then Server.handleIceCandidate ws message
   else if decide (type = Some "leave") then Server.handleLeave ws
   else Server.send ws
          (Error ("Unknown message type: " +:+ default "undefined" type))) = k →
  Server.handleMessage ws message w = k w.
Proof.
  intros Hclient <-. unfold Server.handleMessage. rewrite bind_get, Hclient.
  reflexivity.
Qed.

(** C1: a well-formed offer or answer (target id and payload present) from a
    connected client whose target is unknown is answered with one error
    naming the missing target, provided the sender's socket is open; a
    well-formed ICE candidate with an unknown target is dropped: nothing is
    sent to anybody. In all three cases the only other effect is the lookup
    of the target's hash: nothing is published on the relay channel and the
    world is unchanged. *)
Theorem unknown_target_reported_or_dropped (ws : Ws) (client : Server.client)
    (message : Msg.t) (t : string) (w : Server.world) :
  JsMap.get ws (Server.clients w) = Some client →
  Msg.targetId message = Some t →
  Js.truthy t = true →
  Claims.unknown_target w t →
  let lookup := Substrate (Redis.Single (Redis.HGETALL (StateStore.clientKey t))) in
  let missing := Error ("Target client " +:+ t +:+ " not found") in
  (Msg.type message = Some "offer" →
   Js.present_json (Msg.offer message) = true →
   Server.readyState w ws = OPEN →
   Server.on_message ws (Some message) w = (w, [lookup; WsSend ws missing], Done tt))
  ∧ (Msg.type message = Some "answer" →
     Js.present_json (Msg.answer message) = true →
     Server.readyState w ws = OPEN →
     Server.on_message ws (Some message) w = (w, [lookup; WsSend ws missing], Done tt))
  ∧ (Msg.type message = Some "ice-candidate" →
     Js.present_json (Msg.candidate message) = true →
     Server.on_message ws (Some message) w = (w, [lookup], Done tt)).
Proof.
  intros Hclient Htarget Ht Hunknown lookup missing.
  assert (Js.present (Msg.targetId message) = true) as Hpresent
    by (rewrite Htarget; exact Ht).
  repeat split.
  - intros Htype Hoffer Hopen. unfold Server.on_message. apply catch_done.
    rewrite (handleMessage_dispatch ws client message w (Server.handleOffer ws message) Hclient)
      by (rewrite Htype; reflexivity).
    unfold Server.handleOffer. rewrite bind_get, Hpresent, Hoffer, Hclient. simpl.
    destruct (Msg.offer message) as [offer|]; [| discriminate Hoffer].
    rewrite Htarget. simpl.
    rewrite (bind_run _ _ _ _ _ _ (relayOrSend_unknown ws t _ _ w Ht Hunknown)).
    simpl. rewrite bool_decide_eq_true_2 by exact Hopen. reflexivity.
  - intros Htype Hanswer Hopen. unfold Server.on_message. apply catch_done.
    rewrite (handleMessage_dispatch ws client message w (Server.handleAnswer ws message) Hclient)
      by (rewrite Htype; reflexivity).
    unfold Server.handleAnswer. rewrite bind_get, Hpresent, Hanswer, Hclient. simpl.
    destruct (Msg.answer message) as [answer|]; [| discriminate Hanswer].
    rewrite Htarget. simpl.
    rewrite (bind_run _ _ _ _ _ _ (relayOrSend_unknown ws t _ _ w Ht Hunknown)).
    simpl. rewrite bool_decide_eq_true_2 by exact Hopen. reflexivity.
  - intros Htype Hcandidate. unfold Server.on_message. apply catch_done.
    rewrite (handleMessage_dispatch ws client message w
               (Server.handleIceCandidate ws message) Hclient)
      by (rewrite Htype; reflexivity).
    unfold Server.handleIceCandidate.
    rewrite bind_get, Hpresent, Hcandidate, Hclient. simpl.
    destruct (Msg.candidate message) as [candidate|]; [| discriminate Hcandidate].
    rewrite Htarget. simpl.
    rewrite (bind_run _ _ _ _ _ _ (relayOrSend_unknown ws t _ _ w Ht Hunknown)).
    reflexivity.
Qed.

(** A check of [unknown_target] that computes. *)
Lemma unknown_target_check (w : Server.world) (t : string) :
  forallb (λ p : Ws * Server.client, negb (String.eqb (Server.id p.2) t))
          (Server.clients w) = true →
  StateStore.redis (Server.stateStore w) !! StateStore.clientKey t = None →
  Claims.unknown_target w t.
Proof.
  intros Hall Hhash. split; [| exact Hhash].
  intros ws c Hin Hid. rewrite forallb_forall in Hall.
  apply list_elem_of_In in Hin. specialize (Hall _ Hin). simpl in Hall.
  rewrite Hid, String.eqb_refl in Hall. discriminate Hall.
Qed.

Lemma unknown_target_reported_or_dropped_witness :
  let lookup := Substrate (Redis.Single (Redis.HGETALL "signaling:clients:ghost")) in
  let missing := Error "Target client ghost not found" in
  Server.on_message 1 (Some (Sample.offer "ghost")) Sample.lab
  = (Sample.lab, [lookup; WsSend 1 missing], Done tt)
  ∧ Server.on_message 1 (Some (Sample.answer "ghost")) Sample.lab
    = (Sample.lab, [lookup; WsSend 1 missing], Done tt)
  ∧ Server.on_message 1 (Some (Sample.ice "ghost" (Some (Js.JObj "{candidate}"))))
      Sample.lab
    = (Sample.lab, [lookup], Done tt).
Proof.
  assert (Claims.unknown_target Sample.lab "ghost") as Hunknown
    by (apply unknown_target_check; reflexivity).
  split; [| split].
  - apply (proj1 (unknown_target_reported_or_dropped 1 Sample.alice
                    (Sample.offer "ghost") "ghost" Sample.lab
                    eq_refl eq_refl eq_refl Hunknown)); reflexivity.
  - apply (proj1 (proj2 (unknown_target_reported_or_dropped 1 Sample.alice
                    (Sample.answer "ghost") "ghost" Sample.lab
                    eq_refl eq_refl eq_refl Hunknown))); reflexivity.
  - apply (proj2 (proj2 (unknown_target_reported_or_dropped 1 Sample.alice
                    (Sample.ice "ghost" (Some (Js.JObj "{candidate}"))) "ghost"
                    Sample.lab eq_refl eq_refl eq_refl Hunknown))); reflexivity.
Defined.

(** ** Redis commands, key by key *)

(** A command touches its own key only. *)
Lemma run_lookup_ne (c : Redis.command) (d : gmap string Redis.value) (k : string) :
  k ≠ Shape.key_of c → (Redis.run c d).1 !! k = d !! k.
Proof.
  intros Hne.
  destruct c as [k0 m|k0 m|k0|k0|k0|k0 fs|k0|k0|k0 v|k0 n]; simpl in *;
    try (destruct (d !! k0) as [[s|X|h]|]; simpl);
    unfold Redis.store_set; try case_decide;
    rewrite ?lookup_insert_ne, ?lookup_delete_ne by congruence; reflexivity.
Qed.

(** Commands that do not write leave the database alone. *)
Lemma run_readonly (c : Redis.command) (d : gmap string Redis.value) :
  Redis.writes c = false → (Redis.run c d).1 = d.
Proof.
  destruct c; simpl; try discriminate; intros _;
    destruct (d !! key) as [[s|X|h]|]; reflexivity.
Qed.

Lemma exec_readonly (cs : list Redis.command) (d : gmap string Redis.value) :
  forallb (λ c, negb (Redis.writes c)) cs = true → (Redis.exec cs d).1 = d.
Proof.
  revert d. induction cs as [|c cs IH]; intros d H; simpl in *; [reflexivity |].
  apply andb_true_iff in H as [Hc Hcs]. apply negb_true_iff in Hc.
  pose proof (run_readonly c d Hc) as Hrun.
  destruct (Redis.run c d) as [d1 r]. simpl in Hrun. subst d1.
  specialize (IH d Hcs). destruct (Redis.exec cs d) as [d2 rs]. exact IH.
Qed.

Lemma set_at_lookup_eq (d d' : gmap string Redis.value) (k : string) :
  d' !! k = d !! k → Redis.set_at d' k = Redis.set_at d k.
Proof. unfold Redis.set_at. intros ->. reflexivity. Qed.

(** The members of the set at [k] after [SADD k m]: the old ones and, unless
    the key holds another type, [m]. *)
Lemma set_at_sadd (d : gmap string Redis.value) (k m : string) :
  Redis.set_at (Redis.run (Redis.SADD k m) d).1 k
  = match d !! k with
    | None | Some (Redis.VSet _) => {[ m ]} ∪ Redis.set_at d k
    | Some _ => ∅
    end.
Proof.
  unfold Redis.set_at. simpl.
  destruct (d !! k) as [[s|X|h]|] eqn:E; simpl;
    rewrite ?lookup_insert_eq, ?E; try reflexivity.
  set_solver.
Qed.

Lemma set_at_srem (d : gmap string Redis.value) (k m : string) :
  Redis.set_at (Redis.run (Redis.SREM k m) d).1 k = Redis.set_at d k ∖ {[ m ]}.
Proof.
  unfold Redis.set_at. simpl.
  destruct (d !! k) as [[s|X|h]|] eqn:E; simpl; rewrite ?E; try set_solver.
  unfold Redis.store_set. destruct (decide (X ∖ {[m]} = ∅)) as [Hempty | Hne].
  - rewrite lookup_delete_eq. symmetry. exact Hempty.
  - rewrite lookup_insert_eq. reflexivity.
Qed.

Lemma set_at_del (d : gmap string Redis.value) (k : string) :
  Redis.set_at (Redis.run (Redis.DEL k) d).1 k = ∅.
Proof. unfold Redis.set_at. simpl. rewrite lookup_delete_eq. reflexivity. Qed.

Lemma set_at_hset (d : gmap string Redis.value) (k : string) fs :
  Redis.set_at (Redis.run (Redis.HSET k fs) d).1 k = Redis.set_at d k.
Proof.
  unfold Redis.set_at. simpl.
  destruct (d !! k) as [[s|X|h]|] eqn:E; simpl;
    rewrite ?lookup_insert_eq, ?E; reflexivity.
Qed.

Lemma set_at_run_ne (c : Redis.command) (d : gmap string Redis.value) (k : string) :
  k ≠ Shape.key_of c → Redis.set_at (Redis.run c d).1 k = Redis.set_at d k.
Proof. intros H. apply set_at_lookup_eq, run_lookup_ne, H. Qed.

(** ** Run equations of the state store *)

Local Arguments Redis.run : simpl never.
Local Arguments Redis.exec : simpl never.

Lemma multi_run (cs : list Redis.command) (s : StateStore.t) :
  StateStore.multi cs s
  = (StateStore.with_redis (Redis.exec cs (StateStore.redis s)).1 s,
     [Substrate (Redis.Multi cs)], Done (Redis.exec cs (StateStore.redis s)).2).
Proof.
  unfold StateStore.multi. destruct (Redis.exec cs (StateStore.redis s)). reflexivity.
Qed.

Lemma pipeline_run (cs : list Redis.command) (s : StateStore.t) :
  StateStore.pipeline cs s
  = (StateStore.with_redis (Redis.exec cs (StateStore.redis s)).1 s,
     [Substrate (Redis.Pipeline cs)], Done (Redis.exec cs (StateStore.redis s)).2).
Proof.
  unfold StateStore.pipeline. destruct (Redis.exec cs (StateStore.redis s)). reflexivity.
Qed.

Lemma call_run (c : Redis.command) (s : StateStore.t) :
  StateStore.call c s
  = (StateStore.with_redis (Redis.run c (StateStore.redis s)).1 s,
     [Substrate (Redis.Single c)],
     settle (Redis.run c (StateStore.redis s)).2).
Proof.
  unfold StateStore.call. destruct (Redis.run c (StateStore.redis s)). reflexivity.
Qed.

Lemma registerClient_run (now : Z) (i r ro : string) (s : StateStore.t) :
  Js.truthy i = true → Js.truthy r = true → Js.truthy ro = true →
  let cmds := Shape.registration (StateStore.serverId s) now i r ro in
  StateStore.registerClient now (Some i) (Some r) (Some ro) s
  = (StateStore.with_redis (Redis.exec cmds (StateStore.redis s)).1 s,
     [Substrate (Redis.Multi cmds)], Done tt).
Proof.
  intros Hi Hr Hro cmds. unfold StateStore.registerClient. simpl.
  rewrite Hi, Hr, Hro. simpl. rewrite bind_get.
  rewrite (bind_run _ _ _ _ _ _ (multi_run _ s)). reflexivity.
Qed.

(** [removeClient] for a client id and a room id: the first transaction,
    the count, and the collection of the room when nothing is left; the
    count throws when the member key holds something that is not a set. *)
Lemma removeClient_run (i r : string) (s : StateStore.t) :
  Js.truthy i = true → Js.truthy r = true →
  let count := Redis.SCARD (StateStore.roomMembersKey r) in
  let d1 := (Redis.exec (Shape.removal i r) (StateStore.redis s)).1 in
  let collected :=
    (StateStore.with_redis (Redis.exec (Shape.collection r) d1).1 s,
     [Substrate (Redis.Multi (Shape.removal i r)); Substrate (Redis.Single count);
      Substrate (Redis.Multi (Shape.collection r))], Done tt) in
  let kept (o : outcome unit) :=
    (StateStore.with_redis d1 s,
     [Substrate (Redis.Multi (Shape.removal i r)); Substrate (Redis.Single count)],
     o) in
  StateStore.removeClient (Some i) (Some r) s
  = match d1 !! StateStore.roomMembersKey r with
    | None => collected
    | Some (Redis.VSet X) => if decide (size X = 0) then collected else kept (Done tt)
    | Some _ => kept (Thrown ReplyError)
    end.
Proof.
  intros Hi Hr count d1 collected kept.
  unfold StateStore.removeClient. simpl. rewrite Hi, Hr. simpl.
  rewrite (bind_run _ _ _ _ _ _ (multi_run _ s)).
  fold (Shape.removal i r). fold d1.
  set (s1 := StateStore.with_redis d1 s).
  pose proof (call_run count s1) as Hcall.
  change (StateStore.redis s1) with d1 in Hcall.
  assert (Redis.run count d1
          = (d1, match d1 !! StateStore.roomMembersKey r with
                 | None => Redis.Int 0
                 | Some (Redis.VSet X) => Redis.Int (size X)
                 | Some _ => Redis.WrongType
                 end)) as Hrun.
  { unfold count, Redis.run.
    destruct (d1 !! StateStore.roomMembersKey r) as [[v|X|h]|]; reflexivity. }
  rewrite Hrun in Hcall. simpl in Hcall.
  destruct (d1 !! StateStore.roomMembersKey r) as [[v|X|h]|] eqn:E; simpl in Hcall.
  - rewrite (bind_thrown _ _ _ _ _ _ Hcall). reflexivity.
  - rewrite (bind_run _ _ _ _ _ _ Hcall).
    destruct (decide (size X = 0)) as [-> | Hne].
    + rewrite (bind_run _ _ _ _ _ _ (multi_run _ _)). reflexivity.
    + destruct (size X); [congruence | reflexivity].
  - rewrite (bind_thrown _ _ _ _ _ _ Hcall). reflexivity.
  - rewrite (bind_run _ _ _ _ _ _ Hcall).
    rewrite (bind_run _ _ _ _ _ _ (multi_run _ _)). reflexivity.
Qed.

Lemma lookups_readonly ids :
  forallb (λ c, negb (Redis.writes c)) (Shape.lookups ids) = true.
Proof. induction ids; [reflexivity | exact IHids]. Qed.

(** [listParticipants] never changes the store; it throws only when the
    member key holds something that is not a set. *)
Lemma listParticipants_run (r : string) (s : StateStore.t) :
  Js.truthy r = true →
  let key := StateStore.roomMembersKey r in
  StateStore.listParticipants (Some r) s
  = match StateStore.redis s !! key with
    | None => (s, [Substrate (Redis.Single (Redis.SMEMBERS key))], Done [])
    | Some (Redis.VSet X) =>
        if bool_decide (length (elements X) = 0)
        then (s, [Substrate (Redis.Single (Redis.SMEMBERS key))], Done [])
        else (s, [Substrate (Redis.Single (Redis.SMEMBERS key));
                  Substrate (Redis.Pipeline (Shape.lookups (elements X)))],
              Done (StateStore.participants_of
                      (Redis.exec (Shape.lookups (elements X)) (StateStore.redis s)).2))
    | Some _ =>
        (s, [Substrate (Redis.Single (Redis.SMEMBERS key))], Thrown ReplyError)
    end.
Proof.
  intros Hr key. unfold StateStore.listParticipants. simpl. rewrite Hr. simpl.
  fold key.
  pose proof (call_run (Redis.SMEMBERS key) s) as Hcall.
  unfold Redis.run in Hcall.
  destruct (StateStore.redis s !! key) as [[v|X|h]|] eqn:E; simpl in Hcall;
    rewrite with_redis_same in Hcall.
  - rewrite (bind_thrown _ _ _ _ _ _ Hcall). reflexivity.
  - rewrite (bind_run _ _ _ _ _ _ Hcall). simpl.
    destruct (bool_decide (length (elements X) = 0)); [reflexivity |].
    fold (Shape.lookups (elements X)).
    rewrite (bind_run _ _ _ _ _ _ (pipeline_run _ s)). simpl.
    rewrite (exec_readonly _ _ (lookups_readonly _)), with_redis_same.
    reflexivity.
  - rewrite (bind_thrown _ _ _ _ _ _ Hcall). reflexivity.
  - rewrite (bind_run _ _ _ _ _ _ Hcall). reflexivity.
Qed.

(** ** Run equations of the handlers *)

Lemma for_each_broadcast (w : Server.world) (sender : Ws) (room : list Ws)
    (m : outbound) :
  for_each room (λ ws, when (bool_decide (ws ≠ sender)) (Server.send ws m)) w
  = (w, Shape.broadcast_trace (Server.readyState w) sender room m, Done tt).
Proof.
  induction room as [|ws room IH]; [reflexivity |].
  simpl. unfold bind.
  destruct (bool_decide (ws ≠ sender)); simpl.
  - rewrite send_run, IH. reflexivity.
  - rewrite IH. reflexivity.
Qed.

Lemma broadcast_run (w : Server.world) (sender : Ws) (roomId : string)
    (m : outbound) :
  Server.broadcast sender roomId m w
  = (w, Shape.broadcast_trace (Server.readyState w) sender
          (default [] (Server.rooms w !! roomId)) m, Done tt).
Proof.
  unfold Server.broadcast. rewrite bind_get.
  destruct (Server.rooms w !! roomId) as [room|]; simpl; [| reflexivity].
  apply for_each_broadcast.
Qed.

(** A broadcast only sends, and never to the sender. *)
Lemma broadcast_trace_sends (rs : Ws → ReadyState) (sender : Ws) (room : list Ws)
    (m : outbound) :
  sent_to sender (Shape.broadcast_trace rs sender room m) = []
  ∧ requests (Shape.broadcast_trace rs sender room m) = []
  ∧ publications (Shape.broadcast_trace rs sender room m) = [].
Proof.
  induction room as [|ws room (IH1 & IH2 & IH3)]; [repeat split |].
  unfold Shape.broadcast_trace, sent_to, requests, publications in *. simpl.
  rewrite !omap_app, IH1, IH2, IH3.
  destruct (bool_decide_reflect (ws ≠ sender)) as [Hne | _]; simpl; [| repeat split].
  destruct (bool_decide (rs ws = OPEN)); simpl; [| repeat split].
  rewrite decide_False by exact Hne. repeat split.
Qed.

(** [handleLeave] for a client that is in a room: the in-memory room is
    updated and the peers are told, then the store forgets the client; the
    client's own fields are cleared only if the store did not throw. *)
Lemma handleLeave_run (ws : Ws) (client : Server.client) (r : string)
    (w : Server.world) :
  JsMap.get ws (Server.clients w) = Some client →
  Server.roomId client = Some r →
  Js.truthy r = true →
  let w1 := Server.with_rooms (Shape.rooms_without ws r) w in
  let told :=
    match Server.rooms w !! r with
    | Some room =>
        Shape.broadcast_trace (Server.readyState w) ws (JsSet.delete ws room)
          (PeerLeft (Server.id client))
    | None => []
    end in
  Server.handleLeave ws w
  = match StateStore.removeClient (Some (Server.id client)) (Some r)
            (Server.stateStore w) with
    | (s, t, Done _) =>
        (Server.with_clients (JsMap.mutate ws Shape.cleared) (Server.with_store s w1),
         told ++ t, Done tt)
    | (s, t, Thrown e) => (Server.with_store s w1, told ++ t, Thrown e)
    end.
Proof.
  intros Hclient Hroom Hr w1 told.
  unfold Server.handleLeave. rewrite bind_get, Hclient, Hroom. simpl. rewrite Hr. simpl.
  assert ((match Server.rooms w !! r with
           | Some room =>
               let room := JsSet.delete ws room in
               _ ← modify (Server.with_rooms (λ r0, <[r := room]> r0));
               _ ← Server.broadcast ws r (PeerLeft (Server.id client));
               when (bool_decide (length room = 0))
                    (modify (Server.with_rooms (λ r0, delete r r0)))
           | None => mret tt
           end) w = (w1, told, Done tt)) as Hmem.
  { unfold w1, told, Shape.rooms_without, Server.with_rooms. clear w1 told.
    destruct (Server.rooms w !! r) as [room|] eqn:E; simpl.
    - rewrite bind_modify.
      rewrite (bind_run _ _ _ _ _ _ (broadcast_run _ _ _ _)). simpl.
      rewrite lookup_insert_eq. simpl.
      destruct (bool_decide (length (JsSet.delete ws room) = 0)); simpl.
      + rewrite app_nil_r, delete_insert_eq. reflexivity.
      + rewrite app_nil_r. reflexivity.
    - destruct w. reflexivity. }
  rewrite (bind_run _ _ _ _ _ _ Hmem).
  unfold mbind, M_bind, bind, Server.on_store.
  change (Server.stateStore w1) with (Server.stateStore w).
  destruct (StateStore.removeClient (Some (Server.id client)) (Some r)
              (Server.stateStore w)) as [[s t] [[]|e]]; simpl.
  - rewrite app_nil_r. reflexivity.
  - reflexivity.
Qed.

Lemma on_store_run {A} (m : M StateStore.t A) (w : Server.world) :
  Server.on_store m w
  = (Server.with_store (state_of (m (Server.stateStore w))) w,
     trace_of (m (Server.stateStore w)), outcome_of (m (Server.stateStore w))).
Proof.
  unfold Server.on_store. destruct (m (Server.stateStore w)) as [[s t] o].
  reflexivity.
Qed.

Lemma handleJoin_run (ws : Ws) (client : Server.client) (message : Msg.t)
    (r ro : string) (w w1 : Server.world) (t1 : list effect) :
  JsMap.get ws (Server.clients w) = Some client →
  Js.truthy (Server.id client) = true →
  Msg.roomId message = Some r → Js.truthy r = true →
  Msg.role message = Some ro → Js.truthy ro = true →
  when (Js.present (Server.roomId client)) (Server.handleLeave ws) w
  = (w1, t1, Done tt) →
  let cmds := Shape.registration (StateStore.serverId (Server.stateStore w1))
                (Server.now w) (Server.id client) r ro in
  let s2 := StateStore.with_redis
              (Redis.exec cmds (StateStore.redis (Server.stateStore w1))).1
              (Server.stateStore w1) in
  let w2 := Server.with_store s2
              (Server.with_rooms (Shape.rooms_with ws r)
                 (Server.with_clients (JsMap.mutate ws (Shape.entered r ro)) w1)) in
  let room := JsSet.add ws (default [] (Server.rooms w1 !! r)) in
  Server.handleJoin ws message w
  = match StateStore.listParticipants (Some r) s2 with
    | (_, t3, Done ps) =>
        (w2,
         t1 ++ [Substrate (Redis.Multi cmds)] ++ t3
         ++ (if bool_decide (Server.readyState w1 ws = OPEN)
             then [WsSend ws (Joined r ro ps)] else [])
         ++ Shape.broadcast_trace (Server.readyState w1) ws room
              (PeerJoined (Server.id client) ro),
         Done tt)
    | (_, t3, Thrown e) =>
        (w2, t1 ++ [Substrate (Redis.Multi cmds)] ++ t3, Thrown e)
    end.
Proof.
  intros Hclient Hid Hroom Hr Hrole Hro Hleave cmds s2 w2 room.
  unfold Server.handleJoin. rewrite bind_get, Hroom, Hrole. simpl.
  rewrite Hr, Hro, Hclient. simpl.
  rewrite (bind_run _ _ _ _ _ _ Hleave).
  rewrite !bind_modify.
  set (w1' := Server.with_rooms _ (Server.with_rooms _ (Server.with_clients _ w1))).
  assert (w1' = Server.with_rooms (Shape.rooms_with ws r)
                  (Server.with_clients (JsMap.mutate ws (Shape.entered r ro)) w1))
    as Hw1'.
  { unfold w1', Server.with_rooms, Shape.rooms_with. simpl. f_equal.
    destruct (decide (is_Some (Server.rooms w1 !! r))) as [Hsome | Hnone].
    - reflexivity.
    - rewrite lookup_insert_eq, insert_insert_eq.
      apply eq_None_not_Some in Hnone. rewrite Hnone. reflexivity. }
  pose proof (on_store_run
                (StateStore.registerClient (Server.now w) (Some (Server.id client))
                   (Some r) (Some ro)) w1') as Hreg.
  change (Server.stateStore w1') with (Server.stateStore w1) in Hreg.
  rewrite (registerClient_run _ _ _ _ _ Hid Hr Hro) in Hreg.
  fold cmds in Hreg. unfold state_of, trace_of, outcome_of in Hreg. simpl in Hreg.
  fold s2 in Hreg.
  rewrite (bind_run _ _ _ _ _ _ Hreg).
  assert (Server.with_store s2 w1' = w2) as Hw2 by (rewrite Hw1'; reflexivity).
  rewrite Hw2.
  pose proof (on_store_run (StateStore.listParticipants (Some r)) w2) as Hlist.
  change (Server.stateStore w2) with s2 in Hlist.
  assert (state_of (StateStore.listParticipants (Some r) s2) = s2) as Hsame.
  { rewrite (listParticipants_run r s2 Hr).
    destruct (StateStore.redis s2 !! StateStore.roomMembersKey r) as [[v|X|h]|];
      try reflexivity.
    destruct (bool_decide (length (elements X) = 0)); reflexivity. }
  rewrite Hsame in Hlist.
  assert (Server.with_store s2 w2 = w2) as Hfix by reflexivity.
  rewrite Hfix in Hlist.
  destruct (StateStore.listParticipants (Some r) s2) as [[s3 t3] [ps|e]];
    unfold trace_of, outcome_of in Hlist; simpl in Hlist.
  - rewrite (bind_run _ _ _ _ _ _ Hlist).
    rewrite (bind_run _ _ _ _ _ _ (send_run _ _ _)).
    rewrite broadcast_run. simpl.
    unfold Shape.rooms_with at 1. rewrite lookup_insert_eq. simpl.
    reflexivity.
  - rewrite (bind_thrown _ _ _ _ _ _ Hlist). reflexivity.
Qed.

(** ** What the transactions do to the member sets *)

Lemma exec_cons (c : Redis.command) (cs : list Redis.command)
    (d : gmap string Redis.value) :
  (Redis.exec (c :: cs) d).1 = (Redis.exec cs (Redis.run c d).1).1.
Proof.
  unfold Redis.exec at 1. fold Redis.exec.
  destruct (Redis.run c d) as [d1 r]. cbn [fst].
  destruct (Redis.exec cs d1) as [d2 rs]. reflexivity.
Qed.

Lemma exec_nil (d : gmap string Redis.value) : (Redis.exec [] d).1 = d.
Proof. reflexivity. Qed.

Lemma removal_members (i r : string) (d : gmap string Redis.value)
    (r' x : string) :
  x ∈ Cluster.members (Redis.exec (Shape.removal i r) d).1 r' →
  x ∈ Cluster.members d r' ∧ ¬ (x = i ∧ r' = r).
Proof.
  unfold Shape.removal, Cluster.members. rewrite !exec_cons, exec_nil.
  destruct (decide (r' = r)) as [-> | Hne].
  - rewrite set_at_srem.
    rewrite set_at_run_ne by (simpl; intros H; symmetry in H; revert H; apply client_ne_members).
    set_solver.
  - rewrite !set_at_run_ne;
      [tauto
      | simpl; intros H; symmetry in H; revert H; apply client_ne_members
      | simpl; intros H; apply roomMembersKey_inj in H; contradiction].
Qed.

Lemma collection_members (r : string) (d : gmap string Redis.value)
    (r' x : string) :
  x ∈ Cluster.members (Redis.exec (Shape.collection r) d).1 r' →
  x ∈ Cluster.members d r'.
Proof.
  unfold Shape.collection, Cluster.members. rewrite !exec_cons, exec_nil.
  rewrite (set_at_run_ne (Redis.SREM _ _))
    by (simpl; intros H; symmetry in H; revert H; apply index_ne_members).
  destruct (decide (r' = r)) as [-> | Hne].
  - rewrite set_at_del. set_solver.
  - rewrite set_at_run_ne; [tauto |].
    simpl. intros H. apply roomMembersKey_inj in H. contradiction.
Qed.

Lemma registration_members (sid : string) (now : Z) (i r ro : string)
    (d : gmap string Redis.value) (r' x : string) :
  x ∈ Cluster.members (Redis.exec (Shape.registration sid now i r ro) d).1 r' →
  x ∈ Cluster.members d r' ∨ (x = i ∧ r' = r).
Proof.
  unfold Shape.registration, Cluster.members. rewrite !exec_cons, exec_nil.
  rewrite (set_at_run_ne (Redis.HSET _ _))
    by (simpl; intros H; symmetry in H; revert H; apply client_ne_members).
  destruct (decide (r' = r)) as [-> | Hne].
  - rewrite set_at_sadd.
    rewrite (run_lookup_ne (Redis.SADD StateStore.ROOM_INDEX_KEY r))
      by (simpl; intros H; symmetry in H; revert H; apply index_ne_members).
    rewrite (set_at_run_ne (Redis.SADD StateStore.ROOM_INDEX_KEY r))
      by (simpl; intros H; symmetry in H; revert H; apply index_ne_members).
    destruct (d !! StateStore.roomMembersKey r) as [[v|X|h]|]; set_solver.
  - rewrite !set_at_run_ne;
      [tauto
      | simpl; intros H; symmetry in H; revert H; apply index_ne_members
      | simpl; intros H; apply roomMembersKey_inj in H; contradiction].
Qed.

(** ** Leaving a room as its last member *)

Lemma JsMap_get_mutate {A} (ws ws' : Ws) (f : A → A) (m : list (Ws * A)) :
  JsMap.get ws' (JsMap.mutate ws f m)
  = if decide (ws' = ws) then f <$> JsMap.get ws m else JsMap.get ws' m.
Proof.
  induction m as [|[k v] m IH]; simpl.
  - destruct (decide (ws' = ws)); reflexivity.
  - destruct (decide (k = ws)) as [-> | Hk]; simpl.
    + destruct (decide (ws = ws')) as [<- | Hne].
      * rewrite decide_True by reflexivity. reflexivity.
      * rewrite decide_False by congruence. reflexivity.
    + destruct (decide (k = ws')) as [-> | Hk'].
      * rewrite decide_False by congruence. reflexivity.
      * exact IH.
Qed.

Lemma JsMap_get_delete {A} (ws ws' : Ws) (m : list (Ws * A)) :
  JsMap.get ws' (JsMap.delete ws m)
  = if decide (ws' = ws) then None else JsMap.get ws' m.
Proof.
  induction m as [|[k v] m IH]; simpl.
  - destruct (decide (ws' = ws)); reflexivity.
  - destruct (decide (k = ws)) as [-> | Hk]; simpl.
    + rewrite IH. destruct (decide (ws' = ws)) as [-> | Hne].
      * reflexivity.
      * rewrite decide_False by congruence. reflexivity.
    + destruct (decide (k = ws')) as [-> | Hk'].
      * rewrite decide_False by congruence. reflexivity.
      * exact IH.
Qed.

Lemma JsMap_get_set {A} (ws ws' : Ws) (v : A) (m : list (Ws * A)) :
  JsMap.get ws' (JsMap.set ws v m)
  = if decide (ws' = ws) then Some v else JsMap.get ws' m.
Proof.
  induction m as [|[k v0] m IH]; simpl.
  - destruct (decide (ws = ws')) as [-> | Hne].
    + rewrite decide_True by reflexivity. reflexivity.
    + rewrite decide_False by congruence. reflexivity.
  - destruct (decide (k = ws)) as [-> | Hk]; simpl.
    + destruct (decide (ws = ws')) as [<- | Hne].
      * rewrite decide_True by reflexivity. reflexivity.
      * rewrite decide_False by congruence. reflexivity.
    + destruct (decide (k = ws')) as [-> | Hk'].
      * rewrite decide_False by congruence. reflexivity.
      * exact IH.
Qed.

(** The removal of the last member of a room, in the store: the member key
    is gone and the room is out of the index. *)
Lemma removeClient_last_member (i r : string) (s : StateStore.t) :
  Js.truthy i = true → Js.truthy r = true →
  StateStore.redis s !! StateStore.roomMembersKey r = Some (Redis.VSet {[ i ]}) →
  ∃ s' t,
    StateStore.removeClient (Some i) (Some r) s = (s', t, Done tt)
    ∧ StateStore.redis s' !! StateStore.roomMembersKey r = None
    ∧ r ∉ Redis.set_at (StateStore.redis s') StateStore.ROOM_INDEX_KEY.
Proof.
  intros Hi Hr Hlast. rewrite (removeClient_run i r s Hi Hr).
  assert ((Redis.exec (Shape.removal i r) (StateStore.redis s)).1
          !! StateStore.roomMembersKey r = None) as Hgone.
  { unfold Shape.removal. rewrite !exec_cons, exec_nil.
    unfold Redis.run at 1.
    rewrite (run_lookup_ne (Redis.DEL _))
      by (simpl; intros H; symmetry in H; revert H; apply client_ne_members).
    rewrite Hlast. unfold Redis.store_set.
    rewrite decide_True by set_solver. apply lookup_delete_eq. }
  rewrite Hgone. eexists _, _. split; [reflexivity |]. simpl.
  unfold Shape.collection. rewrite !exec_cons, exec_nil. split.
  - rewrite run_lookup_ne by (simpl; apply not_eq_sym, index_ne_members).
    unfold Redis.run. apply lookup_delete_eq.
  - rewrite set_at_srem. set_solver.
Qed.

(** The node's own room map forgets a room as soon as its last local socket
    leaves, whatever the substrate holds and whether or not the store call
    throws. *)
Lemma empty_room_forgotten_locally (ws : Ws) (client : Server.client) (r : string)
    (w : Server.world) :
  JsMap.get ws (Server.clients w) = Some client →
  Server.roomId client = Some r →
  Js.truthy r = true →
  (∀ room, Server.rooms w !! r = Some room → JsSet.delete ws room = []) →
  Server.rooms (state_of (Server.handleLeave ws w)) !! r = None.
Proof.
  intros Hclient Hroom Hr Hmem.
  rewrite (handleLeave_run ws client r w Hclient Hroom Hr).
  assert (Shape.rooms_without ws r (Server.rooms w) !! r = None) as Hrooms.
  { unfold Shape.rooms_without.
    destruct (Server.rooms w !! r) as [room|] eqn:E; [| exact E].
    rewrite (Hmem room eq_refl). simpl. apply lookup_delete_eq. }
  destruct (StateStore.removeClient _ _ _) as [[s t] [[]|e]]; exact Hrooms.
Qed.

(** C4: when a client leaves, or disconnects, as the last member of its
    room (the member set in the substrate holds only its id, and the node's
    in-memory room only its socket), the room is collected: the member key
    no longer exists, the room is out of the room index, and the node's room
    map has no entry for it. *)
Theorem empty_room_collected (ws : Ws) (client : Server.client) (r : string)
    (w : Server.world) :
  JsMap.get ws (Server.clients w) = Some client →
  Js.truthy (Server.id client) = true →
  Server.roomId client = Some r →
  Js.truthy r = true →
  StateStore.redis (Server.stateStore w) !! StateStore.roomMembersKey r
  = Some (Redis.VSet {[ Server.id client ]}) →
  (∀ room, Server.rooms w !! r = Some room → JsSet.delete ws room = []) →
  (outcome_of (Server.handleLeave ws w) = Done tt
   ∧ Claims.collected r (state_of (Server.handleLeave ws w)))
  ∧ (outcome_of (Server.handleDisconnect ws w) = Done tt
     ∧ Claims.collected r (state_of (Server.handleDisconnect ws w))).
Proof.
  intros Hclient Hid Hroom Hr Hlast Hmem.
  destruct (removeClient_last_member _ _ _ Hid Hr Hlast) as (s' & t & Hrm & Hkey & Hidx).
  pose proof (handleLeave_run ws client r w Hclient Hroom Hr) as Hleave.
  simpl in Hleave. rewrite Hrm in Hleave.
  assert (Shape.rooms_without ws r (Server.rooms w) !! r = None) as Hrooms.
  { unfold Shape.rooms_without.
    destruct (Server.rooms w !! r) as [room|] eqn:E; [| exact E].
    rewrite (Hmem room eq_refl). simpl. apply lookup_delete_eq. }
  unfold Claims.collected. split.
  - rewrite Hleave. simpl. auto.
  - unfold Server.handleDisconnect. rewrite bind_get, Hclient.
    rewrite (bind_run _ _ _ _ _ _ Hleave). simpl. auto.
Qed.

Lemma empty_room_collected_witness :
  (outcome_of (Server.handleLeave 1 Sample.solo) = Done tt
   ∧ Claims.collected "lab" (state_of (Server.handleLeave 1 Sample.solo)))
  ∧ (outcome_of (Server.handleDisconnect 1 Sample.solo) = Done tt
     ∧ Claims.collected "lab" (state_of (Server.handleDisconnect 1 Sample.solo))).
Proof.
  apply (empty_room_collected 1 Sample.alice "lab" Sample.solo);
    try reflexivity.
  intros room Hroom. vm_compute in Hroom. injection Hroom as <-. reflexivity.
Defined.

(** ** The key schema is kept *)


Lemma well_typed_run (c : Redis.command) (d : gmap string Redis.value) :
  Claims.well_typed d →
  match c with
  | Redis.SADD k _ => ∀ i, k ≠ StateStore.clientKey i
  | Redis.HSET k _ => ∃ i, k = StateStore.clientKey i
  | Redis.SET _ _ => False
  | _ => True
  end →
  Claims.well_typed (Redis.run c d).1.
Proof.
  intros (Hidx & Hmem & Hcli) Hc.
  assert (∀ k, k ≠ Shape.key_of c → (Redis.run c d).1 !! k = d !! k) as Hother
    by (intros k Hk; apply run_lookup_ne, Hk).
  assert (∀ v, (Redis.run c d).1 !! Shape.key_of c = Some v →
               (Claims.is_set v ∧ (∀ i, Shape.key_of c ≠ StateStore.clientKey i))
               ∨ (Claims.is_hash v ∧ ∃ i, Shape.key_of c = StateStore.clientKey i)
               ∨ d !! Shape.key_of c = Some v) as Hown.
  { intros v. unfold Redis.run.
    destruct c as [k m|k m|k|k|k|k fs|k|k|k v0|k n]; simpl in *.
    - destruct (d !! k) as [[s|X|h]|] eqn:E; simpl;
        rewrite ?lookup_insert_eq, ?E; intros [= <-];
        first [ by (right; right) | by (left; split; [eexists | exact Hc]) ].
    - destruct (d !! k) as [[s|X|h]|] eqn:E; simpl; rewrite ?E;
        try (intros [= <-]; by (right; right)).
      unfold Redis.store_set. case_decide.
      + rewrite lookup_delete_eq. discriminate.
      + rewrite lookup_insert_eq. intros [= <-]. left. split; [eexists; reflexivity |].
        intros i ->. destruct (Hcli _ _ E) as [h Hh]. discriminate Hh.
    - destruct (d !! k) as [[s|X|h]|] eqn:E; simpl; rewrite ?E;
        intros [= <-]; by (right; right).
    - destruct (d !! k) as [[s|X|h]|] eqn:E; simpl; rewrite ?E;
        intros [= <-]; by (right; right).
    - rewrite lookup_delete_eq. discriminate.
    - destruct (d !! k) as [[s|X|h]|] eqn:E; simpl;
        rewrite ?lookup_insert_eq, ?E; intros [= <-];
        first [ by (right; right) | by (right; left; split; [eexists | exact Hc]) ].
    - destruct (d !! k) as [[s|X|h]|] eqn:E; simpl; rewrite ?E;
        intros [= <-]; by (right; right).
    - destruct (d !! k) as [[s|X|h]|] eqn:E; simpl; rewrite ?E;
        intros [= <-]; by (right; right).
    - contradiction.
    - intros Hv. by (right; right). }
  assert (∀ k v, (Redis.run c d).1 !! k = Some v →
                 (Claims.is_set v ∧ (∀ i, k ≠ StateStore.clientKey i))
                 ∨ (Claims.is_hash v ∧ ∃ i, k = StateStore.clientKey i)
                 ∨ d !! k = Some v) as Hall.
  { intros k v Hk. destruct (decide (k = Shape.key_of c)) as [-> | Hne].
    - apply Hown, Hk.
    - right; right. rewrite <- Hother by exact Hne. exact Hk. }
  repeat split.
  - intros v Hv. destruct (Hall _ _ Hv) as [[Hs _] | [[_ [i Hi]] | Hold]].
    + exact Hs.
    + symmetry in Hi. exfalso. exact (client_ne_index _ Hi).
    + exact (Hidx _ Hold).
  - intros r v Hv. destruct (Hall _ _ Hv) as [[Hs _] | [[_ [i Hi]] | Hold]].
    + exact Hs.
    + symmetry in Hi. exfalso. exact (client_ne_members _ _ Hi).
    + exact (Hmem _ _ Hold).
  - intros i v Hv. destruct (Hall _ _ Hv) as [[_ Hne] | [[Hh _] | Hold]].
    + exfalso. exact (Hne i eq_refl).
    + exact Hh.
    + exact (Hcli _ _ Hold).
Qed.

Lemma well_typed_removal (i r : string) (d : gmap string Redis.value) :
  Claims.well_typed d → Claims.well_typed (Redis.exec (Shape.removal i r) d).1.
Proof.
  intros H. unfold Shape.removal. rewrite !exec_cons, exec_nil.
  apply well_typed_run; [| exact I]. apply well_typed_run; [exact H | exact I].
Qed.

Lemma well_typed_collection (r : string) (d : gmap string Redis.value) :
  Claims.well_typed d → Claims.well_typed (Redis.exec (Shape.collection r) d).1.
Proof.
  intros H. unfold Shape.collection. rewrite !exec_cons, exec_nil.
  apply well_typed_run; [| exact I]. apply well_typed_run; [exact H | exact I].
Qed.

Lemma well_typed_registration sid now (i r ro : string)
    (d : gmap string Redis.value) :
  Claims.well_typed d →
  Claims.well_typed (Redis.exec (Shape.registration sid now i r ro) d).1.
Proof.
  intros H. unfold Shape.registration. rewrite !exec_cons, exec_nil.
  apply well_typed_run; [| eexists; reflexivity].
  apply well_typed_run; [| intros i' Heq; symmetry in Heq; exact (client_ne_members _ _ Heq)].
  apply well_typed_run; [exact H |].
  intros i' Heq. symmetry in Heq. exact (client_ne_index _ Heq).
Qed.

(** On a store that respects the schema, a removal does not throw and
    leaves such a store. *)
Lemma removeClient_typed (i r : string) (s : StateStore.t) :
  Js.truthy i = true → Js.truthy r = true →
  Claims.well_typed (StateStore.redis s) →
  ∃ s' t,
    StateStore.removeClient (Some i) (Some r) s = (s', t, Done tt)
    ∧ Claims.well_typed (StateStore.redis s')
    ∧ StateStore.serverId s' = StateStore.serverId s
    ∧ (∀ ws, sent_to ws t = []) ∧ publications t = [].
Proof.
  intros Hi Hr Htyped. rewrite (removeClient_run i r s Hi Hr).
  pose proof (well_typed_removal i r _ Htyped) as H1.
  pose proof (well_typed_collection r _ H1) as H2.
  destruct ((Redis.exec (Shape.removal i r) (StateStore.redis s)).1
            !! StateStore.roomMembersKey r) as [[v|X|h]|] eqn:E.
  - destruct H1 as (_ & Hmem & _). destruct (Hmem _ _ E) as [X HX]. discriminate HX.
  - destruct (decide (size X = 0)); eexists _, _;
      (split; [reflexivity |]); (split; [assumption |]); repeat split.
  - destruct H1 as (_ & Hmem & _). destruct (Hmem _ _ E) as [X HX]. discriminate HX.
  - eexists _, _; (split; [reflexivity |]); (split; [assumption |]); repeat split.
Qed.

(** The store after a registration, on a store that respects the schema:
    the client's hash carries the four fields, the client is a member of
    the room, and the room is in the index. *)
Lemma registration_facts sid now (i r ro : string) (d : gmap string Redis.value) :
  Claims.well_typed d →
  let d' := (Redis.exec (Shape.registration sid now i r ro) d).1 in
  Claims.field_at d' (StateStore.clientKey i) "id" = Some i
  ∧ Claims.field_at d' (StateStore.clientKey i) "roomId" = Some r
  ∧ Claims.field_at d' (StateStore.clientKey i) "role" = Some ro
  ∧ Claims.field_at d' (StateStore.clientKey i) "serverId" = Some sid
  ∧ i ∈ Redis.set_at d' (StateStore.roomMembersKey r)
  ∧ r ∈ Redis.set_at d' StateStore.ROOM_INDEX_KEY.
Proof.
  intros (Hidx & Hmem & Hcli) d'. unfold d', Shape.registration.
  rewrite !exec_cons, exec_nil.
  set (d1 := (Redis.run (Redis.SADD StateStore.ROOM_INDEX_KEY r) d).1).
  set (d2 := (Redis.run (Redis.SADD (StateStore.roomMembersKey r) i) d1).1).
  assert (∃ h, (Redis.run (Redis.HSET (StateStore.clientKey i)
                  [("id", i); ("roomId", r); ("role", ro); ("serverId", sid);
                   ("updatedAt", StateStore.timestamp now)]) d2).1
               !! StateStore.clientKey i
               = Some (Redis.VHash
                         (Redis.hset_fields
                            [("id", i); ("roomId", r); ("role", ro); ("serverId", sid);
                             ("updatedAt", StateStore.timestamp now)] h))) as [h Hh].
  { assert (d2 !! StateStore.clientKey i = d !! StateStore.clientKey i) as Hsame.
    { unfold d2, d1. rewrite !run_lookup_ne; [reflexivity | |].
      - simpl. apply client_ne_index.
      - simpl. apply client_ne_members. }
    unfold Redis.run. rewrite Hsame.
    destruct (d !! StateStore.clientKey i) as [v|] eqn:E.
    - destruct (Hcli _ _ E) as [h ->]. exists h. simpl. apply lookup_insert_eq.
    - exists ∅. simpl. apply lookup_insert_eq. }
  unfold Claims.field_at. rewrite Hh. unfold Redis.hset_fields. simpl.
  repeat split.
  - rewrite !lookup_insert_ne by discriminate. apply lookup_insert_eq.
  - rewrite !lookup_insert_ne by discriminate. apply lookup_insert_eq.
  - rewrite !lookup_insert_ne by discriminate. apply lookup_insert_eq.
  - rewrite !lookup_insert_ne by discriminate. apply lookup_insert_eq.
  - rewrite (set_at_run_ne (Redis.HSET _ _))
      by (simpl; apply not_eq_sym, client_ne_members).
    unfold d2. rewrite set_at_sadd.
    assert (d1 !! StateStore.roomMembersKey r = d !! StateStore.roomMembersKey r) as Hsame
      by (apply run_lookup_ne; simpl; apply not_eq_sym, index_ne_members).
    rewrite Hsame.
    destruct (d !! StateStore.roomMembersKey r) as [v|] eqn:E; [| set_solver].
    destruct (Hmem _ _ E) as [X ->]. set_solver.
  - rewrite (set_at_run_ne (Redis.HSET _ _)) by (simpl; apply not_eq_sym, client_ne_index).
    unfold d2. rewrite (set_at_run_ne (Redis.SADD (StateStore.roomMembersKey r) i))
      by (simpl; apply index_ne_members).
    unfold d1. rewrite set_at_sadd.
    destruct (d !! StateStore.ROOM_INDEX_KEY) as [v|] eqn:E; [| set_solver].
    destruct (Hidx _ eq_refl) as [X ->]. set_solver.
Qed.

(** ** Joining a room *)

Lemma sent_to_app ws t1 t2 : sent_to ws (t1 ++ t2) = sent_to ws t1 ++ sent_to ws t2.
Proof. apply omap_app. Qed.

Lemma requests_app t1 t2 : requests (t1 ++ t2) = requests t1 ++ requests t2.
Proof. apply omap_app. Qed.

(** The leave that precedes a join, on a store that respects the schema:
    it does not throw, keeps the schema, tells the client nothing and leaves
    the client connected under the same id. *)
Lemma leave_before_join (ws : Ws) (client : Server.client) (w : Server.world) :
  JsMap.get ws (Server.clients w) = Some client →
  Js.truthy (Server.id client) = true →
  Claims.well_typed (StateStore.redis (Server.stateStore w)) →
  ∃ w1 t1,
    when (Js.present (Server.roomId client)) (Server.handleLeave ws) w
    = (w1, t1, Done tt)
    ∧ Claims.well_typed (StateStore.redis (Server.stateStore w1))
    ∧ StateStore.serverId (Server.stateStore w1)
      = StateStore.serverId (Server.stateStore w)
    ∧ Server.readyState w1 = Server.readyState w
    ∧ sent_to ws t1 = []
    ∧ Server.id <$> JsMap.get ws (Server.clients w1) = Some (Server.id client).
Proof.
  intros Hclient Hid Htyped.
  destruct (Js.present (Server.roomId client)) eqn:Hpresent; simpl.
  - apply present_Some in Hpresent as (r & Hroom & Hr).
    rewrite (handleLeave_run ws client r w Hclient Hroom Hr).
    destruct (removeClient_typed _ _ _ Hid Hr Htyped) as (s' & t & -> & Hs' & Hsid & Hsent & _).
    eexists _, _. split; [reflexivity |].
    split; [exact Hs' |]. split; [exact Hsid |]. split; [reflexivity |]. split.
    + rewrite sent_to_app, Hsent, app_nil_r.
      destruct (Server.rooms w !! r); [apply broadcast_trace_sends | reflexivity].
    + cbn [Server.clients Server.with_clients Server.with_store Server.with_rooms].
      rewrite JsMap_get_mutate, decide_True by reflexivity. rewrite Hclient. reflexivity.
  - exists w, []. split; [reflexivity |]. split; [exact Htyped |].
    split; [reflexivity |]. split; [reflexivity |]. split; [reflexivity |].
    rewrite Hclient. reflexivity.
Qed.


Lemma schema_check_sound (d : gmap string Redis.value) :
  Claims.schema_check d = true → Claims.well_typed d.
Proof.
  intros Hcheck. unfold Claims.schema_check in Hcheck.
  rewrite forallb_forall in Hcheck.
  assert (∀ k v, d !! k = Some v →
                 if String.prefix "signaling:clients:" k
                 then Claims.is_hash v else Claims.is_set v) as Hall.
  { intros k v Hkv. apply elem_of_map_to_list, list_elem_of_In in Hkv.
    specialize (Hcheck _ Hkv). simpl in Hcheck.
    destruct (String.prefix "signaling:clients:" k); destruct v;
      try discriminate Hcheck; eexists; reflexivity. }
  repeat split.
  - intros v Hv. exact (Hall _ _ Hv).
  - intros r v Hv. exact (Hall _ _ Hv).
  - intros i v Hv. specialize (Hall _ _ Hv).
    assert (String.prefix "signaling:clients:" (StateStore.clientKey i) = true) as Hp.
    { unfold StateStore.clientKey. generalize i. intros [|a s]; vm_compute; reflexivity. }
    rewrite Hp in Hall. exact Hall.
Qed.


(** ** The persistence bridge *)

Section persistence.
Context (Doc : Type).
Context (encodeStateAsUpdate : Doc → list Byte.byte).
Context (applyUpdate : Doc → list Byte.byte → Doc).
Context (integrates : Doc → list Byte.byte → bool).
Context (toBase64 : list Byte.byte → string).
Context (fromBase64 : string → list Byte.byte).

Abbreviation world := (Persistence.world Doc).
Abbreviation ydoc := (Persistence.ydoc Doc).
Abbreviation docKey := (Persistence.docKey Doc).
Abbreviation content := (Persistence.content Doc).
Abbreviation listeners := (Persistence.listeners Doc).
Abbreviation docs := (Persistence.docs Doc).
Abbreviation saved := (Persistence.saved Doc encodeStateAsUpdate toBase64).
Abbreviation with_doc := (Persistence.with_doc Doc).
Abbreviation listener := (Persistence.listener Doc encodeStateAsUpdate toBase64).
Abbreviation transact :=
  (Persistence.transact Doc encodeStateAsUpdate applyUpdate integrates toBase64).
Abbreviation transactions :=
  (Persistence.transactions Doc encodeStateAsUpdate applyUpdate integrates toBase64).
Abbreviation bindState :=
  (Persistence.bindState Doc encodeStateAsUpdate applyUpdate integrates toBase64
     fromBase64).
Abbreviation immediate_writes :=
  (Persistence.immediate_writes Doc encodeStateAsUpdate applyUpdate integrates
     toBase64).

Lemma listener_run (docName : string) (h : nat) (y : ydoc) (w : world) :
  docs w !! h = Some y →
  listener docName h w
  = (saved w docName (content y),
     [Substrate (Redis.Single
                   (Redis.SET (docKey w docName)
                      (toBase64 (encodeStateAsUpdate (content y)))))],
     Done tt).
Proof.
  intros Hdoc. unfold Persistence.listener, Persistence.writeState.
  apply catch_done. rewrite bind_get, Hdoc.
  unfold mbind, M_bind, bind, Persistence.call. reflexivity.
Qed.

(** A transaction on a document that is bound once: the content changes
    and, if the update integrates, the full state is written at once. *)
Lemma transact_bound (docName : string) (h : nat) (y : ydoc) (u : list Byte.byte)
    (w : world) :
  docs w !! h = Some y →
  listeners y = [docName] →
  let d := applyUpdate (content y) u in
  transact h u w
  = if integrates (content y) u
    then (saved (with_doc h d [docName] w) docName d,
          [Substrate (Redis.Single
                        (Redis.SET (docKey w docName)
                           (toBase64 (encodeStateAsUpdate d))))],
          Done tt)
    else (with_doc h d [docName] w, [], Done tt).
Proof.
  intros Hdoc Hls d. unfold Persistence.transact.
  rewrite bind_get, Hdoc, bind_modify, Hls. fold d.
  fold (with_doc h d [docName] w).
  destruct (integrates (content y) u); simpl; [| reflexivity].
  unfold bind.
  rewrite (listener_run docName h {| Persistence.content := d;
                                     Persistence.listeners := [docName] |})
    by (simpl; apply lookup_insert_eq).
  reflexivity.
Qed.

Lemma writes_to_app key (t1 t2 : list (Z * effect)) :
  Persistence.writes_to key (t1 ++ t2)
  = Persistence.writes_to key t1 ++ Persistence.writes_to key t2.
Proof. apply omap_app. Qed.

Lemma transactions_bound (docName : string) (h : nat) (us : list (Z * list Byte.byte)) :
  ∀ (w : world) (y : ydoc),
    docs w !! h = Some y →
    listeners y = [docName] →
    Persistence.writes_to (docKey w docName) (transactions h us w).2
    = immediate_writes (content y) us.
Proof.
  induction us as [|[at_ms u] us IH]; intros w y Hdoc Hls; [reflexivity |].
  simpl. rewrite (transact_bound docName h y u w Hdoc Hls).
  set (d := applyUpdate (content y) u).
  destruct (integrates (content y) u).
  - specialize (IH (saved (with_doc h d [docName] w) docName d)
                  {| Persistence.content := d; Persistence.listeners := [docName] |}).
    destruct (transactions h us (saved (with_doc h d [docName] w) docName d))
      as [w2 trs].
    simpl in *. rewrite decide_True by reflexivity. f_equal.
    apply IH; [apply lookup_insert_eq | reflexivity].
  - specialize (IH (with_doc h d [docName] w)
                  {| Persistence.content := d; Persistence.listeners := [docName] |}).
    destruct (transactions h us (with_doc h d [docName] w)) as [w2 trs].
    simpl in *. apply IH; [apply lookup_insert_eq | reflexivity].
Qed.

Lemma bindState_run (docName : string) (h : nat) (y : ydoc) (w : world) :
  docs w !! h = Some y →
  listeners y = [] →
  let key := docKey w docName in
  (∀ payload,
     Persistence.redis Doc w !! key = Some (Redis.VString payload) →
     Js.truthy payload = true →
     bindState docName h w
     = (with_doc h (applyUpdate (content y) (fromBase64 payload)) [docName] w,
        [Substrate (Redis.Single (Redis.GET key))], Done tt))
  ∧ (Persistence.redis Doc w !! key = None →
     bindState docName h w
     = (with_doc h (content y) [docName] w,
        [Substrate (Redis.Single (Redis.GET key))], Done tt)).
Proof.
  intros Hdoc Hls key.
  assert (Persistence.with_redis Doc (Persistence.redis Doc w) w = w) as Hsame
    by (destruct w; reflexivity).
  split.
  - intros payload Hkey Hp.
    unfold Persistence.bindState, Persistence._loadState.
    assert (Persistence.call Doc (Redis.GET key) w
            = (w, [Substrate (Redis.Single (Redis.GET key))],
               Done (Redis.Bulk (Some payload)))) as Hcall.
    { unfold Persistence.call, Redis.run. rewrite Hkey, Hsame. reflexivity. }
    assert ((w0 ← get; payload0 ← Persistence.call Doc (Redis.GET (docKey w0 docName));
             match payload0 with
             | Redis.Bulk (Some payload1) =>
                 if negb (Js.truthy payload1) then mret tt
                 else transact h (fromBase64 payload1)
             | _ => mret tt
             end) w
            = (with_doc h (applyUpdate (content y) (fromBase64 payload)) [] w,
               [Substrate (Redis.Single (Redis.GET key))], Done tt)) as Hload.
    { rewrite bind_get. fold key. rewrite (bind_run _ _ _ _ _ _ Hcall).
      rewrite Hp. simpl. unfold Persistence.transact.
      rewrite bind_get, Hdoc, bind_modify, Hls.
      destruct (integrates (content y) (fromBase64 payload)); reflexivity. }
    rewrite (bind_run _ _ _ _ _ _ Hload). simpl.
    unfold modify, Persistence.with_doc, Persistence.with_docs. simpl.
    rewrite lookup_insert_eq, insert_insert_eq. reflexivity.
  - intros Hkey.
    unfold Persistence.bindState, Persistence._loadState.
    assert (Persistence.call Doc (Redis.GET key) w
            = (w, [Substrate (Redis.Single (Redis.GET key))],
               Done (Redis.Bulk None))) as Hcall.
    { unfold Persistence.call, Redis.run. rewrite Hkey, Hsame. reflexivity. }
    assert ((w0 ← get; payload0 ← Persistence.call Doc (Redis.GET (docKey w0 docName));
             match payload0 with
             | Redis.Bulk (Some payload1) =>
                 if negb (Js.truthy payload1) then mret tt
                 else transact h (fromBase64 payload1)
             | _ => mret tt
             end) w
            = (w, [Substrate (Redis.Single (Redis.GET key))], Done tt)) as Hload.
    { rewrite bind_get. fold key. rewrite (bind_run _ _ _ _ _ _ Hcall). reflexivity. }
    rewrite (bind_run _ _ _ _ _ _ Hload). simpl.
    unfold modify, Persistence.with_doc, Persistence.with_docs. simpl.
    rewrite Hdoc, Hls. reflexivity.
Qed.


End persistence.



(** ** The awareness bridge *)

Lemma prefix_app (p s : string) : String.prefix p (p +:+ s) = true.
Proof.
  induction p as [|a p IH]; [destruct s; reflexivity |].
  change (String.prefix (String a p) (String a (p +:+ s)) = true).
  simpl. destruct (Ascii.ascii_dec a a); [exact IH | congruence].
Qed.

Lemma slice_channel (p s : string) :
  Awareness.slice (String.length p + 1) (p +:+ ":" +:+ s) = s.
Proof.
  induction p as [|a p IH]; [reflexivity |].
  change (Awareness.slice (String.length p + 1) (p +:+ ":" +:+ s) = s).
  exact IH.
Qed.

Section awareness.
Context (States : Type).
Context (encodeAwarenessUpdate : States → list nat → list Byte.byte).
Context (applyAwarenessUpdate :
           States → list Byte.byte → option (States * Awareness.changes)).
Context (toBase64 : list Byte.byte → string).
Context (fromBase64 : string → list Byte.byte).

Abbreviation aworld := (Awareness.world States).
Abbreviation aobject := (Awareness.awareness States).
Abbreviation channelName := (Awareness.channelName States).
Abbreviation handler := (Awareness.handler States encodeAwarenessUpdate toBase64).
Abbreviation emit_update :=
  (Awareness.emit_update States encodeAwarenessUpdate toBase64).
Abbreviation change := (Awareness.change States encodeAwarenessUpdate toBase64).
Abbreviation handleMessage :=
  (Awareness.handleMessage States encodeAwarenessUpdate applyAwarenessUpdate
     toBase64 fromBase64).

Abbreviation changed := Awareness.changed.
Abbreviation with_states := (Awareness.with_states States).
Lemma handlers_own_origin (h : nat) (ch : Awareness.changes) (w : aworld)
    (hs : list string) :
  for_each hs (λ docName, handler docName h ch (Awareness.origin_marker States w)) w
  = (w, [], Done tt).
Proof.
  induction hs as [|docName hs IH]; [reflexivity |].
  simpl. unfold bind.
  assert (handler docName h ch (Awareness.origin_marker States w) w = (w, [], Done tt))
    as ->.
  { unfold Awareness.handler. rewrite bind_get.
    rewrite decide_True by reflexivity. reflexivity. }
  rewrite IH. reflexivity.
Qed.

Lemma handlers_other_origin (h : nat) (a : aobject) (ch : Awareness.changes)
    (o : Awareness.origin) (w : aworld) (hs : list string) :
  Awareness.heap States w !! h = Some a →
  o ≠ Awareness.origin_marker States w →
  changed ch ≠ [] →
  for_each hs (λ docName, handler docName h ch o) w
  = (w,
     map (λ docName,
            Publish (channelName w docName)
              (toBase64 (encodeAwarenessUpdate (Awareness.states States a) (changed ch))))
         hs,
     Done tt).
Proof.
  intros Ha Ho Hch. induction hs as [|docName hs IH]; [reflexivity |].
  simpl. unfold bind.
  assert (handler docName h ch o w
          = (w, [Publish (channelName w docName)
                   (toBase64 (encodeAwarenessUpdate (Awareness.states States a)
                                (changed ch)))],
             Done tt)) as ->.
  { unfold Awareness.handler. rewrite bind_get.
    rewrite decide_False by exact Ho.
    rewrite bool_decide_eq_false_2
      by (intros Hlen; apply nil_length_inv in Hlen; exact (Hch Hlen)).
    rewrite Ha. reflexivity. }
  rewrite IH. reflexivity.
Qed.

(** [watch] makes a document watched: it is bound to the awareness, the
    awareness carries the bridge's handler for it, and the node subscribes
    to the document's channel. *)
Lemma watch_binds (docName : string) (h : nat) (a : aobject) (w : aworld) :
  Js.truthy docName = true →
  Awareness.boundDocs States w !! docName = None →
  Awareness.heap States w !! h = Some a →
  let w' := state_of (Awareness.watch States docName (Some h) w) in
  Awareness.watch States docName (Some h) w
  = (w', [Subscribe (channelName w docName)], Done tt)
  ∧ Awareness.boundDocs States w' !! docName = Some h
  ∧ Awareness.heap States w' !! h
    = Some {| Awareness.states := Awareness.states States a;
              Awareness.handlers := Awareness.handlers States a ++ [docName] |}.
Proof.
  intros Hname Hfree Ha w'. unfold w', Awareness.watch.
  rewrite bind_get, Hname, Hfree. simpl.
  rewrite !bind_modify. unfold emit, state_of. simpl.
  rewrite Ha. split; [reflexivity |]. split; apply lookup_insert_eq.
Qed.

(** C8: for a watched document (bound to awareness [h], whose handlers are
    those the bridge registered), a change whose origin is the bridge's own
    marker publishes nothing; a change of any other origin with a non-empty
    changed set is encoded and published on the channel of every document
    name the awareness is watched under, this one included; and a non-empty
    message on the document's channel is applied to the awareness with the
    bridge's marker as origin, so that it changes the states and is not
    published back. *)
Theorem awareness_relay_filters_own_origin (docName : string) (h : nat)
    (a : aobject) (w : aworld) :
  Awareness.boundDocs States w !! docName = Some h →
  Awareness.heap States w !! h = Some a →
  docName ∈ Awareness.handlers States a →
  let marker := Awareness.origin_marker States w in
  (∀ s ch, change h s ch marker w = (with_states h s w, [], Done tt))
  ∧ (∀ s ch o,
       o ≠ marker → changed ch ≠ [] →
       change h s ch o w
       = (with_states h s w,
          map (λ name,
                 Publish (channelName w name)
                   (toBase64 (encodeAwarenessUpdate s (changed ch))))
              (Awareness.handlers States a),
          Done tt)
       ∧ Publish (channelName w docName)
           (toBase64 (encodeAwarenessUpdate s (changed ch)))
         ∈ trace_of (change h s ch o w))
  ∧ (∀ payload s ch,
       Js.truthy payload = true →
       applyAwarenessUpdate (Awareness.states States a) (fromBase64 payload)
       = Some (s, ch) →
       handleMessage (channelName w docName) payload w = change h s ch marker w).
Proof.
  intros Hbound Ha Hin marker.
  assert (∀ s, Awareness.heap States (with_states h s w) !! h
               = Some {| Awareness.states := s;
                         Awareness.handlers := Awareness.handlers States a |})
    as Hheap.
  { intros s. unfold Awareness.with_states, Awareness.with_heap. simpl.
    rewrite Ha. apply lookup_insert_eq. }
  assert (∀ s ch o,
            change h s ch o w
            = if negb (bool_decide (length (changed ch) = 0))
              then prepend [] (for_each (Awareness.handlers States a)
                                 (λ name, handler name h ch o) (with_states h s w))
              else (with_states h s w, [], Done tt)) as Hchange.
  { intros s ch o. unfold Awareness.change. rewrite bind_get, Ha, bind_modify.
    assert (Awareness.with_heap States
              (λ hp, <[h := {| Awareness.states := s;
                               Awareness.handlers := Awareness.handlers States a |}]> hp) w
            = with_states h s w) as ->.
    { unfold Awareness.with_states, Awareness.with_heap. rewrite Ha. reflexivity. }
    destruct (bool_decide (length (changed ch) = 0)); simpl; [reflexivity |].
    unfold Awareness.emit_update. rewrite bind_get, Hheap, prepend_nil. reflexivity. }
  split; [| split].
  - intros s ch. rewrite Hchange.
    destruct (bool_decide (length (changed ch) = 0)); simpl; [reflexivity |].
    rewrite prepend_nil.
    apply (handlers_own_origin h ch (with_states h s w)).
  - intros s ch o Ho Hch.
    assert (change h s ch o w
            = (with_states h s w,
               map (λ name,
                      Publish (channelName w name)
                        (toBase64 (encodeAwarenessUpdate s (changed ch))))
                   (Awareness.handlers States a),
               Done tt)) as Hrun.
    { rewrite Hchange.
      rewrite bool_decide_eq_false_2
        by (intros Hlen; apply nil_length_inv in Hlen; exact (Hch Hlen)).
      simpl. rewrite prepend_nil.
      apply (handlers_other_origin h _ ch o (with_states h s w) _ (Hheap s) Ho Hch). }
    split; [exact Hrun |].
    rewrite Hrun. unfold trace_of. simpl.
    apply (list_elem_of_fmap_2 (λ name,
             Publish (channelName w name)
               (toBase64 (encodeAwarenessUpdate s (changed ch))))).
    exact Hin.
  - intros payload s ch Hp Happly.
    unfold Awareness.handleMessage. rewrite bind_get.
    unfold Awareness.channelName at 1. rewrite prefix_app. simpl.
    unfold Awareness.channelName at 1. rewrite slice_channel, Hbound, Hp. simpl.
    rewrite Ha, Happly.
    fold marker.
    destruct (change h s ch marker w) as [[w' t] [[]|e]] eqn:E.
    + apply catch_done. exact E.
    + exfalso. rewrite Hchange in E.
      destruct (bool_decide (length (changed ch) = 0)); simpl in E; [discriminate E |].
      rewrite prepend_nil in E.
      unfold marker in E.
      rewrite (handlers_own_origin h ch (with_states h s w)) in E. discriminate E.
Qed.

End awareness.

Lemma awareness_relay_filters_own_origin_witness :
  Presence.change 0 [7; 9] Presence.arrival (Awareness.Symbol 0) Presence.watched
  = (Awareness.with_states Presence.States 0 [7; 9] Presence.watched, [], Done tt)
  ∧ Presence.change 0 [7; 9] Presence.arrival (Awareness.Value "local")
      Presence.watched
    = (Awareness.with_states Presence.States 0 [7; 9] Presence.watched,
       [Publish "collab:yjs:awareness:main.py"
          (Presence.toBase64 (Presence.encodeAwarenessUpdate [7; 9] [9]))],
       Done tt)
  ∧ Presence.handleMessage "collab:yjs:awareness:main.py"
      (Presence.toBase64 (Presence.encodeAwarenessUpdate [7] [9])) Presence.watched
    = Presence.change 0 [7; 9] Presence.arrival (Awareness.Symbol 0) Presence.watched.
Proof.
  pose proof (awareness_relay_filters_own_origin Presence.States
                Presence.encodeAwarenessUpdate Presence.applyAwarenessUpdate
                Presence.toBase64 Presence.fromBase64 "main.py" 0
                {| Awareness.states := [7]; Awareness.handlers := ["main.py"] |}
                Presence.watched eq_refl eq_refl ltac:(left)) as (Hown & Hother & Hin).
  split; [| split].
  - apply Hown.
  - apply (Hother [7; 9] Presence.arrival (Awareness.Value "local"));
      discriminate.
  - apply (Hin (Presence.toBase64 (Presence.encodeAwarenessUpdate [7] [9]))
             [7; 9] Presence.arrival); reflexivity.
Defined.

(** ** What the handlers do to rooms and clients *)

Lemma catch_state {S A} (m : M S A) (h : exn → M S A) (s : S) :
  (∀ e s1, state_of (h e s1) = s1) →
  state_of (catch m h s) = state_of (m s).
Proof.
  intros Hh. unfold catch. destruct (m s) as [[s1 t1] [a|e]]; [reflexivity |].
  specialize (Hh e s1). destruct (h e s1) as [[s2 t2] o]. exact Hh.
Qed.

Lemma send_state ws m (w : Server.world) : state_of (Server.send ws m w) = w.
Proof. rewrite send_run. reflexivity. Qed.

Lemma state_of_prepend {S A} t (r : S * list effect * outcome A) :
  state_of (prepend t r) = state_of r.
Proof. destruct r as [[s t'] o]. reflexivity. Qed.

Lemma outcome_of_prepend {S A} t (r : S * list effect * outcome A) :
  outcome_of (prepend t r) = outcome_of r.
Proof. destruct r as [[s t'] o]. reflexivity. Qed.

Lemma acted_refl (ws : Ws) (w : Server.world) :
  Room.local_ok w ws → Room.acted ws w w.
Proof.
  intros Hok. repeat split; auto.
  - intros cl' Hcl'. exists cl'. auto.
  - intros cl Hcl Hnone. rewrite Hcl in Hnone. discriminate Hnone.
  - apply Hok. assumption.
  - apply Hok. assumption.
  - apply Hok. assumption.
Qed.

(** A removal only removes, and it removes the client from the room. *)
Lemma removeClient_state (i r : string) (s : StateStore.t) :
  Js.truthy i = true → Js.truthy r = true →
  let s' := state_of (StateStore.removeClient (Some i) (Some r) s) in
  StateStore.serverId s' = StateStore.serverId s
  ∧ ∀ x r', x ∈ Cluster.members (StateStore.redis s') r' →
      x ∈ Cluster.members (StateStore.redis s) r' ∧ ¬ (x = i ∧ r' = r).
Proof.
  intros Hi Hr. simpl. rewrite (removeClient_run i r s Hi Hr).
  assert (∀ x r',
            x ∈ Cluster.members
                  (Redis.exec (Shape.collection r)
                     (Redis.exec (Shape.removal i r) (StateStore.redis s)).1).1 r' →
            x ∈ Cluster.members (StateStore.redis s) r' ∧ ¬ (x = i ∧ r' = r))
    as Hcollected.
  { intros x r' Hx. apply collection_members in Hx.
    apply removal_members in Hx. exact Hx. }
  destruct ((Redis.exec (Shape.removal i r) (StateStore.redis s)).1
            !! StateStore.roomMembersKey r) as [[v|X|h]|].
  - split; [reflexivity |]. intros x r'. apply removal_members.
  - destruct (decide (size X = 0)).
    + split; [reflexivity | exact Hcollected].
    + split; [reflexivity |]. intros x r'. apply removal_members.
  - split; [reflexivity |]. intros x r'. apply removal_members.
  - split; [reflexivity | exact Hcollected].
Qed.

(** After [handleLeave], whatever its outcome, the client is still
    connected under its id and its id is in no member set. *)
Lemma handleLeave_state (ws : Ws) (cl : Server.client) (w : Server.world) :
  JsMap.get ws (Server.clients w) = Some cl →
  Room.local_ok w ws →
  let w1 := state_of (Server.handleLeave ws w) in
  StateStore.serverId (Server.stateStore w1) = StateStore.serverId (Server.stateStore w)
  ∧ Server.readyState w1 = Server.readyState w
  ∧ (∀ ws', ws' ≠ ws →
       JsMap.get ws' (Server.clients w1) = JsMap.get ws' (Server.clients w))
  ∧ (∃ cl1, JsMap.get ws (Server.clients w1) = Some cl1
            ∧ Server.id cl1 = Server.id cl
            ∧ (Server.roomId cl1 = None ∨ Js.present (Server.roomId cl1) = true))
  ∧ (∀ x r, x ∈ Cluster.members (Room.db w1) r → x ∈ Cluster.members (Room.db w) r)
  ∧ (∀ r, Server.id cl ∉ Cluster.members (Room.db w1) r).
Proof.
  intros Hcl Hok. destruct (Hok cl Hcl) as (Hid & Hroom & Honly).
  destruct (Js.present (Server.roomId cl)) eqn:Hpresent.
  - apply present_Some in Hpresent as (r & Hr & Htruthy).
    simpl. rewrite (handleLeave_run ws cl r w Hcl Hr Htruthy).
    pose proof (removeClient_state (Server.id cl) r (Server.stateStore w) Hid Htruthy)
      as [Hsid Hmem].
    simpl in Hsid, Hmem.
    destruct (StateStore.removeClient (Some (Server.id cl)) (Some r) (Server.stateStore w))
      as [[s t] [[]|e]]; unfold state_of in *; simpl in *.
    + split; [exact Hsid |]. split; [reflexivity |]. split.
      { intros ws' Hne. rewrite JsMap_get_mutate, decide_False by exact Hne. reflexivity. }
      split.
      { exists (Shape.cleared cl). rewrite JsMap_get_mutate, decide_True by reflexivity.
        rewrite Hcl. repeat split. left. reflexivity. }
      split.
      { intros x r' Hx. apply (Hmem x r' Hx). }
      intros r' Hin. destruct (Hmem _ _ Hin) as [Hold Hne].
      apply Hne. split; [reflexivity |].
      specialize (Honly r' Hold). congruence.
    + split; [exact Hsid |]. split; [reflexivity |]. split; [reflexivity |]. split.
      { exists cl. split; [exact Hcl |]. split; [reflexivity |].
        right. rewrite Hr. exact Htruthy. }
      split.
      { intros x r' Hx. apply (Hmem x r' Hx). }
      intros r' Hin. destruct (Hmem _ _ Hin) as [Hold Hne].
      apply Hne. split; [reflexivity |].
      specialize (Honly r' Hold). congruence.
  - assert (Server.handleLeave ws w = (w, [], Done tt)) as ->.
    { unfold Server.handleLeave. rewrite bind_get, Hcl, Hpresent. reflexivity. }
    simpl. split; [reflexivity |]. split; [reflexivity |]. split; [reflexivity |].
    assert (Server.roomId cl = None) as Hnone
      by (destruct Hroom as [Hnone | Hp]; [exact Hnone | discriminate Hp]).
    split.
    { exists cl. split; [exact Hcl |]. split; [reflexivity |]. left. exact Hnone. }
    split; [auto |].
    intros r Hin. specialize (Honly r Hin). congruence.
Qed.

Lemma when_leave (ws : Ws) (cl : Server.client) (w : Server.world) :
  JsMap.get ws (Server.clients w) = Some cl →
  when (Js.present (Server.roomId cl)) (Server.handleLeave ws) w
  = Server.handleLeave ws w.
Proof.
  intros Hcl. destruct (Js.present (Server.roomId cl)) eqn:Hp; [reflexivity |].
  unfold Server.handleLeave. rewrite bind_get, Hcl, Hp. reflexivity.
Qed.

Lemma handleJoin_state (ws : Ws) (cl : Server.client) (message : Msg.t)
    (w : Server.world) :
  JsMap.get ws (Server.clients w) = Some cl →
  Room.local_ok w ws →
  Room.acted ws w (state_of (Server.handleJoin ws message w)).
Proof.
  intros Hcl Hok. destruct (Hok cl Hcl) as (Hid & Hroom & Honly).
  destruct (Js.present (Msg.roomId message)) eqn:Hr;
    [| rewrite (handleJoin_missing_run ws message w (or_introl Hr)), send_state;
       apply acted_refl, Hok].
  destruct (Js.present (Msg.role message)) eqn:Hro;
    [| rewrite (handleJoin_missing_run ws message w (or_intror Hro)), send_state;
       apply acted_refl, Hok].
  apply present_Some in Hr as (r & Hmr & Hr).
  apply present_Some in Hro as (ro & Hmro & Hro).
  pose proof (handleLeave_state ws cl w Hcl Hok)
    as (Hsid & Hrs & Hothers & (cl1 & Hcl1 & Hid1 & Hroom1) & Hshrink & Hnone).
  simpl in Hsid, Hrs, Hothers, Hcl1, Hshrink, Hnone.
  destruct (Server.handleLeave ws w) as [[w1 t1] [[]|e]] eqn:Hleave;
    unfold state_of in Hsid, Hrs, Hothers, Hcl1, Hshrink, Hnone;
    simpl in Hsid, Hrs, Hothers, Hcl1, Hshrink, Hnone.
  - rewrite <- (when_leave ws cl w Hcl) in Hleave.
    pose proof (handleJoin_run ws cl message r ro w w1 t1 Hcl Hid Hmr Hr Hmro Hro Hleave)
      as Hrun. simpl in Hrun.
    set (cmds := Shape.registration (StateStore.serverId (Server.stateStore w1))
                   (Server.now w) (Server.id cl) r ro) in *.
    set (d2 := (Redis.exec cmds (StateStore.redis (Server.stateStore w1))).1) in *.
    set (w2 := Server.with_store _ _) in Hrun.
    assert (state_of (Server.handleJoin ws message w) = w2) as ->.
    { rewrite Hrun. destruct (StateStore.listParticipants _ _) as [[s3 t3] [ps|e]];
        reflexivity. }
    assert (∀ x r', x ∈ Cluster.members (Room.db w2) r' →
                    x ∈ Cluster.members (Room.db w1) r' ∨ (x = Server.id cl ∧ r' = r))
      as Hreg.
    { intros x r' Hx. apply (registration_members _ _ _ _ _ _ _ _ Hx). }
    assert (JsMap.get ws (Server.clients w2) = Some (Shape.entered r ro cl1)) as Hcl2.
    { unfold w2. simpl. rewrite JsMap_get_mutate, decide_True by reflexivity.
      rewrite Hcl1. reflexivity. }
    unfold Room.acted. split; [exact Hsid |]. split.
    { intros ws' Hne. unfold w2. simpl.
      rewrite JsMap_get_mutate, decide_False by exact Hne. apply Hothers, Hne. }
    split.
    { intros cl' Hcl'. rewrite Hcl2 in Hcl'. injection Hcl' as <-.
      exists cl. split; [exact Hcl | exact Hid1]. }
    split.
    { intros x r' Hx. destruct (Hreg _ _ Hx) as [Hold | [-> _]].
      - left. apply Hshrink, Hold.
      - right. exists cl. split; [exact Hcl | reflexivity]. }
    split.
    { intros cl0 _ Hgone. rewrite Hcl2 in Hgone. discriminate Hgone. }
    intros cl' Hcl'. rewrite Hcl2 in Hcl'. injection Hcl' as <-. simpl.
    split; [rewrite Hid1; exact Hid |]. split; [right; exact Hr |].
    intros r' Hin. rewrite Hid1 in Hin.
    destruct (Hreg _ _ Hin) as [Hold | [_ ->]]; [| reflexivity].
    exfalso. exact (Hnone r' Hold).
  - assert (Server.handleJoin ws message w = (w1, t1, Thrown e)) as ->.
    { unfold Server.handleJoin. rewrite bind_get, Hmr, Hmro. simpl.
      rewrite Hr, Hro, Hcl. simpl.
      rewrite <- (when_leave ws cl w Hcl) in Hleave.
      apply (bind_thrown _ _ _ _ _ _ Hleave). }
    unfold state_of. simpl.
    unfold Room.acted. split; [exact Hsid |]. split; [exact Hothers |]. split.
    { intros cl' Hcl'. rewrite Hcl1 in Hcl'. injection Hcl' as <-.
      exists cl. split; [exact Hcl | exact Hid1]. }
    split; [intros x r' Hx; left; apply Hshrink, Hx |]. split.
    { intros cl0 _ Hgone. rewrite Hcl1 in Hgone. discriminate Hgone. }
    intros cl' Hcl'. rewrite Hcl1 in Hcl'. injection Hcl' as <-.
    split; [rewrite Hid1; exact Hid |]. split; [exact Hroom1 |].
    intros r' Hin. rewrite Hid1 in Hin. exfalso. exact (Hnone r' Hin).
Qed.

Lemma handleLeave_acted (ws : Ws) (cl : Server.client) (w : Server.world) :
  JsMap.get ws (Server.clients w) = Some cl →
  Room.local_ok w ws →
  Room.acted ws w (state_of (Server.handleLeave ws w)).
Proof.
  intros Hcl Hok. destruct (Hok cl Hcl) as (Hid & _).
  pose proof (handleLeave_state ws cl w Hcl Hok)
    as (Hsid & Hrs & Hothers & (cl1 & Hcl1 & Hid1 & Hroom1) & Hshrink & Hnone).
  simpl in *.
  unfold Room.acted. split; [exact Hsid |]. split; [exact Hothers |]. split.
  { intros cl' Hcl'. rewrite Hcl1 in Hcl'. injection Hcl' as <-.
    exists cl. split; [exact Hcl | exact Hid1]. }
  split; [intros x r' Hx; left; apply Hshrink, Hx |]. split.
  { intros cl0 _ Hgone. rewrite Hcl1 in Hgone. discriminate Hgone. }
  intros cl' Hcl'. rewrite Hcl1 in Hcl'. injection Hcl' as <-.
  split; [rewrite Hid1; exact Hid |]. split; [exact Hroom1 |].
  intros r' Hin. rewrite Hid1 in Hin. exfalso. exact (Hnone r' Hin).
Qed.

Lemma handleDisconnect_acted (ws : Ws) (w : Server.world) :
  Room.local_ok w ws →
  Room.acted ws w (state_of (Server.handleDisconnect ws w)).
Proof.
  intros Hok. unfold Server.handleDisconnect. rewrite bind_get.
  destruct (JsMap.get ws (Server.clients w)) as [cl|] eqn:Hcl;
    [| apply acted_refl, Hok].
  pose proof (handleLeave_acted ws cl w Hcl Hok) as Hacted.
  pose proof (handleLeave_state ws cl w Hcl Hok)
    as (Hsid & _ & Hothers & _ & Hshrink & Hnone).
  simpl in Hsid, Hothers, Hshrink, Hnone.
  destruct (Server.handleLeave ws w) as [[w1 t1] [[]|e]] eqn:Hleave;
    unfold state_of in Hacted, Hsid, Hothers, Hshrink, Hnone;
    simpl in Hacted, Hsid, Hothers, Hshrink, Hnone.
  - rewrite (bind_run _ _ _ _ _ _ Hleave). unfold modify, state_of. simpl.
    unfold Room.acted. split; [exact Hsid |]. split.
    { intros ws' Hne. simpl. rewrite JsMap_get_delete, decide_False by exact Hne.
      apply Hothers, Hne. }
    split.
    { intros cl'. simpl. rewrite JsMap_get_delete, decide_True by reflexivity.
      discriminate. }
    split; [intros x r' Hx; left; apply Hshrink, Hx |]. split.
    { intros cl0 Hcl0 _ r'. rewrite Hcl in Hcl0. injection Hcl0 as <-. apply Hnone. }
    intros cl'. simpl. rewrite JsMap_get_delete, decide_True by reflexivity.
    discriminate.
  - rewrite (bind_thrown _ _ _ _ _ _ Hleave). exact Hacted.
Qed.

Lemma getClient_state (t : option string) (s : StateStore.t) :
  state_of (StateStore.getClient t s) = s.
Proof.
  unfold StateStore.getClient. destruct (Js.present t); simpl; [| reflexivity].
  unfold mbind, M_bind, bind. rewrite call_run.
  rewrite (run_readonly (Redis.HGETALL _)) by reflexivity.
  rewrite with_redis_same.
  destruct (settle _) as [[]|e]; simpl; try reflexivity.
  destruct (negb (Js.present (h !! "id"))); reflexivity.
Qed.

Lemma relayOrSend_state (ws : Ws) (t : string) (m : outbound)
    (notifyMissing : option bool) (w : Server.world) :
  state_of (Server.relayOrSend ws t m notifyMissing w) = w.
Proof.
  unfold Server.relayOrSend. rewrite bind_get.
  destruct (Server.findClientById t (Server.clients w)) as [targetWs|].
  - rewrite (bind_run _ _ _ _ _ _ (send_run _ _ _)). reflexivity.
  - pose proof (getClient_state (Some t) (Server.stateStore w)) as Hget.
    pose proof (on_store_run (StateStore.getClient (Some t)) w) as Hrun.
    rewrite Hget, with_store_same in Hrun.
    destruct (outcome_of (StateStore.getClient (Some t) (Server.stateStore w)))
      as [remote|e] eqn:Ho.
    + rewrite (bind_run _ _ _ _ _ _ Hrun), state_of_prepend.
      destruct (negb (Js.present _)).
      * destruct (default true notifyMissing); simpl.
        -- rewrite (bind_run _ _ _ _ _ _ (send_run _ _ _)). reflexivity.
        -- reflexivity.
      * reflexivity.
    + rewrite (bind_thrown _ _ _ _ _ _ Hrun). reflexivity.
Qed.

Lemma relay_handlers_state (ws : Ws) (message : Msg.t) (w : Server.world) :
  state_of (Server.handleOffer ws message w) = w
  ∧ state_of (Server.handleAnswer ws message w) = w
  ∧ state_of (Server.handleIceCandidate ws message w) = w.
Proof.
  unfold Server.handleOffer, Server.handleAnswer, Server.handleIceCandidate.
  rewrite !bind_get. repeat split.
  - destruct (negb _ || negb _); [apply send_state |].
    destruct (JsMap.get ws (Server.clients w)), (Msg.offer message); try reflexivity.
    pose proof (relayOrSend_state ws (Js.value (Msg.targetId message))
                  (Offer (Server.id c) j) (Some true) w) as Hstate.
    unfold mbind, M_bind, bind.
    destruct (Server.relayOrSend _ _ _ _ w) as [[w1 t1] [b|e]]; exact Hstate.
  - destruct (negb _ || negb _); [apply send_state |].
    destruct (JsMap.get ws (Server.clients w)), (Msg.answer message); try reflexivity.
    pose proof (relayOrSend_state ws (Js.value (Msg.targetId message))
                  (Answer (Server.id c) j) (Some true) w) as Hstate.
    unfold mbind, M_bind, bind.
    destruct (Server.relayOrSend _ _ _ _ w) as [[w1 t1] [b|e]]; exact Hstate.
  - destruct (negb _ || negb _); [apply send_state |].
    destruct (JsMap.get ws (Server.clients w)), (Msg.candidate message); try reflexivity.
    pose proof (relayOrSend_state ws (Js.value (Msg.targetId message))
                  (IceCandidate (Server.id c) j) (Some false) w) as Hstate.
    unfold mbind, M_bind, bind.
    destruct (Server.relayOrSend _ _ _ _ w) as [[w1 t1] [b|e]]; exact Hstate.
Qed.

(** Every message handler acts for its socket. *)
Lemma on_message_acted (ws : Ws) (data : option Msg.t) (w : Server.world) :
  Room.local_ok w ws →
  Room.acted ws w (state_of (Server.on_message ws data w)).
Proof.
  intros Hok. unfold Server.on_message.
  rewrite catch_state by (intros e s1; apply send_state).
  destruct data as [message|]; [| apply acted_refl, Hok].
  unfold Server.handleMessage. rewrite bind_get.
  destruct (JsMap.get ws (Server.clients w)) as [cl|] eqn:Hcl;
    [| apply acted_refl, Hok].
  destruct (relay_handlers_state ws message w) as (Hoffer & Hanswer & Hice).
  assert (∀ k : M Server.world unit,
            k = Server.handleJoin ws message ∨ k = Server.handleOffer ws message
            ∨ k = Server.handleAnswer ws message
            ∨ k = Server.handleIceCandidate ws message
            ∨ k = Server.handleLeave ws
            ∨ (∃ m, k = Server.send ws m) →
            Room.acted ws w (state_of (k w))) as Hall.
  { intros k [-> | [-> | [-> | [-> | [-> | [m ->]]]]]].
    - apply (handleJoin_state ws cl message w Hcl Hok).
    - rewrite Hoffer. apply acted_refl, Hok.
    - rewrite Hanswer. apply acted_refl, Hok.
    - rewrite Hice. apply acted_refl, Hok.
    - apply (handleLeave_acted ws cl w Hcl Hok).
    - rewrite send_state. apply acted_refl, Hok. }
  apply Hall. simpl.
  repeat case_decide; auto 10.
  right; right; right; right; right. eexists. reflexivity.
Qed.

Lemma on_close_acted (ws : Ws) (w : Server.world) :
  Room.local_ok w ws →
  Room.acted ws w (state_of (Server.on_close ws w)).
Proof.
  intros Hok. unfold Server.on_close.
  rewrite catch_state by reflexivity. apply handleDisconnect_acted, Hok.
Qed.

(** A handler that keeps the clients and every member set acts for any
    socket. *)
Lemma acted_quiet (ws : Ws) (w w' : Server.world) :
  Server.clients w' = Server.clients w →
  StateStore.serverId (Server.stateStore w') = StateStore.serverId (Server.stateStore w) →
  (∀ r, Cluster.members (Room.db w') r = Cluster.members (Room.db w) r) →
  Room.local_ok w ws →
  Room.acted ws w w'.
Proof.
  intros Hclients Hsid Hmembers Hok. unfold Room.acted. rewrite Hclients.
  split; [exact Hsid |]. split; [reflexivity |]. split.
  { intros cl' Hcl'. exists cl'. auto. }
  split; [intros x r Hx; left; rewrite <- Hmembers; exact Hx |]. split.
  { intros cl Hcl Hnone. rewrite Hcl in Hnone. discriminate Hnone. }
  intros cl Hcl. unfold Room.local_ok in Hok. rewrite Hclients in Hcl.
  destruct (Hok cl Hcl) as (Hid & Hroom & Honly).
  split; [exact Hid |]. split; [exact Hroom |].
  intros r Hin. rewrite Hmembers in Hin. apply Honly, Hin.
Qed.

Lemma on_relay_acted (ws : Ws) (payload : option relayPayload) (w : Server.world) :
  Room.local_ok w ws →
  Room.acted ws w (state_of (Server.on_relay payload w)).
Proof.
  intros Hok. unfold Server.on_relay. rewrite catch_state by reflexivity.
  assert (state_of (Server.handleRelayDelivery payload w) = w) as ->;
    [| apply acted_refl, Hok].
  unfold Server.handleRelayDelivery. rewrite bind_get.
  destruct payload as [p|]; [| reflexivity].
  repeat (destruct (bool_decide _); [reflexivity |]).
  destruct (targetId p ≫= _), (message p); try reflexivity.
  apply send_state.
Qed.

Lemma setHeartbeat_state (now : Z) (connections rooms : nat) (s : StateStore.t) :
  let s' := state_of (StateStore.setHeartbeat now connections rooms s) in
  StateStore.serverId s' = StateStore.serverId s
  ∧ ∀ r, Cluster.members (StateStore.redis s') r = Cluster.members (StateStore.redis s) r.
Proof.
  simpl. unfold StateStore.setHeartbeat. rewrite bind_get.
  set (hset := Redis.HSET _ _).
  set (d1 := (Redis.run hset (StateStore.redis s)).1).
  assert (∀ r, Cluster.members d1 r = Cluster.members (StateStore.redis s) r) as H1.
  { intros r. unfold d1, Cluster.members. apply set_at_run_ne. simpl.
    apply not_eq_sym, server_ne_members. }
  pose proof (call_run hset s) as Hcall. fold d1 in Hcall.
  destruct (settle (Redis.run hset (StateStore.redis s)).2) as [r1|e].
  - rewrite (bind_run _ _ _ _ _ _ Hcall), state_of_prepend.
    pose proof (call_run (Redis.EXPIRE (StateStore.serverKey (StateStore.serverId s)) 30)
                  (StateStore.with_redis d1 s)) as Hexpire.
    change (Redis.run (Redis.EXPIRE (StateStore.serverKey (StateStore.serverId s)) 30)
              (StateStore.redis (StateStore.with_redis d1 s))).1
      with d1 in Hexpire.
    destruct (settle _) as [r2|e].
    + rewrite (bind_run _ _ _ _ _ _ Hexpire). split; [reflexivity | exact H1].
    + rewrite (bind_thrown _ _ _ _ _ _ Hexpire). split; [reflexivity | exact H1].
  - rewrite (bind_thrown _ _ _ _ _ _ Hcall). split; [reflexivity | exact H1].
Qed.

Lemma on_heartbeat_acted (ws : Ws) (w : Server.world) :
  Room.local_ok w ws →
  Room.acted ws w (state_of (Server.on_heartbeat w)).
Proof.
  intros Hok. unfold Server.on_heartbeat. rewrite bind_get.
  rewrite catch_state by reflexivity. rewrite on_store_run. unfold state_of at 1. simpl.
  destruct (setHeartbeat_state (Server.now w) (length (Server.clients w))
              (size (Server.rooms w)) (Server.stateStore w)) as [Hsid Hmembers].
  apply acted_quiet; [reflexivity | exact Hsid | exact Hmembers | exact Hok].
Qed.

(** ** One room per client *)

Lemma live_after (c : Cluster.t) (i : nat) (n : Cluster.node) (w' : Server.world)
    (j : nat) (ws : Ws) (cl : Server.client) :
  Cluster.nodes c !! i = Some n →
  Room.live (Room.after c i w') j ws cl ↔
  (j = i ∧ JsMap.get ws (Server.clients w') = Some cl)
  ∨ (j ≠ i ∧ Room.live c j ws cl).
Proof.
  intros Hn. unfold Room.live, Room.after. simpl.
  destruct (decide (j = i)) as [-> | Hne].
  - rewrite list_lookup_insert_eq by (apply lookup_lt_Some in Hn; exact Hn).
    split.
    + intros (n' & [= <-] & Hget). left. split; [reflexivity | exact Hget].
    + intros [[_ Hget] | [Hne _]]; [| contradiction].
      eexists. split; [reflexivity | exact Hget].
  - rewrite list_lookup_insert_ne by congruence. split.
    + intros H. right. split; [exact Hne | exact H].
    + intros [[Heq _] | [_ H]]; [contradiction | exact H].
Qed.

Lemma invariant_local (c : Cluster.t) (i : nat) (n : Cluster.node)
    (rs : Ws → ReadyState) (now : Z) (ws : Ws) :
  Room.invariant c →
  Cluster.nodes c !! i = Some n →
  Room.local_ok (Cluster.world_of c n rs now) ws.
Proof.
  intros Hinv Hn cl Hcl. simpl in Hcl.
  assert (Room.live c i ws cl) as Hlive by (exists n; split; assumption).
  split; [apply (Room.inv_issued c Hinv i ws cl Hlive) |].
  split; [apply (Room.inv_roomId c Hinv i ws cl Hlive) |].
  intros r Hin. apply (Room.inv_room c Hinv i ws cl r Hlive Hin).
Qed.

(** A handler that acted for a socket of node [i] keeps the invariant. *)
Lemma invariant_acted (c : Cluster.t) (i : nat) (n : Cluster.node)
    (rs : Ws → ReadyState) (now : Z) (ws : Ws) (w' : Server.world) :
  Room.invariant c →
  Cluster.nodes c !! i = Some n →
  Room.acted ws (Cluster.world_of c n rs now) w' →
  Room.invariant (Room.after c i w').
Proof.
  intros Hinv Hn (Hsid & Hothers & Hsame & Hmembers & Hgone & Hlocal).
  simpl in Hothers, Hsame, Hmembers, Hgone.
  assert (∀ j ws' cl', Room.live (Room.after c i w') j ws' cl' →
            (j = i ∧ ws' = ws ∧ JsMap.get ws (Server.clients w') = Some cl'
             ∧ ∃ cl, Room.live c i ws cl ∧ Server.id cl' = Server.id cl)
            ∨ ((j ≠ i ∨ ws' ≠ ws) ∧ Room.live c j ws' cl')) as Hlive.
  { intros j ws' cl' H. apply (live_after c i n w' j ws' cl' Hn) in H.
    destruct H as [[-> Hget] | [Hne H]]; [| right; split; [left; exact Hne | exact H]].
    destruct (decide (ws' = ws)) as [-> | Hws].
    - left. split; [reflexivity |]. split; [reflexivity |]. split; [exact Hget |].
      destruct (Hsame cl' Hget) as (cl & Hcl & Hid).
      exists cl. split; [exists n; split; assumption | exact Hid].
    - right. split; [right; exact Hws |]. exists n. split; [exact Hn |].
      rewrite <- (Hothers ws' Hws). exact Hget. }
  assert (∀ j ws' cl', Room.live (Room.after c i w') j ws' cl' →
            ∃ cl, Room.live c j ws' cl ∧ Server.id cl' = Server.id cl) as Horigin.
  { intros j ws' cl' H. destruct (Hlive _ _ _ H) as [(-> & -> & _ & cl & Hcl & Hid) | [_ Hold]].
    - exists cl. split; assumption.
    - exists cl'. split; [exact Hold | reflexivity]. }
  assert (∀ x r, x ∈ Cluster.members (Room.db w') r →
            x ∈ Cluster.members (Cluster.redis c) r
            ∨ ∃ cl, Room.live c i ws cl ∧ x = Server.id cl) as Hmem.
  { intros x r Hx. destruct (Hmembers x r Hx) as [Hold | (cl & Hcl & ->)].
    - left. exact Hold.
    - right. exists cl. split; [exists n; split; assumption | reflexivity]. }
  assert (∀ cl r, Room.live c i ws cl →
            Server.id cl ∈ Cluster.members (Room.db w') r →
            ∃ cl', JsMap.get ws (Server.clients w') = Some cl'
                   ∧ Server.id cl' = Server.id cl
                   ∧ Server.roomId cl' = Some r) as Hacting.
  { intros cl r (n' & Hn' & Hcl) Hin. rewrite Hn in Hn'. injection Hn' as <-.
    destruct (JsMap.get ws (Server.clients w')) as [cl'|] eqn:Hcl'.
    - destruct (Hsame cl' eq_refl) as (cl0 & Hcl0 & Hid).
      rewrite Hcl in Hcl0. injection Hcl0 as <-.
      exists cl'. split; [reflexivity |]. split; [exact Hid |].
      destruct (Hlocal cl' Hcl') as (_ & _ & Honly). apply Honly. rewrite Hid. exact Hin.
    - exfalso. exact (Hgone cl Hcl eq_refl r Hin). }
  split.
  - intros j ws' cl' H. destruct (Horigin _ _ _ H) as (cl & Hcl & ->).
    apply (Room.inv_issued c Hinv j ws' cl Hcl).
  - intros j1 ws1 cl1 j2 ws2 cl2 H1 H2 Hid.
    destruct (Horigin _ _ _ H1) as (cl1' & Hcl1 & Hid1).
    destruct (Horigin _ _ _ H2) as (cl2' & Hcl2 & Hid2).
    apply (Room.inv_unique c Hinv j1 ws1 cl1' j2 ws2 cl2' Hcl1 Hcl2). congruence.
  - intros j ws' cl' H. destruct (Hlive _ _ _ H) as [(-> & -> & Hget & _) | [_ Hold]].
    + apply (Hlocal cl' Hget).
    + apply (Room.inv_roomId c Hinv j ws' cl' Hold).
  - intros j ws' cl' r H Hin. simpl in Hin.
    destruct (Hlive _ _ _ H) as [(-> & -> & Hget & _) | [Hne Hold]].
    + destruct (Hlocal cl' Hget) as (_ & _ & Honly). apply Honly, Hin.
    + destruct (Hmem _ _ Hin) as [Hin' | (cl & Hcl & Hid)].
      * apply (Room.inv_room c Hinv j ws' cl' r Hold Hin').
      * exfalso.
        destruct (Room.inv_unique c Hinv j ws' cl' i ws cl Hold Hcl Hid) as [-> ->].
        destruct Hne as [Hne | Hne]; apply Hne; reflexivity.
  - intros r x Hx. simpl in Hx. destruct (Hmem _ _ Hx) as [Hold | (cl & Hcl & ->)].
    + apply (Room.inv_members c Hinv r x Hold).
    + apply (Room.inv_issued c Hinv i ws cl Hcl).
  - intros x r1 r2 H1 H2. simpl in H1, H2.
    destruct (Hmem _ _ H1) as [Hold1 | (cl & Hcl & ->)].
    + destruct (Hmem _ _ H2) as [Hold2 | (cl & Hcl & ->)].
      * apply (Room.inv_one_room c Hinv x r1 r2 Hold1 Hold2).
      * destruct (Hacting cl r1 Hcl H1) as (cl1 & Hget1 & _ & Hr1).
        destruct (Hacting cl r2 Hcl H2) as (cl2 & Hget2 & _ & Hr2).
        congruence.
    + destruct (Hacting cl r1 Hcl H1) as (cl1 & Hget1 & _ & Hr1).
      destruct (Hacting cl r2 Hcl H2) as (cl2 & Hget2 & _ & Hr2).
      congruence.
Qed.

(** A new connection keeps the invariant: its id was never issued, so it is
    in no member set. *)
Lemma invariant_connect (c : Cluster.t) (i : nat) (n : Cluster.node)
    (rs : Ws → ReadyState) (now : Z) (ws : Ws) (clientId : string) :
  Room.invariant c →
  Cluster.nodes c !! i = Some n →
  Cluster.admissible c n (Cluster.Connect ws clientId) →
  let w' := state_of (Server.on_connection ws clientId (Cluster.world_of c n rs now)) in
  Room.invariant
    {| Cluster.nodes := <[i := Cluster.node_of w']> (Cluster.nodes c);
       Cluster.redis := Room.db w';
       Cluster.issued := {[ clientId ]} ∪ Cluster.issued c |}.
Proof.
  intros Hinv Hn (Hnew & Hfresh & Htruthy) w'.
  assert (w' = Server.with_clients
                 (JsMap.set ws {| Server.id := clientId; Server.roomId := None;
                                  Server.role := None |})
                 (Cluster.world_of c n rs now)) as Hw'.
  { unfold w', Server.on_connection. rewrite bind_modify. apply send_state. }
  assert (∀ j ws' cl',
            Room.live {| Cluster.nodes := <[i := Cluster.node_of w']> (Cluster.nodes c);
                         Cluster.redis := Room.db w';
                         Cluster.issued := {[ clientId ]} ∪ Cluster.issued c |} j ws' cl' →
            (j = i ∧ ws' = ws
             ∧ cl' = {| Server.id := clientId; Server.roomId := None; Server.role := None |})
            ∨ Room.live c j ws' cl') as Hlive.
  { intros j ws' cl' H. apply (live_after c i n w' j ws' cl' Hn) in H.
    destruct H as [[-> Hget] | [_ H]]; [| right; exact H].
    rewrite Hw' in Hget. simpl in Hget. rewrite JsMap_get_set in Hget.
    destruct (decide (ws' = ws)) as [-> | Hne].
    - left. injection Hget as <-. auto.
    - right. exists n. split; assumption. }
  assert (Room.db w' = Cluster.redis c) as Hdb by (rewrite Hw'; reflexivity).
  split; simpl; rewrite ?Hdb.
  - intros j ws' cl' H. destruct (Hlive _ _ _ H) as [(_ & _ & ->) | Hold].
    + simpl. split; [set_solver | exact Htruthy].
    + destruct (Room.inv_issued c Hinv j ws' cl' Hold) as [Hin Ht].
      split; [set_solver | exact Ht].
  - intros j1 ws1 cl1 j2 ws2 cl2 H1 H2 Hid.
    destruct (Hlive _ _ _ H1) as [(-> & -> & ->) | Hold1];
      destruct (Hlive _ _ _ H2) as [(-> & -> & ->) | Hold2].
    + split; reflexivity.
    + exfalso. apply Hfresh. simpl in Hid. rewrite Hid.
      apply (Room.inv_issued c Hinv j2 ws2 cl2 Hold2).
    + exfalso. apply Hfresh. simpl in Hid. rewrite <- Hid.
      apply (Room.inv_issued c Hinv j1 ws1 cl1 Hold1).
    + apply (Room.inv_unique c Hinv j1 ws1 cl1 j2 ws2 cl2 Hold1 Hold2 Hid).
  - intros j ws' cl' H. destruct (Hlive _ _ _ H) as [(_ & _ & ->) | Hold].
    + left. reflexivity.
    + apply (Room.inv_roomId c Hinv j ws' cl' Hold).
  - intros j ws' cl' r H Hin. destruct (Hlive _ _ _ H) as [(_ & _ & ->) | Hold].
    + exfalso. apply Hfresh. apply (Room.inv_members c Hinv r clientId Hin).
    + apply (Room.inv_room c Hinv j ws' cl' r Hold Hin).
  - intros r x Hx. pose proof (Room.inv_members c Hinv r x Hx). set_solver.
  - apply (Room.inv_one_room c Hinv).
Qed.

Lemma members_delete_server (d : gmap string Redis.value) (serverId r : string) :
  Cluster.members (delete (StateStore.serverKey serverId) d) r = Cluster.members d r.
Proof.
  unfold Cluster.members. apply set_at_lookup_eq, lookup_delete_ne, server_ne_members.
Qed.

(** Losing clients and server keys keeps the invariant. *)
Lemma invariant_shrink (c c' : Cluster.t) :
  Room.invariant c →
  (∀ j ws cl, Room.live c' j ws cl → Room.live c j ws cl) →
  (∀ r, Cluster.members (Cluster.redis c') r = Cluster.members (Cluster.redis c) r) →
  Cluster.issued c' = Cluster.issued c →
  Room.invariant c'.
Proof.
  intros Hinv Hlive Hmembers Hissued. split.
  - intros j ws cl H. rewrite Hissued. apply (Room.inv_issued c Hinv j ws cl (Hlive _ _ _ H)).
  - intros j1 ws1 cl1 j2 ws2 cl2 H1 H2.
    apply (Room.inv_unique c Hinv j1 ws1 cl1 j2 ws2 cl2 (Hlive _ _ _ H1) (Hlive _ _ _ H2)).
  - intros j ws cl H. apply (Room.inv_roomId c Hinv j ws cl (Hlive _ _ _ H)).
  - intros j ws cl r H Hin. rewrite Hmembers in Hin.
    apply (Room.inv_room c Hinv j ws cl r (Hlive _ _ _ H) Hin).
  - intros r x Hx. rewrite Hmembers in Hx. rewrite Hissued.
    apply (Room.inv_members c Hinv r x Hx).
  - intros x r1 r2. rewrite !Hmembers. apply (Room.inv_one_room c Hinv).
Qed.

Lemma invariant_init (serverIds : list string) : Room.invariant (Cluster.init serverIds).
Proof.
  assert (∀ j ws cl, ¬ Room.live (Cluster.init serverIds) j ws cl) as Hnone.
  { intros j ws cl (n & Hn & Hget). unfold Cluster.init in Hn. simpl in Hn.
    rewrite list_lookup_fmap in Hn.
    destruct (serverIds !! j); [| discriminate Hn].
    injection Hn as <-. discriminate Hget. }
  split; try (intros; exfalso; eapply Hnone; eassumption).
  - intros r x Hx. unfold Cluster.members, Redis.set_at in Hx. simpl in Hx.
    rewrite lookup_empty in Hx. set_solver.
  - intros x r1 r2 Hx. unfold Cluster.members, Redis.set_at in Hx. simpl in Hx.
    rewrite lookup_empty in Hx. set_solver.
Qed.

Lemma invariant_step (c c' : Cluster.t) :
  Room.invariant c → Cluster.step c c' → Room.invariant c'.
Proof.
  intros Hinv Hstep.
  destruct Hstep as [c i n rs now e w' tr o Hn Hadm Hrun | c i n serverId Hn | c serverId].
  - assert (w' = state_of (Cluster.handler e (Cluster.world_of c n rs now))) as ->
      by (rewrite Hrun; reflexivity).
    destruct e as [ws clientId | ws data | ws | payload |]; simpl.
    + apply (invariant_connect c i n rs now ws clientId Hinv Hn Hadm).
    + apply (invariant_acted c i n rs now ws _ Hinv Hn).
      apply on_message_acted, (invariant_local c i n rs now ws Hinv Hn).
    + apply (invariant_acted c i n rs now ws _ Hinv Hn).
      apply on_close_acted, (invariant_local c i n rs now ws Hinv Hn).
    + apply (invariant_acted c i n rs now 0 _ Hinv Hn).
      apply on_relay_acted, (invariant_local c i n rs now 0 Hinv Hn).
    + apply (invariant_acted c i n rs now 0 _ Hinv Hn).
      apply on_heartbeat_acted, (invariant_local c i n rs now 0 Hinv Hn).
  - apply (invariant_shrink c); [exact Hinv | | | reflexivity].
    + intros j ws cl (n' & Hn' & Hget). simpl in Hn'.
      destruct (decide (j = i)) as [-> | Hne].
      * rewrite list_lookup_insert_eq in Hn' by (apply lookup_lt_Some in Hn; exact Hn).
        injection Hn' as <-. discriminate Hget.
      * rewrite list_lookup_insert_ne in Hn' by congruence.
        exists n'. split; assumption.
    + intros r. apply members_delete_server.
  - apply (invariant_shrink c); [exact Hinv | | | reflexivity].
    + intros j ws cl H. exact H.
    + intros r. apply members_delete_server.
Qed.

Lemma reachable_invariant (c : Cluster.t) :
  Cluster.reachable c → Room.invariant c.
Proof.
  induction 1 as [serverIds | c c' _ IH Hstep].
  - apply invariant_init.
  - apply (invariant_step c c' IH Hstep).
Qed.


Lemma step_run_event (c : Cluster.t) (i : nat) (n : Cluster.node)
    (rs : Ws → ReadyState) (now : Z) (e : Cluster.event) :
  Cluster.nodes c !! i = Some n →
  Cluster.admissible c n e →
  Cluster.step c (Room.run_event c i rs now e).
Proof.
  intros Hn Hadm. unfold Room.run_event. rewrite Hn.
  destruct (Cluster.handler e (Cluster.world_of c n rs now)) as [[w' tr] o] eqn:Hrun.
  apply (Cluster.step_handle c i n rs now e w' tr o Hn Hadm Hrun).
Qed.


(** ** The repository's own tests, on the model *)

Example registers_participants_and_lists_them :
  outcome_of (StoreTests.registers_and_lists (StoreTests.store "test-server"))
  = Done [ {| p_id := "client-1"; p_role := "viewer" |};
           {| p_id := "client-2"; p_role := "broadcaster" |} ].
Proof. vm_compute. reflexivity. Qed.

Example removes_participants_and_cleans_up_empty_rooms :
  StateStore.redis (state_of (StoreTests.removes_and_cleans (StoreTests.store "test")))
  = ∅.
Proof. vm_compute. reflexivity. Qed.

Example getClient_returns_stored_metadata :
  match outcome_of (StoreTests.returns_metadata (StoreTests.store "server-a")) with
  | Done (Some entry) =>
      entry !! "id" = Some "client-42" ∧ entry !! "roomId" = Some "room-42"
      ∧ entry !! "role" = Some "viewer" ∧ entry !! "serverId" = Some "server-a"
  | _ => False
  end.
Proof. vm_compute. repeat split. Qed.
(** * More of the code *)

(** ** stateStore.js: keys *)

Lemma serverKey_inj s1 s2 :
  StateStore.serverKey s1 = StateStore.serverKey s2 → s1 = s2.
Proof. unfold StateStore.serverKey. apply String.app_inj. Qed.

Lemma server_ne_client s i : StateStore.serverKey s ≠ StateStore.clientKey i.
Proof. intros H. discriminate H. Qed.

Lemma server_ne_index s : StateStore.serverKey s ≠ StateStore.ROOM_INDEX_KEY.
Proof. intros H. discriminate H. Qed.

(** X1: the keys of the store never collide. Each of [clientKey],
    [roomMembersKey] and [serverKey] maps distinct ids to distinct keys, no
    key of one family is a key of another, and none is the room index. *)
Theorem store_keys_never_collide :
  (∀ i j, StateStore.clientKey i = StateStore.clientKey j → i = j)
  ∧ (∀ r s, StateStore.roomMembersKey r = StateStore.roomMembersKey s → r = s)
  ∧ (∀ a b, StateStore.serverKey a = StateStore.serverKey b → a = b)
  ∧ (∀ i r, StateStore.clientKey i ≠ StateStore.roomMembersKey r)
  ∧ (∀ i s, StateStore.clientKey i ≠ StateStore.serverKey s)
  ∧ (∀ r s, StateStore.roomMembersKey r ≠ StateStore.serverKey s)
  ∧ (∀ i, StateStore.clientKey i ≠ StateStore.ROOM_INDEX_KEY)
  ∧ (∀ r, StateStore.roomMembersKey r ≠ StateStore.ROOM_INDEX_KEY)
  ∧ (∀ s, StateStore.serverKey s ≠ StateStore.ROOM_INDEX_KEY).
Proof.
  split; [exact clientKey_inj |]. split; [exact roomMembersKey_inj |].
  split; [exact serverKey_inj |]. split; [exact client_ne_members |].
  split; [intros i s; apply not_eq_sym, server_ne_client |].
  split; [intros r s; apply not_eq_sym, server_ne_members |].
  split; [exact client_ne_index |].
  split; [intros r; apply not_eq_sym, index_ne_members |].
  exact server_ne_index.
Qed.
(** ** stateStore.js: registering, finding, listing *)

Lemma registerClient_run_any (now : Z) (i r : string) (role : option string)
    (s : StateStore.t) :
  Js.truthy i = true → Js.truthy r = true →
  let cmds := Shape.registration (StateStore.serverId s) now i r
                (Js.or_else role EmptyString) in
  StateStore.registerClient now (Some i) (Some r) role s
  = (StateStore.with_redis (Redis.exec cmds (StateStore.redis s)).1 s,
     [Substrate (Redis.Multi cmds)], Done tt).
Proof.
  intros Hi Hr cmds. unfold StateStore.registerClient. simpl.
  rewrite Hi, Hr. simpl. rewrite bind_get.
  rewrite (bind_run _ _ _ _ _ _ (multi_run _ s)). reflexivity.
Qed.

(** The client hash after a registration, when the client key held a hash
    or nothing before. *)
Lemma registration_hash sid now (i r ro : string) (d : gmap string Redis.value) :
  (∀ v, d !! StateStore.clientKey i = Some v → Claims.is_hash v) →
  ∃ h,
    (Redis.exec (Shape.registration sid now i r ro) d).1 !! StateStore.clientKey i
    = Some (Redis.VHash h)
    ∧ h !! "id" = Some i ∧ h !! "roomId" = Some r ∧ h !! "role" = Some ro
    ∧ h !! "serverId" = Some sid
    ∧ h !! "updatedAt" = Some (StateStore.timestamp now).
Proof.
  intros Hcli. unfold Shape.registration. rewrite !exec_cons, exec_nil.
  set (d1 := (Redis.run (Redis.SADD StateStore.ROOM_INDEX_KEY r) d).1).
  set (d2 := (Redis.run (Redis.SADD (StateStore.roomMembersKey r) i) d1).1).
  assert (d2 !! StateStore.clientKey i = d !! StateStore.clientKey i) as Hsame.
  { unfold d2, d1. rewrite !run_lookup_ne; [reflexivity | |].
    - simpl. apply client_ne_index.
    - simpl. apply client_ne_members. }
  unfold Redis.run. rewrite Hsame.
  destruct (d !! StateStore.clientKey i) as [v|] eqn:E.
  - destruct (Hcli _ eq_refl) as [h ->]. eexists. simpl.
    split; [apply lookup_insert_eq |]. unfold Redis.hset_fields. simpl.
    repeat split; rewrite ?lookup_insert_ne by discriminate; apply lookup_insert_eq.
  - eexists. simpl.
    split; [apply lookup_insert_eq |]. unfold Redis.hset_fields. simpl.
    repeat split; rewrite ?lookup_insert_ne by discriminate; apply lookup_insert_eq.
Qed.

Lemma getClient_hash (i : string) (h : gmap string string) (s : StateStore.t) :
  Js.truthy i = true →
  StateStore.redis s !! StateStore.clientKey i = Some (Redis.VHash h) →
  StateStore.getClient (Some i) s
  = (s, [Substrate (Redis.Single (Redis.HGETALL (StateStore.clientKey i)))],
     Done (if Js.present (h !! "id") then Some h else None)).
Proof.
  intros Hi Hh. unfold StateStore.getClient. simpl. rewrite Hi. simpl.
  pose proof (call_run (Redis.HGETALL (StateStore.clientKey i)) s) as Hcall.
  unfold Redis.run in Hcall. rewrite Hh in Hcall. simpl in Hcall.
  rewrite with_redis_same in Hcall.
  rewrite (bind_run _ _ _ _ _ _ Hcall). simpl.
  destruct (Js.present (h !! "id")); reflexivity.
Qed.

(** X2: a client that was registered is found. After
    [registerClient({id, roomId, role})] with a non-empty id and room id, on
    a store whose client key holds a hash or nothing, [getClient(id)]
    returns the record with that id and room, the role ([''] when no role
    was given), the id of the registering server and the time of the
    registration. *)
Theorem registered_client_is_found (now : Z) (i r : string) (role : option string)
    (s : StateStore.t) :
  Js.truthy i = true → Js.truthy r = true →
  (∀ v, StateStore.redis s !! StateStore.clientKey i = Some v → Claims.is_hash v) →
  ∃ data,
    outcome_of ((_ ← StateStore.registerClient now (Some i) (Some r) role;
                 StateStore.getClient (Some i)) s) = Done (Some data)
    ∧ data !! "id" = Some i
    ∧ data !! "roomId" = Some r
    ∧ data !! "role" = Some (Js.or_else role EmptyString)
    ∧ data !! "serverId" = Some (StateStore.serverId s)
    ∧ data !! "updatedAt" = Some (StateStore.timestamp now).
Proof.
  intros Hi Hr Hcli.
  rewrite (bind_run _ _ _ _ _ _ (registerClient_run_any now i r role s Hi Hr)).
  destruct (registration_hash (StateStore.serverId s) now i r
              (Js.or_else role EmptyString) _ Hcli)
    as (h & Hh & Fid & Froom & Frole & Fsid & Fat).
  rewrite (getClient_hash i h (StateStore.with_redis _ s) Hi Hh).
  exists h. rewrite Fid. simpl. rewrite Hi.
  repeat split; assumption.
Qed.

Lemma registered_client_is_found_witness :
  ∃ data,
    outcome_of ((_ ← StateStore.registerClient 7 (Some "client-42") (Some "room-42") None;
                 StateStore.getClient (Some "client-42")) (StoreTests.store "server-a"))
    = Done (Some data)
    ∧ data !! "id" = Some "client-42"
    ∧ data !! "roomId" = Some "room-42"
    ∧ data !! "role" = Some EmptyString
    ∧ data !! "serverId" = Some "server-a"
    ∧ data !! "updatedAt" = Some "7".
Proof.
  apply (registered_client_is_found 7 "client-42" "room-42" None
           (StoreTests.store "server-a")).
  - reflexivity.
  - reflexivity.
  - intros v Hv. vm_compute in Hv. discriminate Hv.
Defined.
Lemma exec_lookups (ids : list string) (d : gmap string Redis.value) :
  (Redis.exec (Shape.lookups ids) d).2
  = map (λ id, (Redis.run (Redis.HGETALL (StateStore.clientKey id)) d).2) ids.
Proof.
  induction ids as [|id ids IH]; [reflexivity |].
  change (Shape.lookups (id :: ids))
    with (Redis.HGETALL (StateStore.clientKey id) :: Shape.lookups ids).
  unfold Redis.exec at 1. fold Redis.exec.
  pose proof (run_readonly (Redis.HGETALL (StateStore.clientKey id)) d eq_refl) as Hro.
  destruct (Redis.run (Redis.HGETALL (StateStore.clientKey id)) d) as [d1 rep] eqn:E.
  simpl in Hro. subst d1.
  destruct (Redis.exec (Shape.lookups ids) d) as [d2 rs] eqn:E2.
  simpl in IH. simpl. rewrite IH, E. reflexivity.
Qed.

(** What the loop of [listParticipants] keeps of the reply for member [m]. *)
Lemma participant_of_reply (d : gmap string Redis.value) (m : string) (p : participant) :
  StateStore.participants_of
    [(Redis.run (Redis.HGETALL (StateStore.clientKey m)) d).2] = [p] ↔
  ∃ h i,
    d !! StateStore.clientKey m = Some (Redis.VHash h)
    ∧ h !! "id" = Some i ∧ Js.truthy i = true
    ∧ p = {| p_id := i; p_role := Js.or_else (h !! "role") "viewer" |}.
Proof.
  unfold Redis.run, StateStore.participants_of.
  destruct (d !! StateStore.clientKey m) as [[v|X|h]|] eqn:E; simpl.
  - split; [discriminate | intros (h & i & [=] & _)].
  - split; [discriminate | intros (h & i & [=] & _)].
  - destruct (h !! "id") as [i|] eqn:Ei; simpl.
    + destruct (Js.truthy i) eqn:Ht; simpl.
      * split.
        -- intros [= <-]. exists h, i. auto.
        -- intros (h' & i' & [= <-] & Hi' & _ & ->).
           rewrite Ei in Hi'. injection Hi' as <-. reflexivity.
      * split; [discriminate |].
        intros (h' & i' & [= <-] & Hi' & Ht' & _).
        rewrite Ei in Hi'. injection Hi' as <-. congruence.
    + split; [discriminate |].
      intros (h' & i' & [= <-] & Hi' & _). rewrite Ei in Hi'. discriminate Hi'.
  - rewrite lookup_empty. simpl.
    split; [discriminate | intros (h & i & [=] & _)].
Qed.

Lemma participants_of_lookups (d : gmap string Redis.value) (ids : list string)
    (p : participant) :
  p ∈ StateStore.participants_of (Redis.exec (Shape.lookups ids) d).2 ↔
  ∃ m h i,
    m ∈ ids
    ∧ d !! StateStore.clientKey m = Some (Redis.VHash h)
    ∧ h !! "id" = Some i ∧ Js.truthy i = true
    ∧ p = {| p_id := i; p_role := Js.or_else (h !! "role") "viewer" |}.
Proof.
  rewrite exec_lookups. induction ids as [|m ids IH].
  - simpl. split; [intros H; inversion H | intros (m & h & i & H & _); inversion H].
  - change (map _ (m :: ids))
      with ([(Redis.run (Redis.HGETALL (StateStore.clientKey m)) d).2]
            ++ map (λ id, (Redis.run (Redis.HGETALL (StateStore.clientKey id)) d).2) ids).
    unfold StateStore.participants_of at 1. rewrite omap_app.
    fold (StateStore.participants_of
            [(Redis.run (Redis.HGETALL (StateStore.clientKey m)) d).2]).
    fold (StateStore.participants_of
            (map (λ id, (Redis.run (Redis.HGETALL (StateStore.clientKey id)) d).2) ids)).
    rewrite elem_of_app, IH. split.
    + intros [Hhead | (m' & h & i & Hm' & Hrest)].
      * assert (StateStore.participants_of
                  [(Redis.run (Redis.HGETALL (StateStore.clientKey m)) d).2] = [p])
          as Hp.
        { unfold StateStore.participants_of in *. simpl in *.
          destruct (match (Redis.run (Redis.HGETALL (StateStore.clientKey m)) d).2 with
                    | Redis.Fields data => _
                    | _ => None
                    end) as [q|]; simpl in *.
          - apply list_elem_of_singleton in Hhead. subst q. reflexivity.
          - inversion Hhead. }
        apply participant_of_reply in Hp as (h & i & Hh & Hi & Ht & ->).
        exists m, h, i. split; [left |]. auto.
      * exists m', h, i. split; [right; exact Hm' | exact Hrest].
    + intros (m' & h & i & Hm' & Hh & Hi & Ht & ->).
      apply elem_of_cons in Hm' as [-> | Hm'].
      * left.
        assert (StateStore.participants_of
                  [(Redis.run (Redis.HGETALL (StateStore.clientKey m)) d).2]
                = [{| p_id := i; p_role := Js.or_else (h !! "role") "viewer" |}])
          as -> by (apply participant_of_reply; exists h, i; auto).
        left.
      * right. exists m', h, i. auto.
Qed.

Lemma participants_of_length (rs : list Redis.reply) :
  (length (StateStore.participants_of rs) ≤ length rs)%nat.
Proof.
  induction rs as [|r rs IH]; [reflexivity |].
  change (r :: rs) with ([r] ++ rs).
  unfold StateStore.participants_of in *. rewrite omap_app, !length_app.
  cbn [omap list_omap].
  destruct (match r with Redis.Fields data => _ | _ => None end); simpl; lia.
Qed.

Lemma or_else_or_else (role : option string) (b : string) :
  Js.or_else (Some (Js.or_else role EmptyString)) b = Js.or_else role b.
Proof.
  destruct role as [ro|]; simpl; [| reflexivity].
  destruct (Js.truthy ro) eqn:E; simpl; [rewrite E |]; reflexivity.
Qed.

(** X3: a client that was registered is listed. After
    [registerClient({id, roomId, role})] with a non-empty id and room id, on
    a store that respects the key schema, [listParticipants(roomId)] returns
    and its list holds the client under its role, or under ['viewer'] when
    no role (or an empty one) was given. *)
Theorem registered_client_is_listed (now : Z) (i r : string) (role : option string)
    (s : StateStore.t) :
  Js.truthy i = true → Js.truthy r = true →
  Claims.well_typed (StateStore.redis s) →
  ∃ ps,
    outcome_of ((_ ← StateStore.registerClient now (Some i) (Some r) role;
                 StateStore.listParticipants (Some r)) s) = Done ps
    ∧ {| p_id := i; p_role := Js.or_else role "viewer" |} ∈ ps.
Proof.
  intros Hi Hr Htyped.
  rewrite (bind_run _ _ _ _ _ _ (registerClient_run_any now i r role s Hi Hr)).
  set (ro := Js.or_else role EmptyString).
  set (cmds := Shape.registration (StateStore.serverId s) now i r ro).
  set (d' := (Redis.exec cmds (StateStore.redis s)).1).
  destruct (registration_facts (StateStore.serverId s) now i r ro _ Htyped)
    as (_ & _ & _ & _ & Fmember & _).
  fold cmds d' in Fmember.
  destruct (registration_hash (StateStore.serverId s) now i r ro (StateStore.redis s))
    as (h & Hh & Fid & _ & Frole & _).
  { destruct Htyped as (_ & _ & Hcli). apply Hcli. }
  fold cmds d' in Hh.
  pose proof (listParticipants_run r (StateStore.with_redis d' s) Hr) as Hlist.
  simpl in Hlist. unfold Redis.set_at in Fmember.
  destruct (d' !! StateStore.roomMembersKey r) as [[v|X|h0]|] eqn:E;
    try (exfalso; set_solver).
  rewrite bool_decide_eq_false_2 in Hlist.
  2:{ intros Hlen. apply nil_length_inv, elements_empty_inv in Hlen. set_solver. }
  rewrite Hlist. eexists. split; [reflexivity |].
  apply participants_of_lookups. exists i, h, i.
  split; [apply elem_of_elements, Fmember |].
  split; [exact Hh |]. split; [exact Fid |]. split; [exact Hi |].
  rewrite Frole. unfold ro. rewrite or_else_or_else. reflexivity.
Qed.

Lemma registered_client_is_listed_witness :
  ∃ ps,
    outcome_of ((_ ← StateStore.registerClient 7 (Some "client-1") (Some "room-1")
                       (Some EmptyString);
                 StateStore.listParticipants (Some "room-1"))
                  (StoreTests.store "test-server")) = Done ps
    ∧ {| p_id := "client-1"; p_role := "viewer" |} ∈ ps.
Proof.
  apply (registered_client_is_listed 7 "client-1" "room-1" (Some EmptyString)
           (StoreTests.store "test-server")).
  - reflexivity.
  - reflexivity.
  - apply schema_check_sound. vm_compute. reflexivity.
Defined.

(** X4: [listParticipants] only reads, and lists members only. It never
    changes the store and issues no writing request; without a room id it
    returns the empty list without any request; and when it returns, the
    list is no longer than the room's member set, and every entry has a
    non-empty id and a non-empty role and is the [id] field of the client
    hash of some member of the room. *)
Theorem listParticipants_lists_members (roomId : option string) (s : StateStore.t) :
  let run := StateStore.listParticipants roomId s in
  state_of run = s
  ∧ forallb (λ q, negb (Claims.request_writes q)) (requests (trace_of run)) = true
  ∧ (Js.present roomId = false → run = (s, [], Done []))
  ∧ ∀ ps, outcome_of run = Done ps →
      (length ps ≤ size (Cluster.members (StateStore.redis s) (Js.value roomId)))%nat
      ∧ ∀ p, p ∈ ps →
          Js.truthy (p_id p) = true ∧ Js.truthy (p_role p) = true
          ∧ ∃ m, m ∈ Cluster.members (StateStore.redis s) (Js.value roomId)
                 ∧ Claims.field_at (StateStore.redis s) (StateStore.clientKey m) "id"
                   = Some (p_id p).
Proof.
  intros run. unfold run. clear run.
  destruct (Js.present roomId) eqn:Hp.
  2:{ unfold StateStore.listParticipants. rewrite Hp. simpl.
      split; [reflexivity |]. split; [reflexivity |]. split; [reflexivity |].
      intros ps [= <-]. split; [simpl; lia |]. intros p Hin. inversion Hin. }
  apply present_Some in Hp as (r & -> & Hr).
  rewrite (listParticipants_run r s Hr). simpl.
  unfold Cluster.members, Redis.set_at.
  destruct (StateStore.redis s !! StateStore.roomMembersKey r) as [[v|X|h]|] eqn:E.
  - split; [reflexivity |]. split; [reflexivity |].
    split; [intros Hf; congruence |]. intros ps Hps. discriminate Hps.
  - split; [destruct (bool_decide (length (elements X) = 0)); reflexivity |].
    split.
    { destruct (bool_decide (length (elements X) = 0)); simpl; [reflexivity |].
      rewrite andb_true_r. apply negb_true_iff, not_true_is_false.
      intros Hex. apply existsb_exists in Hex as (c & Hin & Hc).
      pose proof (lookups_readonly (elements X)) as Hro'.
      rewrite forallb_forall in Hro'. specialize (Hro' _ Hin).
      rewrite Hc in Hro'. discriminate Hro'. }
    split; [intros Hf; congruence |].
    intros ps. destruct (bool_decide (length (elements X) = 0)) eqn:Hlen.
    + intros [= <-]. split; [simpl; lia |]. intros p Hin. inversion Hin.
    + intros [= <-]. split.
      * etransitivity; [apply participants_of_length |].
        rewrite exec_lookups, length_map. reflexivity.
      * intros p Hin.
        apply participants_of_lookups in Hin as (m & h & i & Hm & Hh & Hi & Ht & ->).
        simpl. split; [exact Ht |]. split.
        -- unfold Js.or_else. destruct (h !! "role") as [ro|]; [| reflexivity].
           destruct (Js.truthy ro) eqn:Hro; [exact Hro | reflexivity].
        -- exists m. split; [apply elem_of_elements, Hm |].
           unfold Claims.field_at. rewrite Hh. exact Hi.
  - split; [reflexivity |]. split; [reflexivity |].
    split; [intros Hf; congruence |]. intros ps Hps. discriminate Hps.
  - split; [reflexivity |]. split; [reflexivity |].
    split; [intros Hf; congruence |].
    intros ps [= <-]. split; [simpl; lia |]. intros p Hin. inversion Hin.
Qed.
(** ** stateStore.js: removing *)

Lemma run_del_lookup (k : string) (d : gmap string Redis.value) :
  (Redis.run (Redis.DEL k) d).1 !! k = None.
Proof. unfold Redis.run. simpl. apply lookup_delete_eq. Qed.

Lemma removal_lookup (i r : string) (d : gmap string Redis.value) (k : string) :
  k ≠ StateStore.clientKey i → k ≠ StateStore.roomMembersKey r →
  (Redis.exec (Shape.removal i r) d).1 !! k = d !! k.
Proof.
  intros H1 H2. unfold Shape.removal. rewrite !exec_cons, exec_nil.
  rewrite !run_lookup_ne by assumption. reflexivity.
Qed.

Lemma removal_client (i r : string) (d : gmap string Redis.value) :
  (Redis.exec (Shape.removal i r) d).1 !! StateStore.clientKey i = None.
Proof.
  unfold Shape.removal. rewrite !exec_cons, exec_nil.
  rewrite run_lookup_ne by (simpl; apply client_ne_members).
  apply run_del_lookup.
Qed.

Lemma collection_lookup (r : string) (d : gmap string Redis.value) (k : string) :
  k ≠ StateStore.roomMembersKey r → k ≠ StateStore.ROOM_INDEX_KEY →
  (Redis.exec (Shape.collection r) d).1 !! k = d !! k.
Proof.
  intros H1 H2. unfold Shape.collection. rewrite !exec_cons, exec_nil.
  rewrite !run_lookup_ne by assumption. reflexivity.
Qed.

Lemma collection_index (r : string) (d : gmap string Redis.value) :
  Redis.set_at (Redis.exec (Shape.collection r) d).1 StateStore.ROOM_INDEX_KEY
  = Redis.set_at d StateStore.ROOM_INDEX_KEY ∖ {[ r ]}.
Proof.
  unfold Shape.collection. rewrite !exec_cons, exec_nil.
  rewrite set_at_srem.
  rewrite set_at_run_ne by (simpl; apply index_ne_members). reflexivity.
Qed.

Lemma removal_index (i r : string) (d : gmap string Redis.value) :
  Redis.set_at (Redis.exec (Shape.removal i r) d).1 StateStore.ROOM_INDEX_KEY
  = Redis.set_at d StateStore.ROOM_INDEX_KEY.
Proof.
  apply set_at_lookup_eq, removal_lookup.
  - apply not_eq_sym, client_ne_index.
  - apply index_ne_members.
Qed.

(** The database [removeClient] leaves: that of the first transaction, or
    that of the collection when it ran. *)
Lemma removeClient_db (i r : string) (s : StateStore.t) :
  Js.truthy i = true → Js.truthy r = true →
  let d1 := (Redis.exec (Shape.removal i r) (StateStore.redis s)).1 in
  let run := StateStore.removeClient (Some i) (Some r) s in
  (StateStore.redis (state_of run) = d1
   ∧ (outcome_of run = Done tt → Redis.set_at d1 (StateStore.roomMembersKey r) ≠ ∅))
  ∨ (StateStore.redis (state_of run) = (Redis.exec (Shape.collection r) d1).1
     ∧ outcome_of run = Done tt
     ∧ Redis.set_at d1 (StateStore.roomMembersKey r) = ∅).
Proof.
  intros Hi Hr d1 run. unfold run. rewrite (removeClient_run i r s Hi Hr).
  fold d1. unfold Redis.set_at.
  destruct (d1 !! StateStore.roomMembersKey r) as [[v|X|h]|] eqn:E.
  - left. split; [reflexivity | discriminate].
  - destruct (decide (size X = 0)) as [Hz | Hnz].
    + right. split; [reflexivity |]. split; [reflexivity |].
      apply size_empty_inv in Hz. apply leibniz_equiv, Hz.
    + left. split; [reflexivity |]. intros _ ->. apply Hnz, size_empty.
  - left. split; [reflexivity | discriminate].
  - right. split; [reflexivity |]. split; reflexivity.
Qed.

(** X5: [removeClient({id, roomId})] forgets the client. With a non-empty
    id and room id, whatever the store held and whether or not the call
    throws: the client hash is gone, the room's member set is what it was
    without the id, and other rooms, other client hashes and other index
    entries are as before. If the call returns and left the room without
    members, the room is out of the index. *)
Theorem removeClient_forgets_client (i r : string) (s : StateStore.t) :
  Js.truthy i = true → Js.truthy r = true →
  let run := StateStore.removeClient (Some i) (Some r) s in
  let d := StateStore.redis s in
  let d' := StateStore.redis (state_of run) in
  d' !! StateStore.clientKey i = None
  ∧ Cluster.members d' r = (Cluster.members d r) ∖ {[ i ]}
  ∧ (∀ r', r' ≠ r →
       d' !! StateStore.roomMembersKey r' = d !! StateStore.roomMembersKey r')
  ∧ (∀ j, j ≠ i → d' !! StateStore.clientKey j = d !! StateStore.clientKey j)
  ∧ (∀ r', r' ≠ r →
       (r' ∈ Redis.set_at d' StateStore.ROOM_INDEX_KEY
        ↔ r' ∈ Redis.set_at d StateStore.ROOM_INDEX_KEY))
  ∧ (outcome_of run = Done tt → Cluster.members d' r = ∅ →
     r ∉ Redis.set_at d' StateStore.ROOM_INDEX_KEY).
Proof.
  intros Hi Hr run d d'.
  set (d1 := (Redis.exec (Shape.removal i r) d).1).
  assert (Cluster.members d1 r = Cluster.members d r ∖ {[ i ]}) as Hmem1.
  { unfold d1, Shape.removal, Cluster.members. rewrite !exec_cons, exec_nil.
    rewrite set_at_srem.
    rewrite set_at_run_ne by (simpl; apply not_eq_sym, client_ne_members).
    reflexivity. }
  assert (∀ r', r' ≠ r → d1 !! StateStore.roomMembersKey r'
                         = d !! StateStore.roomMembersKey r') as Hother1.
  { intros r' Hne. apply removal_lookup.
    - apply not_eq_sym, client_ne_members.
    - intros Heq. apply roomMembersKey_inj in Heq. contradiction. }
  assert (∀ j, j ≠ i → d1 !! StateStore.clientKey j = d !! StateStore.clientKey j)
    as Hcli1.
  { intros j Hne. apply removal_lookup.
    - intros Heq. apply clientKey_inj in Heq. contradiction.
    - apply client_ne_members. }
  destruct (removeClient_db i r s Hi Hr) as [[Hd' Hdone] | (Hd' & Hdone & Hempty)];
    fold run d d1 in Hd', Hdone; fold d' in Hd'.
  - rewrite Hd'. split; [apply removal_client |]. split; [exact Hmem1 |].
    split; [exact Hother1 |]. split; [exact Hcli1 |]. split.
    + intros r' _. unfold d1. rewrite removal_index. reflexivity.
    + intros Ho Hnone. exfalso. exact (Hdone Ho Hnone).
  - fold d d1 in Hempty. rewrite Hd'. split.
    { rewrite collection_lookup;
        [apply removal_client | apply client_ne_members | apply client_ne_index]. }
    split.
    { unfold Cluster.members in *. rewrite <- Hmem1, Hempty.
      unfold Shape.collection. rewrite !exec_cons, exec_nil.
      rewrite set_at_run_ne by (simpl; apply not_eq_sym, index_ne_members).
      apply set_at_del. }
    split.
    { intros r' Hne. rewrite collection_lookup; [apply Hother1, Hne | |].
      - intros Heq. apply roomMembersKey_inj in Heq. contradiction.
      - apply not_eq_sym, index_ne_members. }
    split.
    { intros j Hne. rewrite collection_lookup;
        [apply Hcli1, Hne | apply client_ne_members | apply client_ne_index]. }
    split.
    + intros r' Hne. rewrite collection_index. unfold d1. rewrite removal_index.
      set_solver.
    + intros _ _. rewrite collection_index. set_solver.
Qed.

Lemma removeClient_forgets_client_witness :
  let run := StateStore.removeClient (Some "alice") (Some "lab")
               (Server.stateStore Sample.lab) in
  let d := StateStore.redis (Server.stateStore Sample.lab) in
  let d' := StateStore.redis (state_of run) in
  d' !! StateStore.clientKey "alice" = None
  ∧ Cluster.members d' "lab" = (Cluster.members d "lab") ∖ {[ "alice" ]}
  ∧ (∀ r', r' ≠ "lab" →
       d' !! StateStore.roomMembersKey r' = d !! StateStore.roomMembersKey r')
  ∧ (∀ j, j ≠ "alice" → d' !! StateStore.clientKey j = d !! StateStore.clientKey j)
  ∧ (∀ r', r' ≠ "lab" →
       (r' ∈ Redis.set_at d' StateStore.ROOM_INDEX_KEY
        ↔ r' ∈ Redis.set_at d StateStore.ROOM_INDEX_KEY))
  ∧ (outcome_of run = Done tt → Cluster.members d' "lab" = ∅ →
     "lab" ∉ Redis.set_at d' StateStore.ROOM_INDEX_KEY).
Proof.
  apply (removeClient_forgets_client "alice" "lab" (Server.stateStore Sample.lab));
    reflexivity.
Defined.

(** X6: [removeClient] with missing fields. Without an id nothing happens:
    the store is as before and no request is made. With an id but no room
    id, one transaction deletes the client hash and nothing else: every
    other key, so every member set and the index, is as before. *)
Theorem removeClient_missing_fields (id roomId : option string) (s : StateStore.t) :
  (Js.present id = false → StateStore.removeClient id roomId s = (s, [], Done tt))
  ∧ (Js.present id = true → Js.present roomId = false →
     let run := StateStore.removeClient id roomId s in
     let key := StateStore.clientKey (Js.value id) in
     trace_of run = [Substrate (Redis.Multi [Redis.DEL key])]
     ∧ outcome_of run = Done tt
     ∧ StateStore.redis (state_of run) = delete key (StateStore.redis s)
     ∧ ∀ r, Cluster.members (StateStore.redis (state_of run)) r
            = Cluster.members (StateStore.redis s) r).
Proof.
  split.
  - intros Hid. unfold StateStore.removeClient. rewrite Hid. reflexivity.
  - intros Hid Hroom run key. unfold run, StateStore.removeClient.
    rewrite Hid, Hroom. simpl.
    rewrite (bind_run _ _ _ _ _ _ (multi_run _ s)). simpl.
    fold key.
    split; [reflexivity |]. split; [reflexivity |]. split; [reflexivity |].
    intros r. unfold Cluster.members. apply set_at_lookup_eq.
    apply lookup_delete_ne. apply client_ne_members.
Qed.

Lemma removeClient_missing_fields_witness :
  let s := Server.stateStore Sample.lab in
  StateStore.removeClient None (Some "lab") s = (s, [], Done tt)
  ∧ (let run := StateStore.removeClient (Some "alice") None s in
     let key := StateStore.clientKey "alice" in
     trace_of run = [Substrate (Redis.Multi [Redis.DEL key])]
     ∧ outcome_of run = Done tt
     ∧ StateStore.redis (state_of run) = delete key (StateStore.redis s)
     ∧ ∀ r, Cluster.members (StateStore.redis (state_of run)) r
            = Cluster.members (StateStore.redis s) r).
Proof.
  split.
  - apply (proj1 (removeClient_missing_fields None (Some "lab")
                    (Server.stateStore Sample.lab))).
    reflexivity.
  - apply (proj2 (removeClient_missing_fields (Some "alice") None
                    (Server.stateStore Sample.lab))); reflexivity.
Defined.
(** ** stateStore.js: looking up, and the heartbeat *)

(** X7: [getClient] returns a record only when one with an id is stored.
    It never changes the store. Without a client id it returns [null]
    without any request. Otherwise it reads the client key once and returns
    the stored hash if that hash has a non-empty [id] field, [null] if the
    key is missing or the hash has no such field, and throws if the key
    holds something that is not a hash. *)
Theorem getClient_returns_stored_record (clientId : option string)
    (s : StateStore.t) :
  let run := StateStore.getClient clientId s in
  let key := StateStore.clientKey (Js.value clientId) in
  state_of run = s
  ∧ (Js.present clientId = false → run = (s, [], Done None))
  ∧ (Js.present clientId = true →
     trace_of run = [Substrate (Redis.Single (Redis.HGETALL key))]
     ∧ outcome_of run
       = match StateStore.redis s !! key with
         | None => Done None
         | Some (Redis.VHash h) =>
             Done (if Js.present (h !! "id") then Some h else None)
         | Some _ => Thrown ReplyError
         end).
Proof.
  intros run key. split; [apply getClient_state |]. split.
  - intros Hid. unfold run, StateStore.getClient. rewrite Hid. reflexivity.
  - intros Hid. apply present_Some in Hid as (i & -> & Hi).
    unfold run, key. simpl.
    destruct (StateStore.redis s !! StateStore.clientKey i) as [[v|X|h]|] eqn:E.
    + unfold StateStore.getClient. simpl. rewrite Hi. simpl.
      pose proof (call_run (Redis.HGETALL (StateStore.clientKey i)) s) as Hcall.
      unfold Redis.run in Hcall. rewrite E in Hcall. simpl in Hcall.
      rewrite (bind_thrown _ _ _ _ _ _ Hcall). split; reflexivity.
    + unfold StateStore.getClient. simpl. rewrite Hi. simpl.
      pose proof (call_run (Redis.HGETALL (StateStore.clientKey i)) s) as Hcall.
      unfold Redis.run in Hcall. rewrite E in Hcall. simpl in Hcall.
      rewrite (bind_thrown _ _ _ _ _ _ Hcall). split; reflexivity.
    + rewrite (getClient_hash i h s Hi E). split; reflexivity.
    + rewrite (getClient_no_hash i s Hi E). split; reflexivity.
Qed.

Lemma getClient_returns_stored_record_witness :
  let s := Server.stateStore Sample.lab in
  StateStore.getClient (Some EmptyString) s = (s, [], Done None)
  ∧ trace_of (StateStore.getClient (Some "ghost") s)
    = [Substrate (Redis.Single (Redis.HGETALL (StateStore.clientKey "ghost")))]
  ∧ outcome_of (StateStore.getClient (Some "ghost") s) = Done None.
Proof.
  split.
  - apply (proj1 (proj2 (getClient_returns_stored_record (Some EmptyString)
                           (Server.stateStore Sample.lab)))).
    reflexivity.
  - apply (proj2 (proj2 (getClient_returns_stored_record (Some "ghost")
                           (Server.stateStore Sample.lab)))).
    reflexivity.
Defined.

(** X8: the heartbeat record, and its removal at shutdown. When the server
    key holds a hash or nothing, [setHeartbeat] returns after one [HSET] and
    one [EXPIRE] of 30 seconds on that key; the record then carries the
    server id, the two counts in decimal and the time, and no other key has
    changed. [cleanupServerState] after it leaves the database as it was
    before the heartbeat, without the server key. *)
Theorem heartbeat_then_cleanup (now : Z) (connections rooms : nat)
    (s : StateStore.t) :
  let key := StateStore.serverKey (StateStore.serverId s) in
  (∀ v, StateStore.redis s !! key = Some v → Claims.is_hash v) →
  let beat := StateStore.setHeartbeat now connections rooms s in
  let d' := StateStore.redis (state_of beat) in
  outcome_of beat = Done tt
  ∧ requests (trace_of beat)
    = [ Redis.Single
          (Redis.HSET key
             [ ("serverId", StateStore.serverId s);
               ("connections", pretty connections);
               ("rooms", pretty rooms);
               ("updatedAt", StateStore.timestamp now) ]);
        Redis.Single (Redis.EXPIRE key 30) ]
  ∧ Claims.field_at d' key "serverId" = Some (StateStore.serverId s)
  ∧ Claims.field_at d' key "connections" = Some (pretty connections)
  ∧ Claims.field_at d' key "rooms" = Some (pretty rooms)
  ∧ Claims.field_at d' key "updatedAt" = Some (StateStore.timestamp now)
  ∧ (∀ k, k ≠ key → d' !! k = StateStore.redis s !! k)
  ∧ StateStore.cleanupServerState (state_of beat)
    = (StateStore.with_redis (delete key (StateStore.redis s)) s,
       [Substrate (Redis.Single (Redis.DEL key))], Done tt).
Proof.
  intros key Hhash beat d'.
  set (fields := [ ("serverId", StateStore.serverId s);
                   ("connections", pretty connections);
                   ("rooms", pretty rooms);
                   ("updatedAt", StateStore.timestamp now) ]).
  assert (∃ h0, Redis.run (Redis.HSET key fields) (StateStore.redis s)
                = (<[key := Redis.VHash (Redis.hset_fields fields h0)]>
                     (StateStore.redis s), Redis.Int 4)) as [h0 Hset].
  { unfold Redis.run. destruct (StateStore.redis s !! key) as [v|] eqn:E.
    - destruct (Hhash _ eq_refl) as [h ->]. exists h. reflexivity.
    - exists ∅. reflexivity. }
  set (d1 := <[key := Redis.VHash (Redis.hset_fields fields h0)]> (StateStore.redis s)).
  assert (beat = (StateStore.with_redis d1 s,
                  [Substrate (Redis.Single (Redis.HSET key fields));
                   Substrate (Redis.Single (Redis.EXPIRE key 30))], Done tt)) as Hbeat.
  { unfold beat, StateStore.setHeartbeat. rewrite bind_get. fold key fields.
    pose proof (call_run (Redis.HSET key fields) s) as Hcall.
    rewrite Hset in Hcall. simpl in Hcall. fold d1 in Hcall.
    rewrite (bind_run _ _ _ _ _ _ Hcall).
    pose proof (call_run (Redis.EXPIRE key 30) (StateStore.with_redis d1 s)) as Hcall2.
    unfold Redis.run in Hcall2. simpl in Hcall2.
    rewrite (bind_run _ _ _ _ _ _ Hcall2). reflexivity. }
  unfold d'. rewrite Hbeat. unfold state_of, trace_of, outcome_of. simpl.
  split; [reflexivity |]. split; [reflexivity |].
  unfold Claims.field_at, d1. rewrite lookup_insert_eq.
  unfold Redis.hset_fields, fields. simpl.
  split; [rewrite !lookup_insert_ne by discriminate; apply lookup_insert_eq |].
  split; [rewrite !lookup_insert_ne by discriminate; apply lookup_insert_eq |].
  split; [rewrite !lookup_insert_ne by discriminate; apply lookup_insert_eq |].
  split; [apply lookup_insert_eq |].
  split; [intros k Hk; apply lookup_insert_ne; congruence |].
  unfold StateStore.cleanupServerState. rewrite bind_get. simpl. fold key.
  pose proof (call_run (Redis.DEL key)
                (StateStore.with_redis
                   (<[key := Redis.VHash (Redis.hset_fields fields h0)]>
                      (StateStore.redis s)) s)) as Hcall.
  unfold Redis.run in Hcall. simpl in Hcall.
  rewrite delete_insert_eq in Hcall.
  unfold fields, Redis.hset_fields in Hcall. simpl in Hcall.
  rewrite (bind_run _ _ _ _ _ _ Hcall). reflexivity.
Qed.

Lemma heartbeat_then_cleanup_witness :
  let s := StoreTests.store "node-a" in
  let key := "signaling:servers:node-a" in
  let beat := StateStore.setHeartbeat 1700000000000 3 2 s in
  let d' := StateStore.redis (state_of beat) in
  outcome_of beat = Done tt
  ∧ requests (trace_of beat)
    = [ Redis.Single
          (Redis.HSET key
             [ ("serverId", "node-a"); ("connections", "3"); ("rooms", "2");
               ("updatedAt", "1700000000000") ]);
        Redis.Single (Redis.EXPIRE key 30) ]
  ∧ Claims.field_at d' key "serverId" = Some "node-a"
  ∧ Claims.field_at d' key "connections" = Some "3"
  ∧ Claims.field_at d' key "rooms" = Some "2"
  ∧ Claims.field_at d' key "updatedAt" = Some "1700000000000"
  ∧ (∀ k, k ≠ key → d' !! k = StateStore.redis s !! k)
  ∧ StateStore.cleanupServerState (state_of beat)
    = (StateStore.with_redis (delete key (StateStore.redis s)) s,
       [Substrate (Redis.Single (Redis.DEL key))], Done tt).
Proof.
  apply (heartbeat_then_cleanup 1700000000000 3 2 (StoreTests.store "node-a")).
  intros v Hv. vm_compute in Hv. discriminate Hv.
Defined.
(** ** server.js: sending and dispatching *)

Lemma broadcast_trace_filter (rs : Ws → ReadyState) (sender : Ws) (room : list Ws)
    (m : outbound) :
  Shape.broadcast_trace rs sender room m
  = map (λ ws, WsSend ws m) (filter (λ ws, ws ≠ sender ∧ rs ws = OPEN) room).
Proof.
  induction room as [|ws room IH]; [reflexivity |].
  unfold Shape.broadcast_trace in *. simpl. rewrite IH.
  rewrite filter_cons.
  destruct (decide (ws ≠ sender ∧ rs ws = OPEN)) as [[H1 H2] | Hno].
  - rewrite bool_decide_eq_true_2 by exact H1.
    rewrite bool_decide_eq_true_2 by exact H2. reflexivity.
  - destruct (bool_decide_reflect (ws ≠ sender)) as [H1 | H1]; [| reflexivity].
    destruct (bool_decide_reflect (rs ws = OPEN)) as [H2 | H2]; [| reflexivity].
    exfalso. apply Hno. split; assumption.
Qed.

(** X9: [broadcast] reaches the open peers of a room, and only them. It
    sends the message once to every socket of the room (in the order they
    entered) that is not the sender and whose connection is open; a room
    that is not in the map gets nothing; the world is unchanged and the
    call does not throw. *)
Theorem broadcast_reaches_open_peers (sender : Ws) (roomId : string)
    (message : outbound) (w : Server.world) :
  Server.broadcast sender roomId message w
  = (w,
     map (λ ws, WsSend ws message)
         (filter (λ ws, ws ≠ sender ∧ Server.readyState w ws = OPEN)
                 (default [] (Server.rooms w !! roomId))),
     Done tt).
Proof. rewrite broadcast_run, broadcast_trace_filter. reflexivity. Qed.



Lemma catch_outcome {S A} (m : M S A) (h : exn → M S A) (s : S) a :
  (∀ e s1, outcome_of (h e s1) = Done a) →
  (∀ b, outcome_of (m s) = Done b → b = a) →
  outcome_of (catch m h s) = Done a.
Proof.
  intros Hh Hm. unfold catch. destruct (m s) as [[s1 t1] [b|e]] eqn:E.
  - simpl in *. f_equal. apply Hm. reflexivity.
  - specialize (Hh e s1). destruct (h e s1) as [[s2 t2] o]. exact Hh.
Qed.

Lemma send_outcome ws m (w : Server.world) : outcome_of (Server.send ws m w) = Done tt.
Proof. rewrite send_run. reflexivity. Qed.

(** X11: no event handler lets an exception escape. Whatever the world and
    the event (a connection, a message, a close, a relay payload, a
    heartbeat), the handler returns; and data that is not JSON is answered
    by the error 'Invalid JSON message' and changes nothing. *)
Theorem event_handlers_never_throw (e : Cluster.event) (w : Server.world) :
  outcome_of (Cluster.handler e w) = Done tt
  ∧ ∀ ws, Server.on_message ws None w
          = (w,
             if bool_decide (Server.readyState w ws = OPEN)
             then [WsSend ws (Error "Invalid JSON message")] else [],
             Done tt).
Proof.
  split.
  - destruct e as [ws clientId | ws data | ws | payload |]; simpl.
    + unfold Server.on_connection. rewrite bind_modify. apply send_outcome.
    + apply catch_outcome; [intros; apply send_outcome | intros []; reflexivity].
    + apply catch_outcome; [reflexivity | intros []; reflexivity].
    + apply catch_outcome; [reflexivity | intros []; reflexivity].
    + unfold Server.on_heartbeat. rewrite bind_get.
      apply catch_outcome; [reflexivity | intros []; reflexivity].
  - intros ws. unfold Server.on_message, catch, throw. simpl.
    rewrite send_run. reflexivity.
Qed.

(** X12: a failure while a message is handled is reported to the client as
    'Invalid JSON message'. When [handleMessage] throws, whatever the
    reason, the ['message'] listener keeps what the handler did up to
    there, sends that error to the client if its socket is open, and
    returns. *)
Theorem handler_failure_is_reported_as_invalid_json (ws : Ws) (message : Msg.t)
    (w : Server.world) (e : exn) :
  outcome_of (Server.handleMessage ws message w) = Thrown e →
  let w' := state_of (Server.handleMessage ws message w) in
  Server.on_message ws (Some message) w
  = (w',
     trace_of (Server.handleMessage ws message w)
     ++ (if bool_decide (Server.readyState w' ws = OPEN)
         then [WsSend ws (Error "Invalid JSON message")] else []),
     Done tt).
Proof.
  intros Hthrown w'. unfold w', Server.on_message, catch.
  destruct (Server.handleMessage ws message w) as [[s1 t1] o] eqn:E.
  simpl in Hthrown. subst o. rewrite send_run. reflexivity.
Qed.

Lemma handler_failure_is_reported_as_invalid_json_witness :
  let join := Sample.join (Some "studio") (Some "viewer") in
  sent_to 1 (trace_of (Server.on_message 1 (Some join) Scenario.clash))
  = [Error "Invalid JSON message"].
Proof.
  intros join.
  rewrite (handler_failure_is_reported_as_invalid_json 1 join Scenario.clash ReplyError).
  - vm_compute. reflexivity.
  - vm_compute. reflexivity.
Defined.
(** ** server.js: relaying *)

Lemma handleOffer_run (ws : Ws) (client : Server.client) (message : Msg.t)
    (t : string) (o : Js.json) (w : Server.world) :
  JsMap.get ws (Server.clients w) = Some client →
  Msg.targetId message = Some t → Js.truthy t = true →
  Msg.offer message = Some o → Js.truthy_json o = true →
  Server.handleOffer ws message w
  = (_ ← Server.relayOrSend ws t (Offer (Server.id client) o) (Some true); mret tt) w.
Proof.
  intros Hclient Htarget Ht Ho Hto. unfold Server.handleOffer.
  rewrite bind_get, Hclient, Htarget, Ho. simpl. rewrite Ht, Hto. reflexivity.
Qed.

Lemma handleAnswer_run (ws : Ws) (client : Server.client) (message : Msg.t)
    (t : string) (a : Js.json) (w : Server.world) :
  JsMap.get ws (Server.clients w) = Some client →
  Msg.targetId message = Some t → Js.truthy t = true →
  Msg.answer message = Some a → Js.truthy_json a = true →
  Server.handleAnswer ws message w
  = (_ ← Server.relayOrSend ws t (Answer (Server.id client) a) (Some true); mret tt) w.
Proof.
  intros Hclient Htarget Ht Ha Hta. unfold Server.handleAnswer.
  rewrite bind_get, Hclient, Htarget, Ha. simpl. rewrite Ht, Hta. reflexivity.
Qed.

Lemma handleIceCandidate_run (ws : Ws) (client : Server.client) (message : Msg.t)
    (t : string) (c : Js.json) (w : Server.world) :
  JsMap.get ws (Server.clients w) = Some client →
  Msg.targetId message = Some t → Js.truthy t = true →
  Msg.candidate message = Some c → Js.truthy_json c = true →
  Server.handleIceCandidate ws message w
  = (_ ← Server.relayOrSend ws t (IceCandidate (Server.id client) c) (Some false);
     mret tt) w.
Proof.
  intros Hclient Htarget Ht Hc Htc. unfold Server.handleIceCandidate.
  rewrite bind_get, Hclient, Htarget, Hc. simpl. rewrite Ht, Htc. reflexivity.
Qed.

Lemma relayOrSend_local (ws : Ws) (t : string) (m : outbound)
    (notifyMissing : option bool) (tws : Ws) (w : Server.world) :
  Server.findClientById t (Server.clients w) = Some tws →
  Server.relayOrSend ws t m notifyMissing w
  = (w, if bool_decide (Server.readyState w tws = OPEN) then [WsSend tws m] else [],
     Done true).
Proof.
  intros Hfind. unfold Server.relayOrSend. rewrite bind_get, Hfind.
  rewrite (bind_run _ _ _ _ _ _ (send_run _ _ _)). simpl.
  rewrite app_nil_r. reflexivity.
Qed.

(** X13: a message for a client connected to the same node goes straight
    to that client, under the sender's own id. An offer, answer or ICE
    candidate whose target is found among the node's connections is sent
    to the target's socket, if open, with [fromId] set to the id the server
    gave the sender; the substrate is not consulted, nothing is published,
    the sender gets no reply, and the world is unchanged; this also when
    the target's socket is not open, in which case nothing is sent. *)
Theorem local_target_gets_message_under_sender_id (ws : Ws) (client : Server.client)
    (message : Msg.t) (t : string) (tws : Ws) (w : Server.world) :
  JsMap.get ws (Server.clients w) = Some client →
  Msg.targetId message = Some t → Js.truthy t = true →
  Server.findClientById t (Server.clients w) = Some tws →
  let sent m :=
    (w, if bool_decide (Server.readyState w tws = OPEN) then [WsSend tws m] else [],
     Done tt) in
  (∀ o, Msg.type message = Some "offer" →
        Msg.offer message = Some o → Js.truthy_json o = true →
        Server.on_message ws (Some message) w = sent (Offer (Server.id client) o))
  ∧ (∀ a, Msg.type message = Some "answer" →
          Msg.answer message = Some a → Js.truthy_json a = true →
          Server.on_message ws (Some message) w = sent (Answer (Server.id client) a))
  ∧ (∀ c, Msg.type message = Some "ice-candidate" →
          Msg.candidate message = Some c → Js.truthy_json c = true →
          Server.on_message ws (Some message) w
          = sent (IceCandidate (Server.id client) c)).
Proof.
  intros Hclient Htarget Ht Hfind sent.
  split; [| split].
  - intros o Htype Ho Hto. unfold Server.on_message. apply catch_done.
    rewrite (handleMessage_dispatch ws client message w (Server.handleOffer ws message)
               Hclient) by (rewrite Htype; reflexivity).
    rewrite (handleOffer_run ws client message t o w Hclient Htarget Ht Ho Hto).
    rewrite (bind_run _ _ _ _ _ _ (relayOrSend_local ws t _ _ tws w Hfind)).
    simpl. rewrite app_nil_r. reflexivity.
  - intros a Htype Ha Hta. unfold Server.on_message. apply catch_done.
    rewrite (handleMessage_dispatch ws client message w (Server.handleAnswer ws message)
               Hclient) by (rewrite Htype; reflexivity).
    rewrite (handleAnswer_run ws client message t a w Hclient Htarget Ht Ha Hta).
    rewrite (bind_run _ _ _ _ _ _ (relayOrSend_local ws t _ _ tws w Hfind)).
    simpl. rewrite app_nil_r. reflexivity.
  - intros c Htype Hc Htc. unfold Server.on_message. apply catch_done.
    rewrite (handleMessage_dispatch ws client message w
               (Server.handleIceCandidate ws message) Hclient)
      by (rewrite Htype; reflexivity).
    rewrite (handleIceCandidate_run ws client message t c w Hclient Htarget Ht Hc Htc).
    rewrite (bind_run _ _ _ _ _ _ (relayOrSend_local ws t _ _ tws w Hfind)).
    simpl. rewrite app_nil_r. reflexivity.
Qed.

Lemma local_target_gets_message_under_sender_id_witness :
  Server.on_message 1 (Some (Sample.offer "bob")) Sample.lab
  = (Sample.lab, [WsSend 2 (Offer "alice" (Js.JObj "{sdp}"))], Done tt).
Proof.
  apply (local_target_gets_message_under_sender_id 1 Sample.alice (Sample.offer "bob")
           "bob" 2 Sample.lab); reflexivity.
Defined.

(** X14: an offer, answer or ICE candidate that lacks its target or its
    payload is rejected. The client gets one error that names the two
    required fields; no lookup is made, nothing is published and the world
    is unchanged. An empty target id and a payload that is [null], [false],
    [0] or the empty string count as lacking. *)
Theorem relay_message_without_fields_is_rejected (ws : Ws) (client : Server.client)
    (message : Msg.t) (w : Server.world) :
  JsMap.get ws (Server.clients w) = Some client →
  let rejected text :=
    (w, if bool_decide (Server.readyState w ws = OPEN)
        then [WsSend ws (Error text)] else [],
     Done tt) in
  (Msg.type message = Some "offer" →
   Js.present (Msg.targetId message) = false
   ∨ Js.present_json (Msg.offer message) = false →
   Server.on_message ws (Some message) w = rejected "targetId and offer are required")
  ∧ (Msg.type message = Some "answer" →
     Js.present (Msg.targetId message) = false
     ∨ Js.present_json (Msg.answer message) = false →
     Server.on_message ws (Some message) w = rejected "targetId and answer are required")
  ∧ (Msg.type message = Some "ice-candidate" →
     Js.present (Msg.targetId message) = false
     ∨ Js.present_json (Msg.candidate message) = false →
     Server.on_message ws (Some message) w
     = rejected "targetId and candidate are required").
Proof.
  intros Hclient rejected.
  split; [| split].
  - intros Htype Hmissing. unfold Server.on_message. apply catch_done.
    rewrite (handleMessage_dispatch ws client message w (Server.handleOffer ws message)
               Hclient) by (rewrite Htype; reflexivity).
    unfold Server.handleOffer. rewrite bind_get.
    assert (negb (Js.present (Msg.targetId message))
            || negb (Js.present_json (Msg.offer message)) = true) as ->
      by (destruct Hmissing as [-> | ->]; [reflexivity | apply orb_true_r]).
    apply send_run.
  - intros Htype Hmissing. unfold Server.on_message. apply catch_done.
    rewrite (handleMessage_dispatch ws client message w (Server.handleAnswer ws message)
               Hclient) by (rewrite Htype; reflexivity).
    unfold Server.handleAnswer. rewrite bind_get.
    assert (negb (Js.present (Msg.targetId message))
            || negb (Js.present_json (Msg.answer message)) = true) as ->
      by (destruct Hmissing as [-> | ->]; [reflexivity | apply orb_true_r]).
    apply send_run.
  - intros Htype Hmissing. unfold Server.on_message. apply catch_done.
    rewrite (handleMessage_dispatch ws client message w
               (Server.handleIceCandidate ws message) Hclient)
      by (rewrite Htype; reflexivity).
    unfold Server.handleIceCandidate. rewrite bind_get.
    assert (negb (Js.present (Msg.targetId message))
            || negb (Js.present_json (Msg.candidate message)) = true) as ->
      by (destruct Hmissing as [-> | ->]; [reflexivity | apply orb_true_r]).
    apply send_run.
Qed.

Lemma relay_message_without_fields_is_rejected_witness :
  Server.on_message 1 (Some (Sample.ice "bob" (Some (Js.JStr EmptyString)))) Sample.lab
  = (Sample.lab, [WsSend 1 (Error "targetId and candidate are required")], Done tt).
Proof.
  apply (relay_message_without_fields_is_rejected 1 Sample.alice
           (Sample.ice "bob" (Some (Js.JStr EmptyString))) Sample.lab).
  - reflexivity.
  - reflexivity.
  - right. reflexivity.
Defined.

Lemma relayOrSend_remote (ws : Ws) (t : string) (m : outbound)
    (notifyMissing : option bool) (h : gmap string string) (home : string)
    (w : Server.world) :
  Server.findClientById t (Server.clients w) = None →
  Js.truthy t = true →
  StateStore.redis (Server.stateStore w) !! StateStore.clientKey t
  = Some (Redis.VHash h) →
  Js.present (h !! "id") = true →
  h !! "serverId" = Some home → Js.truthy home = true →
  Server.relayOrSend ws t m notifyMissing w
  = (w,
     [ Substrate (Redis.Single (Redis.HGETALL (StateStore.clientKey t)));
       RelayPublish Server.RELAY_CHANNEL
         {| originServerId := Some (Claims.self w);
            targetServerId := Some home;
            targetId := Some t;
            message := Some m |} ],
     Done true).
Proof.
  intros Hfind Ht Hh Hid Hhome Hth. unfold Server.relayOrSend.
  rewrite bind_get, Hfind.
  pose proof (on_store_run (StateStore.getClient (Some t)) w) as Hget.
  rewrite (getClient_hash t h _ Ht Hh) in Hget.
  unfold state_of, trace_of, outcome_of in Hget. simpl in Hget.
  rewrite with_store_same, Hid in Hget.
  rewrite (bind_run _ _ _ _ _ _ Hget). simpl. rewrite Hhome. simpl. rewrite Hth. simpl.
  unfold mbind, M_bind, bind, emit, mret, M_ret, ret. simpl. reflexivity.
Qed.

(** X15: a message for a client registered at another node crosses the
    relay. When the target is not connected here and the registry holds
    its record with the id of its home node, [relayOrSend] publishes one
    payload on the relay channel (and tells the sender nothing); the home
    node, where the target is connected with an open socket, delivers
    exactly the message to that socket when the payload arrives; every
    other node that receives the payload drops it. *)
Theorem relay_crosses_nodes (ws : Ws) (t : string) (m : outbound)
    (notifyMissing : option bool) (h : gmap string string) (home : string)
    (wa wb : Server.world) (tws : Ws) :
  Server.findClientById t (Server.clients wa) = None →
  Js.truthy t = true →
  StateStore.redis (Server.stateStore wa) !! StateStore.clientKey t
  = Some (Redis.VHash h) →
  Js.present (h !! "id") = true →
  h !! "serverId" = Some home → Js.truthy home = true →
  Claims.self wa ≠ home →
  Claims.self wb = home →
  Server.findClientById t (Server.clients wb) = Some tws →
  Server.readyState wb tws = OPEN →
  ∃ p,
    Server.relayOrSend ws t m notifyMissing wa
    = (wa,
       [ Substrate (Redis.Single (Redis.HGETALL (StateStore.clientKey t)));
         RelayPublish Server.RELAY_CHANNEL p ],
       Done true)
    ∧ Server.on_relay (Some p) wb = (wb, [WsSend tws m], Done tt)
    ∧ ∀ wc, Claims.self wc ≠ home → Server.on_relay (Some p) wc = (wc, [], Done tt).
Proof.
  intros Hfind Ht Hh Hid Hhome Hth Hne Hself Hfindb Hopen.
  eexists. split; [apply (relayOrSend_remote ws t m notifyMissing h home wa); assumption |].
  split.
  - unfold Server.on_relay. apply catch_done.
    unfold Server.handleRelayDelivery. rewrite bind_get. simpl.
    unfold Claims.self in *.
    rewrite bool_decide_eq_false_2 by (intros Hx; apply Hx; congruence).
    rewrite bool_decide_eq_false_2 by (intros [= Hx]; apply Hne; congruence).
    rewrite Hfindb. rewrite send_run.
    rewrite bool_decide_eq_true_2 by exact Hopen. reflexivity.
  - intros wc Hc. unfold Server.on_relay. apply catch_done.
    unfold Server.handleRelayDelivery. rewrite bind_get. simpl.
    unfold Claims.self in *.
    rewrite bool_decide_eq_true_2 by (intros [= Hx]; apply Hc; congruence).
    reflexivity.
Qed.

Lemma relay_crosses_nodes_witness :
  ∃ p,
    Server.relayOrSend 7 "bob" (Offer "carol" (Js.JObj "{sdp}")) (Some true)
      Scenario.remote
    = (Scenario.remote,
       [ Substrate (Redis.Single (Redis.HGETALL (StateStore.clientKey "bob")));
         RelayPublish Server.RELAY_CHANNEL p ],
       Done true)
    ∧ Server.on_relay (Some p) Sample.lab
      = (Sample.lab, [WsSend 2 (Offer "carol" (Js.JObj "{sdp}"))], Done tt)
    ∧ ∀ wc, Claims.self wc ≠ "node-a" → Server.on_relay (Some p) wc = (wc, [], Done tt).
Proof.
  apply (relay_crosses_nodes 7 "bob" (Offer "carol" (Js.JObj "{sdp}")) (Some true)
           (Redis.hset_fields
              [ ("id", "bob"); ("roomId", "lab"); ("role", "broadcaster");
                ("serverId", "node-a"); ("updatedAt", "1700000000001") ] ∅)
           "node-a" Scenario.remote Sample.lab 2).
  - reflexivity.
  - reflexivity.
  - vm_compute. reflexivity.
  - vm_compute. reflexivity.
  - vm_compute. reflexivity.
  - reflexivity.
  - discriminate.
  - reflexivity.
  - reflexivity.
  - reflexivity.
Defined.

(** X16: a registry record that points at this very node loses the
    message without a word. When the target is not connected here but the
    registry still holds its record with this node's id (a record left
    behind by a process that restarted under the same id), [relayOrSend]
    publishes the payload to its own node and reports success: the sender
    gets no 'not found' error; and this node, like every node, drops the
    payload when it arrives. *)
Theorem stale_local_record_loses_message (ws : Ws) (t : string) (m : outbound)
    (notifyMissing : option bool) (h : gmap string string) (w : Server.world) :
  Server.findClientById t (Server.clients w) = None →
  Js.truthy t = true →
  StateStore.redis (Server.stateStore w) !! StateStore.clientKey t
  = Some (Redis.VHash h) →
  Js.present (h !! "id") = true →
  h !! "serverId" = Some (Claims.self w) → Js.truthy (Claims.self w) = true →
  ∃ p,
    Server.relayOrSend ws t m notifyMissing w
    = (w,
       [ Substrate (Redis.Single (Redis.HGETALL (StateStore.clientKey t)));
         RelayPublish Server.RELAY_CHANNEL p ],
       Done true)
    ∧ ∀ w', Server.on_relay (Some p) w' = (w', [], Done tt).
Proof.
  intros Hfind Ht Hh Hid Hhome Hth.
  eexists. split; [apply (relayOrSend_remote ws t m notifyMissing h (Claims.self w) w); assumption |].
  intros w'. unfold Server.on_relay. apply catch_done.
  unfold Server.handleRelayDelivery. rewrite bind_get. simpl.
  destruct (bool_decide_reflect
              (Some (Claims.self w) ≠ Some (StateStore.serverId (Server.stateStore w'))))
    as [Hx | Hx]; [reflexivity |].
  apply dec_stable in Hx.
  rewrite bool_decide_eq_true_2 by exact Hx. reflexivity.
Qed.

Lemma stale_local_record_loses_message_witness :
  ∃ p,
    Server.relayOrSend 7 "bob" (Offer "carol" (Js.JObj "{sdp}")) (Some true)
      Scenario.restarted
    = (Scenario.restarted,
       [ Substrate (Redis.Single (Redis.HGETALL (StateStore.clientKey "bob")));
         RelayPublish Server.RELAY_CHANNEL p ],
       Done true)
    ∧ ∀ w', Server.on_relay (Some p) w' = (w', [], Done tt).
Proof.
  apply (stale_local_record_loses_message 7 "bob" (Offer "carol" (Js.JObj "{sdp}"))
           (Some true)
           (Redis.hset_fields
              [ ("id", "bob"); ("roomId", "lab"); ("role", "broadcaster");
                ("serverId", "node-a"); ("updatedAt", "1700000000001") ] ∅)
           Scenario.restarted).
  - reflexivity.
  - reflexivity.
  - vm_compute. reflexivity.
  - vm_compute. reflexivity.
  - vm_compute. reflexivity.
  - reflexivity.
Defined.
(** ** The registry stays consistent *)

Lemma registration_lookup sid now (i r ro : string) (d : gmap string Redis.value)
    (k : string) :
  k ≠ StateStore.ROOM_INDEX_KEY → k ≠ StateStore.roomMembersKey r →
  k ≠ StateStore.clientKey i →
  (Redis.exec (Shape.registration sid now i r ro) d).1 !! k = d !! k.
Proof.
  intros H1 H2 H3. unfold Shape.registration. rewrite !exec_cons, exec_nil.
  rewrite !run_lookup_ne by assumption. reflexivity.
Qed.

Lemma registration_index sid now (i r ro : string) (d : gmap string Redis.value) :
  Claims.well_typed d →
  Redis.set_at (Redis.exec (Shape.registration sid now i r ro) d).1
    StateStore.ROOM_INDEX_KEY
  = {[ r ]} ∪ Redis.set_at d StateStore.ROOM_INDEX_KEY.
Proof.
  intros (Hidx & _ & _). unfold Shape.registration. rewrite !exec_cons, exec_nil.
  rewrite (set_at_run_ne (Redis.HSET _ _)) by (simpl; apply not_eq_sym, client_ne_index).
  rewrite (set_at_run_ne (Redis.SADD (StateStore.roomMembersKey r) i))
    by (simpl; apply index_ne_members).
  rewrite set_at_sadd.
  destruct (d !! StateStore.ROOM_INDEX_KEY) as [v|] eqn:E; [| reflexivity].
  destruct (Hidx _ eq_refl) as [X ->]. reflexivity.
Qed.

Lemma registration_room sid now (i r ro : string) (d : gmap string Redis.value) :
  Claims.well_typed d →
  Cluster.members (Redis.exec (Shape.registration sid now i r ro) d).1 r
  = {[ i ]} ∪ Cluster.members d r.
Proof.
  intros (_ & Hmem & _). unfold Shape.registration, Cluster.members.
  rewrite !exec_cons, exec_nil.
  rewrite (set_at_run_ne (Redis.HSET _ _))
    by (simpl; apply not_eq_sym, client_ne_members).
  rewrite set_at_sadd.
  rewrite (run_lookup_ne (Redis.SADD StateStore.ROOM_INDEX_KEY r))
    by (simpl; apply not_eq_sym, index_ne_members).
  rewrite (set_at_run_ne (Redis.SADD StateStore.ROOM_INDEX_KEY r))
    by (simpl; apply not_eq_sym, index_ne_members).
  destruct (d !! StateStore.roomMembersKey r) as [v|] eqn:E; [| reflexivity].
  destruct (Hmem _ _ E) as [X ->]. reflexivity.
Qed.

Lemma registration_other_room sid now (i r ro : string) (d : gmap string Redis.value)
    (r' : string) :
  r' ≠ r →
  Cluster.members (Redis.exec (Shape.registration sid now i r ro) d).1 r'
  = Cluster.members d r'.
Proof.
  intros Hne. unfold Cluster.members. apply set_at_lookup_eq, registration_lookup.
  - apply not_eq_sym, index_ne_members.
  - intros Heq. apply roomMembersKey_inj in Heq. contradiction.
  - apply not_eq_sym, client_ne_members.
Qed.

Lemma consistent_registration sid now (i r ro : string) (d : gmap string Redis.value) :
  Registry.consistent d →
  Registry.consistent (Redis.exec (Shape.registration sid now i r ro) d).1.
Proof.
  intros [Htyped Hidx]. split; [apply well_typed_registration, Htyped |].
  intros r'. rewrite (registration_index _ _ _ _ _ _ Htyped).
  destruct (decide (r' = r)) as [-> | Hne].
  - rewrite (registration_room _ _ _ _ _ _ Htyped). set_solver.
  - rewrite (registration_other_room _ _ _ _ _ _ _ Hne).
    specialize (Hidx r'). set_solver.
Qed.

Lemma removal_room (i r : string) (d : gmap string Redis.value) :
  Cluster.members (Redis.exec (Shape.removal i r) d).1 r
  = (Cluster.members d r) ∖ {[ i ]}.
Proof.
  unfold Shape.removal, Cluster.members. rewrite !exec_cons, exec_nil.
  rewrite set_at_srem.
  rewrite set_at_run_ne by (simpl; apply not_eq_sym, client_ne_members).
  reflexivity.
Qed.

Lemma removal_other_room (i r : string) (d : gmap string Redis.value) (r' : string) :
  r' ≠ r →
  Cluster.members (Redis.exec (Shape.removal i r) d).1 r' = Cluster.members d r'.
Proof.
  intros Hne. unfold Cluster.members. apply set_at_lookup_eq, removal_lookup.
  - apply not_eq_sym, client_ne_members.
  - intros Heq. apply roomMembersKey_inj in Heq. contradiction.
Qed.

Lemma collection_room (r : string) (d : gmap string Redis.value) :
  Cluster.members (Redis.exec (Shape.collection r) d).1 r = ∅.
Proof.
  unfold Shape.collection, Cluster.members. rewrite !exec_cons, exec_nil.
  rewrite set_at_run_ne by (simpl; apply not_eq_sym, index_ne_members).
  apply set_at_del.
Qed.

Lemma collection_other_room (r : string) (d : gmap string Redis.value) (r' : string) :
  r' ≠ r →
  Cluster.members (Redis.exec (Shape.collection r) d).1 r' = Cluster.members d r'.
Proof.
  intros Hne. unfold Cluster.members. apply set_at_lookup_eq, collection_lookup.
  - intros Heq. apply roomMembersKey_inj in Heq. contradiction.
  - apply not_eq_sym, index_ne_members.
Qed.

(** On a consistent registry a removal returns and leaves a consistent
    registry. *)
Lemma consistent_removeClient (i r : string) (s : StateStore.t) :
  Js.truthy i = true → Js.truthy r = true →
  Registry.consistent (StateStore.redis s) →
  outcome_of (StateStore.removeClient (Some i) (Some r) s) = Done tt
  ∧ Registry.consistent
      (StateStore.redis (state_of (StateStore.removeClient (Some i) (Some r) s))).
Proof.
  intros Hi Hr [Htyped Hidx].
  destruct (removeClient_typed i r s Hi Hr Htyped) as (s' & t & Hrun & Htyped' & _).
  pose proof (removeClient_db i r s Hi Hr) as Hdb. simpl in Hdb.
  rewrite Hrun in *. unfold state_of, outcome_of in *. simpl in *.
  split; [reflexivity |]. split; [exact Htyped' |].
  set (d := StateStore.redis s) in *.
  set (d1 := (Redis.exec (Shape.removal i r) d).1) in *.
  intros r'. destruct Hdb as [[-> Hdone] | (-> & _ & Hempty)].
  - unfold d1 at 1. rewrite removal_index.
    destruct (decide (r' = r)) as [-> | Hne].
    + specialize (Hdone eq_refl). split; [intros _; exact Hdone |].
      intros _. apply Hidx. unfold d1 in Hdone.
      change (Cluster.members (Redis.exec (Shape.removal i r) d).1 r ≠ ∅) in Hdone.
      rewrite removal_room in Hdone. set_solver.
    + unfold d1. rewrite (removal_other_room _ _ _ _ Hne). apply Hidx.
  - rewrite collection_index. unfold d1 at 1. rewrite removal_index.
    destruct (decide (r' = r)) as [-> | Hne].
    + rewrite collection_room. set_solver.
    + rewrite (collection_other_room _ _ _ Hne). unfold d1.
      rewrite (removal_other_room _ _ _ _ Hne). specialize (Hidx r'). set_solver.
Qed.

(** What does not touch the index, a member key or a client key keeps the
    registry consistent. *)
Lemma consistent_ext (d d' : gmap string Redis.value) :
  d' !! StateStore.ROOM_INDEX_KEY = d !! StateStore.ROOM_INDEX_KEY →
  (∀ r, d' !! StateStore.roomMembersKey r = d !! StateStore.roomMembersKey r) →
  (∀ i, d' !! StateStore.clientKey i = d !! StateStore.clientKey i) →
  Registry.consistent d → Registry.consistent d'.
Proof.
  intros Hi Hm Hc [(Tidx & Tmem & Tcli) Hidx]. split.
  - split; [| split].
    + intros v. rewrite Hi. apply Tidx.
    + intros r v. rewrite Hm. apply Tmem.
    + intros i v. rewrite Hc. apply Tcli.
  - intros r. unfold Cluster.members.
    rewrite (set_at_lookup_eq d d' _ Hi), (set_at_lookup_eq d d' _ (Hm r)).
    apply Hidx.
Qed.

Lemma setHeartbeat_lookup (now : Z) (connections rooms : nat) (s : StateStore.t)
    (k : string) :
  k ≠ StateStore.serverKey (StateStore.serverId s) →
  StateStore.redis (state_of (StateStore.setHeartbeat now connections rooms s)) !! k
  = StateStore.redis s !! k.
Proof.
  intros Hk. unfold StateStore.setHeartbeat. rewrite bind_get.
  set (key := StateStore.serverKey (StateStore.serverId s)) in *.
  set (c1 := Redis.HSET key _).
  pose proof (call_run c1 s) as Hcall.
  pose proof (run_lookup_ne c1 (StateStore.redis s) k Hk) as H1.
  destruct (Redis.run c1 (StateStore.redis s)) as [d1 rep] eqn:E. simpl in *.
  destruct rep; simpl in Hcall;
    try (rewrite (bind_run _ _ _ _ _ _ Hcall);
         pose proof (call_run (Redis.EXPIRE key 30) (StateStore.with_redis d1 s)) as Hc2;
         unfold Redis.run in Hc2; simpl in Hc2;
         rewrite (bind_run _ _ _ _ _ _ Hc2); exact H1).
  rewrite (bind_thrown _ _ _ _ _ _ Hcall). exact H1.
Qed.

Lemma consistent_delete_server (d : gmap string Redis.value) (sid : string) :
  Registry.consistent d → Registry.consistent (delete (StateStore.serverKey sid) d).
Proof.
  apply consistent_ext.
  - apply lookup_delete_ne, server_ne_index.
  - intros r. apply lookup_delete_ne, server_ne_members.
  - intros i. apply lookup_delete_ne, server_ne_client.
Qed.
Lemma handleLeave_consistent (ws : Ws) (cl : Server.client) (w : Server.world) :
  JsMap.get ws (Server.clients w) = Some cl →
  Room.local_ok w ws →
  Registry.consistent (Room.db w) →
  outcome_of (Server.handleLeave ws w) = Done tt
  ∧ Registry.consistent (Room.db (state_of (Server.handleLeave ws w))).
Proof.
  intros Hcl Hok Hcons. destruct (Hok cl Hcl) as (Hid & _ & _).
  destruct (Js.present (Server.roomId cl)) eqn:Hp.
  - apply present_Some in Hp as (r & Hr & Htr).
    rewrite (handleLeave_run ws cl r w Hcl Hr Htr).
    destruct (consistent_removeClient (Server.id cl) r (Server.stateStore w) Hid Htr Hcons)
      as [Hdone Hcons'].
    destruct (StateStore.removeClient (Some (Server.id cl)) (Some r) (Server.stateStore w))
      as [[s t] [[]|e]]; [| discriminate Hdone].
    split; [reflexivity | exact Hcons'].
  - assert (Server.handleLeave ws w = (w, [], Done tt)) as ->.
    { unfold Server.handleLeave. rewrite bind_get, Hcl, Hp. reflexivity. }
    split; [reflexivity | exact Hcons].
Qed.

Lemma listParticipants_typed (r : string) (s : StateStore.t) :
  Js.truthy r = true →
  Claims.well_typed (StateStore.redis s) →
  ∃ ps, outcome_of (StateStore.listParticipants (Some r) s) = Done ps.
Proof.
  intros Hr (_ & Hmem & _). rewrite (listParticipants_run r s Hr).
  destruct (StateStore.redis s !! StateStore.roomMembersKey r) as [[v|X|h]|] eqn:E.
  - destruct (Hmem _ _ E) as [X HX]. discriminate HX.
  - destruct (bool_decide (length (elements X) = 0)); eexists; reflexivity.
  - destruct (Hmem _ _ E) as [X HX]. discriminate HX.
  - eexists; reflexivity.
Qed.

Lemma handleJoin_consistent (ws : Ws) (cl : Server.client) (message : Msg.t)
    (w : Server.world) :
  JsMap.get ws (Server.clients w) = Some cl →
  Room.local_ok w ws →
  Registry.consistent (Room.db w) →
  outcome_of (Server.handleJoin ws message w) = Done tt
  ∧ Registry.consistent (Room.db (state_of (Server.handleJoin ws message w))).
Proof.
  intros Hcl Hok Hcons. destruct (Hok cl Hcl) as (Hid & _ & _).
  destruct (Js.present (Msg.roomId message)) eqn:Hr;
    [| rewrite (handleJoin_missing_run ws message w (or_introl Hr)), send_run;
       split; [reflexivity | exact Hcons]].
  destruct (Js.present (Msg.role message)) eqn:Hro;
    [| rewrite (handleJoin_missing_run ws message w (or_intror Hro)), send_run;
       split; [reflexivity | exact Hcons]].
  apply present_Some in Hr as (r & Hmr & Hr).
  apply present_Some in Hro as (ro & Hmro & Hro).
  destruct (handleLeave_consistent ws cl w Hcl Hok Hcons) as [Hdone Hcons1].
  destruct (Server.handleLeave ws w) as [[w1 t1] o] eqn:Hleave.
  unfold outcome_of, state_of in Hdone, Hcons1. simpl in Hdone, Hcons1. subst o.
  rewrite <- (when_leave ws cl w Hcl) in Hleave.
  pose proof (handleJoin_run ws cl message r ro w w1 t1 Hcl Hid Hmr Hr Hmro Hro Hleave)
    as Hrun. simpl in Hrun.
  set (cmds := Shape.registration (StateStore.serverId (Server.stateStore w1))
                 (Server.now w) (Server.id cl) r ro) in *.
  set (d2 := (Redis.exec cmds (StateStore.redis (Server.stateStore w1))).1) in *.
  assert (Registry.consistent d2) as Hcons2
    by (apply consistent_registration, Hcons1).
  destruct (listParticipants_typed r (StateStore.with_redis d2 (Server.stateStore w1)) Hr)
    as [ps Hps]; [apply Hcons2 |].
  destruct (StateStore.listParticipants (Some r)
              (StateStore.with_redis d2 (Server.stateStore w1))) as [[s3 t3] o3].
  unfold outcome_of in Hps. simpl in Hps. subst o3.
  rewrite Hrun. split; [reflexivity | exact Hcons2].
Qed.

Lemma getClient_typed (t : option string) (s : StateStore.t) :
  Claims.well_typed (StateStore.redis s) →
  ∃ res, outcome_of (StateStore.getClient t s) = Done res.
Proof.
  intros (_ & _ & Hcli). destruct (Js.present t) eqn:Hp.
  - apply present_Some in Hp as (i & -> & Hi).
    destruct (StateStore.redis s !! StateStore.clientKey i) as [v|] eqn:E.
    + destruct (Hcli _ _ E) as [h ->].
      rewrite (getClient_hash i h s Hi E). eexists. reflexivity.
    + rewrite (getClient_no_hash i s Hi E). eexists. reflexivity.
  - unfold StateStore.getClient. rewrite Hp. eexists. reflexivity.
Qed.

Lemma relayOrSend_typed (ws : Ws) (t : string) (m : outbound)
    (notifyMissing : option bool) (w : Server.world) :
  Claims.well_typed (Room.db w) →
  ∃ b, outcome_of (Server.relayOrSend ws t m notifyMissing w) = Done b.
Proof.
  intros Htyped. unfold Server.relayOrSend. rewrite bind_get.
  destruct (Server.findClientById t (Server.clients w)) as [tws|].
  - rewrite (bind_run _ _ _ _ _ _ (send_run _ _ _)). eexists. reflexivity.
  - pose proof (on_store_run (StateStore.getClient (Some t)) w) as Hget.
    destruct (getClient_typed (Some t) (Server.stateStore w) Htyped) as [res Hres].
    rewrite Hres, getClient_state, with_store_same in Hget.
    rewrite (bind_run _ _ _ _ _ _ Hget).
    destruct (negb (Js.present (res ≫= λ data : gmap string string, data !! "serverId"))).
    + destruct (default true notifyMissing); simpl.
      * rewrite (bind_run _ _ _ _ _ _ (send_run _ _ _)). eexists. reflexivity.
      * eexists. reflexivity.
    + eexists. reflexivity.
Qed.

Lemma bind_outcome_unit {S A} (m : M S A) (s : S) a :
  outcome_of (m s) = Done a →
  outcome_of ((_ ← m; mret tt) s) = Done tt.
Proof.
  intros H. unfold mbind, M_bind, bind. destruct (m s) as [[s1 t1] o].
  simpl in H. subst o. reflexivity.
Qed.

Lemma relay_handlers_typed (ws : Ws) (cl : Server.client) (message : Msg.t)
    (w : Server.world) :
  JsMap.get ws (Server.clients w) = Some cl →
  Claims.well_typed (Room.db w) →
  outcome_of (Server.handleOffer ws message w) = Done tt
  ∧ outcome_of (Server.handleAnswer ws message w) = Done tt
  ∧ outcome_of (Server.handleIceCandidate ws message w) = Done tt.
Proof.
  intros Hcl Htyped. split; [| split].
  - unfold Server.handleOffer. rewrite bind_get, Hcl.
    destruct (negb (Js.present (Msg.targetId message))
              || negb (Js.present_json (Msg.offer message))) eqn:Hv;
      [apply send_outcome |].
    destruct (Msg.offer message) as [o|]; [| simpl in Hv; rewrite orb_true_r in Hv; discriminate Hv].
    destruct (relayOrSend_typed ws (Js.value (Msg.targetId message))
                (Offer (Server.id cl) o) (Some true) w Htyped) as [b Hb].
    apply (bind_outcome_unit _ _ _ Hb).
  - unfold Server.handleAnswer. rewrite bind_get, Hcl.
    destruct (negb (Js.present (Msg.targetId message))
              || negb (Js.present_json (Msg.answer message))) eqn:Hv;
      [apply send_outcome |].
    destruct (Msg.answer message) as [o|]; [| simpl in Hv; rewrite orb_true_r in Hv; discriminate Hv].
    destruct (relayOrSend_typed ws (Js.value (Msg.targetId message))
                (Answer (Server.id cl) o) (Some true) w Htyped) as [b Hb].
    apply (bind_outcome_unit _ _ _ Hb).
  - unfold Server.handleIceCandidate. rewrite bind_get, Hcl.
    destruct (negb (Js.present (Msg.targetId message))
              || negb (Js.present_json (Msg.candidate message))) eqn:Hv;
      [apply send_outcome |].
    destruct (Msg.candidate message) as [o|]; [| simpl in Hv; rewrite orb_true_r in Hv; discriminate Hv].
    destruct (relayOrSend_typed ws (Js.value (Msg.targetId message))
                (IceCandidate (Server.id cl) o) (Some false) w Htyped) as [b Hb].
    apply (bind_outcome_unit _ _ _ Hb).
Qed.

(** On a consistent registry, a message of a connected client is handled
    without an exception and leaves the registry consistent. *)
Lemma handleMessage_consistent (ws : Ws) (cl : Server.client) (message : Msg.t)
    (w : Server.world) :
  JsMap.get ws (Server.clients w) = Some cl →
  Room.local_ok w ws →
  Registry.consistent (Room.db w) →
  outcome_of (Server.handleMessage ws message w) = Done tt
  ∧ Registry.consistent (Room.db (state_of (Server.handleMessage ws message w))).
Proof.
  intros Hcl Hok Hcons.
  destruct (relay_handlers_state ws message w) as (So & Sa & Si).
  destruct (relay_handlers_typed ws cl message w Hcl (proj1 Hcons)) as (Oo & Oa & Oi).
  rewrite (handleMessage_dispatch ws cl message w _ Hcl eq_refl). simpl.
  repeat case_decide.
  - apply (handleJoin_consistent ws cl message w Hcl Hok Hcons).
  - rewrite So. split; [exact Oo | exact Hcons].
  - rewrite Sa. split; [exact Oa | exact Hcons].
  - rewrite Si. split; [exact Oi | exact Hcons].
  - apply (handleLeave_consistent ws cl w Hcl Hok Hcons).
  - rewrite send_run. split; [reflexivity | exact Hcons].
Qed.

Lemma handler_consistent (e : Cluster.event) (w : Server.world) :
  (∀ ws, Room.local_ok w ws) →
  Registry.consistent (Room.db w) →
  Registry.consistent (Room.db (state_of (Cluster.handler e w))).
Proof.
  intros Hok Hcons. destruct e as [ws clientId | ws data | ws | payload |]; simpl.
  - unfold Server.on_connection. rewrite bind_modify, send_run. exact Hcons.
  - unfold Server.on_message.
    rewrite catch_state by (intros; apply send_state).
    destruct data as [message|]; [| exact Hcons].
    destruct (JsMap.get ws (Server.clients w)) as [cl|] eqn:Hcl.
    + apply (handleMessage_consistent ws cl message w Hcl (Hok ws) Hcons).
    + unfold Server.handleMessage. rewrite bind_get, Hcl. exact Hcons.
  - unfold Server.on_close. rewrite catch_state by reflexivity.
    unfold Server.handleDisconnect. rewrite bind_get.
    destruct (JsMap.get ws (Server.clients w)) as [cl|] eqn:Hcl; [| exact Hcons].
    destruct (handleLeave_consistent ws cl w Hcl (Hok ws) Hcons) as [Hdone Hcons1].
    destruct (Server.handleLeave ws w) as [[w1 t1] o] eqn:Hleave.
    unfold outcome_of, state_of in Hdone, Hcons1. simpl in Hdone, Hcons1. subst o.
    rewrite (bind_run _ _ _ _ _ _ Hleave). exact Hcons1.
  - unfold Server.on_relay. rewrite catch_state by reflexivity.
    unfold Server.handleRelayDelivery. rewrite bind_get.
    destruct payload as [p|]; [| exact Hcons].
    repeat (case_bool_decide; [exact Hcons |]).
    destruct (targetId p ≫= λ t, Server.findClientById t (Server.clients w));
      [| exact Hcons].
    destruct (message p); [rewrite send_state |]; exact Hcons.
  - unfold Server.on_heartbeat. rewrite bind_get.
    rewrite catch_state by reflexivity. rewrite on_store_run. unfold state_of at 1. simpl.
    revert Hcons. apply consistent_ext.
    + apply setHeartbeat_lookup, not_eq_sym, server_ne_index.
    + intros r. apply setHeartbeat_lookup, not_eq_sym, server_ne_members.
    + intros i. apply setHeartbeat_lookup, not_eq_sym, server_ne_client.
Qed.

Lemma consistent_step (c c' : Cluster.t) :
  Room.invariant c → Registry.consistent (Cluster.redis c) →
  Cluster.step c c' → Registry.consistent (Cluster.redis c').
Proof.
  intros Hinv Hcons Hstep.
  destruct Hstep as [c i n rs now e w' tr o Hn Hadm Hrun | c i n serverId Hn | c serverId];
    simpl.
  - pose proof (handler_consistent e (Cluster.world_of c n rs now)
                  (λ ws, invariant_local c i n rs now ws Hinv Hn) Hcons) as H.
    rewrite Hrun in H. exact H.
  - apply consistent_delete_server, Hcons.
  - apply consistent_delete_server, Hcons.
Qed.

Lemma consistent_init (serverIds : list string) :
  Registry.consistent (Cluster.redis (Cluster.init serverIds)).
Proof.
  split.
  - split; [| split]; intros; simpl in *; rewrite lookup_empty in *; discriminate.
  - intros r. unfold Cluster.members, Redis.set_at. simpl. rewrite !lookup_empty.
    set_solver.
Qed.

Lemma reachable_consistent (c : Cluster.t) :
  Cluster.reachable c → Registry.consistent (Cluster.redis c).
Proof.
  induction 1 as [serverIds | c c' Hreach IH Hstep].
  - apply consistent_init.
  - apply (consistent_step c c' (reachable_invariant c Hreach) IH Hstep).
Qed.
(** ** The room map groups the connections *)

Lemma JsSet_elem_of_delete (ws x : Ws) (s : list Ws) :
  x ∈ JsSet.delete ws s ↔ x ∈ s ∧ x ≠ ws.
Proof. unfold JsSet.delete. rewrite list_elem_of_filter. tauto. Qed.

Lemma JsSet_NoDup_delete (ws : Ws) (s : list Ws) : NoDup s → NoDup (JsSet.delete ws s).
Proof. apply NoDup_filter. Qed.

Lemma JsSet_elem_of_add (ws x : Ws) (s : list Ws) :
  x ∈ JsSet.add ws s ↔ x = ws ∨ x ∈ s.
Proof.
  unfold JsSet.add. destruct (decide (ws ∈ s)) as [Hin | Hout].
  - split; [auto | intros [-> | H]; assumption].
  - rewrite elem_of_app, list_elem_of_singleton. tauto.
Qed.

Lemma JsSet_NoDup_add (ws : Ws) (s : list Ws) : NoDup s → NoDup (JsSet.add ws s).
Proof.
  intros Hs. unfold JsSet.add. destruct (decide (ws ∈ s)) as [Hin | Hout]; [exact Hs |].
  apply NoDup_app. split; [exact Hs |]. split.
  - intros x Hx Hx'. apply list_elem_of_singleton in Hx'. subst x. contradiction.
  - apply NoDup_singleton.
Qed.

Lemma JsMap_get_None {A} (ws : Ws) (m : list (Ws * A)) :
  JsMap.get ws m = None ↔ ws ∉ m.*1.
Proof.
  induction m as [|[k v] m IH].
  - split; [intros _ H; inversion H | reflexivity].
  - rewrite fmap_cons. cbn [JsMap.get fst].
    destruct (decide (k = ws)) as [-> | Hne].
    + split; [discriminate | intros H; exfalso; apply H; left].
    + rewrite IH. rewrite not_elem_of_cons.
      split; [intros H; split; [congruence | exact H] | tauto].
Qed.

Lemma JsMap_keys_mutate {A} (ws : Ws) (f : A → A) (m : list (Ws * A)) :
  (JsMap.mutate ws f m).*1 = m.*1.
Proof.
  induction m as [|[k v] m IH]; [reflexivity |]. cbn [JsMap.mutate].
  destruct (decide (k = ws)); rewrite !fmap_cons; [reflexivity |].
  rewrite IH. reflexivity.
Qed.

Lemma JsMap_keys_set {A} (ws : Ws) (v : A) (m : list (Ws * A)) :
  ws ∉ m.*1 → (JsMap.set ws v m).*1 = m.*1 ++ [ws].
Proof.
  induction m as [|[k v'] m IH]; [reflexivity |]. rewrite fmap_cons. intros Hout.
  apply not_elem_of_cons in Hout as [Hne Hout]. cbn [JsMap.set].
  rewrite decide_False by (cbn [fst] in Hne; congruence).
  rewrite !fmap_cons, IH by exact Hout. reflexivity.
Qed.

Lemma JsMap_keys_delete {A} (ws : Ws) (m : list (Ws * A)) :
  (JsMap.delete ws m).*1 = filter (λ k, k ≠ ws) m.*1.
Proof.
  induction m as [|[k v] m IH]; [reflexivity |].
  rewrite fmap_cons, filter_cons. cbn [JsMap.delete fst].
  destruct (decide (k = ws)) as [-> | Hne].
  - rewrite decide_False by tauto. exact IH.
  - rewrite decide_True by exact Hne. rewrite fmap_cons, IH. reflexivity.
Qed.

(** A client in no room is in no room's socket set. *)
Lemma grouped_roomless (clients : list (Ws * Server.client))
    (rooms : gmap string (list Ws)) (ws : Ws) :
  Local.grouped clients rooms →
  (∀ cl, JsMap.get ws clients = Some cl → Server.roomId cl = None) →
  ∀ r room, rooms !! r = Some room → ws ∉ room.
Proof.
  intros (G1 & _ & _) Hnone r room Hroom Hin.
  destruct (G1 r room Hroom) as (_ & _ & _ & Hall).
  destruct (Hall ws Hin) as (cl & Hcl & Hr).
  rewrite (Hnone cl Hcl) in Hr. discriminate Hr.
Qed.

Lemma grouped_leave (clients : list (Ws * Server.client))
    (rooms : gmap string (list Ws)) (ws : Ws) (cl : Server.client) (r : string) :
  Local.grouped clients rooms →
  JsMap.get ws clients = Some cl → Server.roomId cl = Some r →
  Local.grouped (JsMap.mutate ws Shape.cleared clients) (Shape.rooms_without ws r rooms).
Proof.
  intros (G1 & G2 & G3) Hcl Hr.
  destruct (G2 ws cl r Hcl Hr) as (room & Hroom & Hin).
  destruct (G1 r room Hroom) as (Htr & _ & Hnd & Hall).
  assert (∀ r0 room0, Shape.rooms_without ws r rooms !! r0 = Some room0 →
            (r0 = r ∧ room0 = JsSet.delete ws room ∧ room0 ≠ [])
            ∨ (r0 ≠ r ∧ rooms !! r0 = Some room0)) as Hcases.
  { intros r0 room0. unfold Shape.rooms_without. rewrite Hroom.
    destruct (bool_decide_reflect (length (JsSet.delete ws room) = 0)) as [Hz | Hnz].
    - destruct (decide (r0 = r)) as [-> | Hne].
      + rewrite lookup_delete_eq. discriminate.
      + rewrite lookup_delete_ne by congruence. auto.
    - destruct (decide (r0 = r)) as [-> | Hne].
      + rewrite lookup_insert_eq. intros [= <-]. left.
        split; [reflexivity |]. split; [reflexivity |].
        intros Hnil. apply Hnz. rewrite Hnil. reflexivity.
      + rewrite lookup_insert_ne by congruence. auto. }
  split; [| split].
  - intros r0 room0 H0. destruct (Hcases r0 room0 H0) as [(-> & -> & Hne) | [Hne Hold]].
    + split; [exact Htr |]. split; [exact Hne |].
      split; [apply JsSet_NoDup_delete, Hnd |].
      intros ws0 Hin0. apply JsSet_elem_of_delete in Hin0 as [Hin0 Hne0].
      destruct (Hall ws0 Hin0) as (cl0 & Hcl0 & Hr0).
      exists cl0. rewrite JsMap_get_mutate, decide_False by exact Hne0. auto.
    + destruct (G1 r0 room0 Hold) as (Htr0 & Hne0 & Hnd0 & Hall0).
      split; [exact Htr0 |]. split; [exact Hne0 |]. split; [exact Hnd0 |].
      intros ws0 Hin0. destruct (Hall0 ws0 Hin0) as (cl0 & Hcl0 & Hr0).
      assert (ws0 ≠ ws) as Hws by (intros ->; congruence).
      exists cl0. rewrite JsMap_get_mutate, decide_False by exact Hws. auto.
  - intros ws1 cl1 r1. rewrite JsMap_get_mutate.
    destruct (decide (ws1 = ws)) as [-> | Hws].
    + rewrite Hcl. simpl. intros [= <-]. discriminate.
    + intros Hcl1 Hr1. destruct (G2 ws1 cl1 r1 Hcl1 Hr1) as (room1 & Hroom1 & Hin1).
      unfold Shape.rooms_without. rewrite Hroom.
      destruct (decide (r1 = r)) as [-> | Hne].
      * rewrite Hroom in Hroom1. injection Hroom1 as <-.
        assert (ws1 ∈ JsSet.delete ws room) as Hin'
          by (apply JsSet_elem_of_delete; auto).
        rewrite bool_decide_eq_false_2.
        -- exists (JsSet.delete ws room). rewrite lookup_insert_eq. auto.
        -- intros Hz. apply nil_length_inv in Hz. rewrite Hz in Hin'. inversion Hin'.
      * exists room1. split; [| exact Hin1].
        destruct (bool_decide (length (JsSet.delete ws room) = 0)).
        -- rewrite lookup_delete_ne by congruence. exact Hroom1.
        -- rewrite lookup_insert_ne by congruence. exact Hroom1.
  - rewrite JsMap_keys_mutate. exact G3.
Qed.

Lemma grouped_join (clients : list (Ws * Server.client))
    (rooms : gmap string (list Ws)) (ws : Ws) (cl : Server.client) (r ro : string) :
  Local.grouped clients rooms →
  JsMap.get ws clients = Some cl → Server.roomId cl = None →
  Js.truthy r = true →
  Local.grouped (JsMap.mutate ws (Shape.entered r ro) clients)
    (Shape.rooms_with ws r rooms).
Proof.
  intros Hg Hcl Hnone Htr.
  pose proof (grouped_roomless clients rooms ws Hg) as Hout.
  assert (∀ r0 room0, rooms !! r0 = Some room0 → ws ∉ room0) as Hfree.
  { apply Hout. intros cl0 Hcl0. congruence. }
  destruct Hg as (G1 & G2 & G3).
  set (old := default [] (rooms !! r)).
  assert (ws ∉ old) as Hold.
  { unfold old. destruct (rooms !! r) as [room|] eqn:E; simpl.
    - apply (Hfree r room E).
    - intros H. inversion H. }
  assert (NoDup old ∧ ∀ ws0, ws0 ∈ old →
            ∃ cl0, JsMap.get ws0 clients = Some cl0 ∧ Server.roomId cl0 = Some r)
    as [Hnd Hall].
  { unfold old. destruct (rooms !! r) as [room|] eqn:E; simpl.
    - destruct (G1 r room E) as (_ & _ & Hnd & Hall). auto.
    - split; [apply NoDup_nil_2 | intros ws0 H; inversion H]. }
  split; [| split].
  - intros r0 room0. unfold Shape.rooms_with. fold old.
    destruct (decide (r0 = r)) as [-> | Hne].
    + rewrite lookup_insert_eq. intros [= <-].
      split; [exact Htr |]. split.
      { intros Hnil. assert (ws ∈ JsSet.add ws old) as Hin
          by (apply JsSet_elem_of_add; auto).
        rewrite Hnil in Hin. inversion Hin. }
      split; [apply JsSet_NoDup_add, Hnd |].
      intros ws0 Hin0. apply JsSet_elem_of_add in Hin0 as [-> | Hin0].
      * exists (Shape.entered r ro cl).
        rewrite JsMap_get_mutate, decide_True by reflexivity. rewrite Hcl. auto.
      * destruct (Hall ws0 Hin0) as (cl0 & Hcl0 & Hr0).
        assert (ws0 ≠ ws) as Hws by (intros ->; contradiction).
        exists cl0. rewrite JsMap_get_mutate, decide_False by exact Hws. auto.
    + rewrite lookup_insert_ne by congruence. intros Hroom0.
      destruct (G1 r0 room0 Hroom0) as (Htr0 & Hne0 & Hnd0 & Hall0).
      split; [exact Htr0 |]. split; [exact Hne0 |]. split; [exact Hnd0 |].
      intros ws0 Hin0. destruct (Hall0 ws0 Hin0) as (cl0 & Hcl0 & Hr0).
      assert (ws0 ≠ ws) as Hws by (intros ->; exact (Hfree r0 room0 Hroom0 Hin0)).
      exists cl0. rewrite JsMap_get_mutate, decide_False by exact Hws. auto.
  - intros ws1 cl1 r1. rewrite JsMap_get_mutate. unfold Shape.rooms_with. fold old.
    destruct (decide (ws1 = ws)) as [-> | Hws].
    + rewrite Hcl. simpl. intros [= <-]. simpl. intros [= <-].
      exists (JsSet.add ws old). rewrite lookup_insert_eq.
      split; [reflexivity | apply JsSet_elem_of_add; auto].
    + intros Hcl1 Hr1. destruct (G2 ws1 cl1 r1 Hcl1 Hr1) as (room1 & Hroom1 & Hin1).
      destruct (decide (r1 = r)) as [-> | Hne].
      * exists (JsSet.add ws old). rewrite lookup_insert_eq. split; [reflexivity |].
        apply JsSet_elem_of_add. right. unfold old. rewrite Hroom1. exact Hin1.
      * exists room1. rewrite lookup_insert_ne by congruence. auto.
  - rewrite JsMap_keys_mutate. exact G3.
Qed.

Lemma grouped_disconnect (clients : list (Ws * Server.client))
    (rooms : gmap string (list Ws)) (ws : Ws) :
  Local.grouped clients rooms →
  (∀ cl, JsMap.get ws clients = Some cl → Server.roomId cl = None) →
  Local.grouped (JsMap.delete ws clients) rooms.
Proof.
  intros Hg Hnone.
  pose proof (grouped_roomless clients rooms ws Hg Hnone) as Hfree.
  destruct Hg as (G1 & G2 & G3).
  split; [| split].
  - intros r0 room0 Hroom0.
    destruct (G1 r0 room0 Hroom0) as (Htr0 & Hne0 & Hnd0 & Hall0).
    split; [exact Htr0 |]. split; [exact Hne0 |]. split; [exact Hnd0 |].
    intros ws0 Hin0. destruct (Hall0 ws0 Hin0) as (cl0 & Hcl0 & Hr0).
    assert (ws0 ≠ ws) as Hws by (intros ->; exact (Hfree r0 room0 Hroom0 Hin0)).
    exists cl0. rewrite JsMap_get_delete, decide_False by exact Hws. auto.
  - intros ws1 cl1 r1. rewrite JsMap_get_delete.
    destruct (decide (ws1 = ws)); [discriminate | apply G2].
  - rewrite JsMap_keys_delete. apply NoDup_filter, G3.
Qed.

Lemma grouped_connect (clients : list (Ws * Server.client))
    (rooms : gmap string (list Ws)) (ws : Ws) (clientId : string) :
  Local.grouped clients rooms →
  JsMap.get ws clients = None →
  Local.grouped
    (JsMap.set ws {| Server.id := clientId; Server.roomId := None;
                     Server.role := None |} clients) rooms.
Proof.
  intros (G1 & G2 & G3) Hnew.
  split; [| split].
  - intros r0 room0 Hroom0.
    destruct (G1 r0 room0 Hroom0) as (Htr0 & Hne0 & Hnd0 & Hall0).
    split; [exact Htr0 |]. split; [exact Hne0 |]. split; [exact Hnd0 |].
    intros ws0 Hin0. destruct (Hall0 ws0 Hin0) as (cl0 & Hcl0 & Hr0).
    assert (ws0 ≠ ws) as Hws by (intros ->; congruence).
    exists cl0. rewrite JsMap_get_set, decide_False by exact Hws. auto.
  - intros ws1 cl1 r1. rewrite JsMap_get_set.
    destruct (decide (ws1 = ws)); [intros [= <-]; discriminate | apply G2].
  - apply JsMap_get_None in Hnew. rewrite (JsMap_keys_set _ _ _ Hnew).
    apply NoDup_app. split; [exact G3 |]. split.
    + intros x Hx Hx'. apply list_elem_of_singleton in Hx'. subst x. contradiction.
    + apply NoDup_singleton.
Qed.
Lemma handleLeave_grouped (ws : Ws) (cl : Server.client) (w : Server.world) :
  JsMap.get ws (Server.clients w) = Some cl →
  Room.local_ok w ws →
  Registry.consistent (Room.db w) →
  Local.grouped (Server.clients w) (Server.rooms w) →
  let w1 := state_of (Server.handleLeave ws w) in
  Local.grouped (Server.clients w1) (Server.rooms w1)
  ∧ ∃ cl1, JsMap.get ws (Server.clients w1) = Some cl1 ∧ Server.roomId cl1 = None.
Proof.
  intros Hcl Hok Hcons Hg. destruct (Hok cl Hcl) as (Hid & Hroom & _).
  destruct (Js.present (Server.roomId cl)) eqn:Hp.
  - apply present_Some in Hp as (r & Hr & Htr).
    simpl. rewrite (handleLeave_run ws cl r w Hcl Hr Htr).
    destruct (consistent_removeClient (Server.id cl) r (Server.stateStore w) Hid Htr Hcons)
      as [Hdone _].
    destruct (StateStore.removeClient (Some (Server.id cl)) (Some r) (Server.stateStore w))
      as [[s t] [[]|e]]; [| discriminate Hdone].
    unfold state_of. simpl. split; [apply (grouped_leave _ _ ws cl r Hg Hcl Hr) |].
    exists (Shape.cleared cl). rewrite JsMap_get_mutate, decide_True by reflexivity.
    rewrite Hcl. auto.
  - assert (Server.handleLeave ws w = (w, [], Done tt)) as ->.
    { unfold Server.handleLeave. rewrite bind_get, Hcl, Hp. reflexivity. }
    simpl. split; [exact Hg |]. exists cl. split; [exact Hcl |].
    destruct Hroom as [Hnone | Hpresent]; [exact Hnone | congruence].
Qed.

Lemma handleJoin_grouped (ws : Ws) (cl : Server.client) (message : Msg.t)
    (w : Server.world) :
  JsMap.get ws (Server.clients w) = Some cl →
  Room.local_ok w ws →
  Registry.consistent (Room.db w) →
  Local.grouped (Server.clients w) (Server.rooms w) →
  let w2 := state_of (Server.handleJoin ws message w) in
  Local.grouped (Server.clients w2) (Server.rooms w2).
Proof.
  intros Hcl Hok Hcons Hg. destruct (Hok cl Hcl) as (Hid & _ & _).
  destruct (Js.present (Msg.roomId message)) eqn:Hr;
    [| simpl; rewrite (handleJoin_missing_run ws message w (or_introl Hr)), send_run;
       exact Hg].
  destruct (Js.present (Msg.role message)) eqn:Hro;
    [| simpl; rewrite (handleJoin_missing_run ws message w (or_intror Hro)), send_run;
       exact Hg].
  apply present_Some in Hr as (r & Hmr & Hr).
  apply present_Some in Hro as (ro & Hmro & Hro).
  destruct (handleLeave_consistent ws cl w Hcl Hok Hcons) as [Hdone _].
  destruct (handleLeave_grouped ws cl w Hcl Hok Hcons Hg) as [Hg1 (cl1 & Hcl1 & Hnone1)].
  destruct (Server.handleLeave ws w) as [[w1 t1] o] eqn:Hleave.
  unfold outcome_of, state_of in Hdone, Hg1, Hcl1. simpl in Hdone, Hg1, Hcl1. subst o.
  rewrite <- (when_leave ws cl w Hcl) in Hleave.
  pose proof (handleJoin_run ws cl message r ro w w1 t1 Hcl Hid Hmr Hr Hmro Hro Hleave)
    as Hrun. simpl in Hrun. simpl. rewrite Hrun.
  destruct (StateStore.listParticipants _ _) as [[s3 t3] [ps|e]];
    unfold state_of; simpl; apply (grouped_join _ _ ws cl1 r ro Hg1 Hcl1 Hnone1 Hr).
Qed.

Lemma handler_grouped (e : Cluster.event) (w : Server.world) :
  (∀ ws, Room.local_ok w ws) →
  Registry.consistent (Room.db w) →
  (∀ ws clientId, e = Cluster.Connect ws clientId →
     JsMap.get ws (Server.clients w) = None) →
  Local.grouped (Server.clients w) (Server.rooms w) →
  let w' := state_of (Cluster.handler e w) in
  Local.grouped (Server.clients w') (Server.rooms w').
Proof.
  intros Hok Hcons Hadm Hg.
  destruct e as [ws clientId | ws data | ws | payload |]; simpl.
  - unfold Server.on_connection. rewrite bind_modify, send_run. unfold state_of. simpl.
    apply grouped_connect; [exact Hg | apply (Hadm ws clientId eq_refl)].
  - unfold Server.on_message.
    rewrite catch_state by (intros; apply send_state).
    destruct data as [message|]; [| exact Hg].
    destruct (JsMap.get ws (Server.clients w)) as [cl|] eqn:Hcl.
    + destruct (relay_handlers_state ws message w) as (So & Sa & Si).
      rewrite (handleMessage_dispatch ws cl message w _ Hcl eq_refl). simpl.
      repeat case_decide.
      * apply (handleJoin_grouped ws cl message w Hcl (Hok ws) Hcons Hg).
      * rewrite So. exact Hg.
      * rewrite Sa. exact Hg.
      * rewrite Si. exact Hg.
      * apply (handleLeave_grouped ws cl w Hcl (Hok ws) Hcons Hg).
      * rewrite send_run. exact Hg.
    + unfold Server.handleMessage. rewrite bind_get, Hcl. exact Hg.
  - unfold Server.on_close. rewrite catch_state by reflexivity.
    unfold Server.handleDisconnect. rewrite bind_get.
    destruct (JsMap.get ws (Server.clients w)) as [cl|] eqn:Hcl; [| exact Hg].
    destruct (handleLeave_consistent ws cl w Hcl (Hok ws) Hcons) as [Hdone _].
    destruct (handleLeave_grouped ws cl w Hcl (Hok ws) Hcons Hg)
      as [Hg1 (cl1 & Hcl1 & Hnone1)].
    destruct (Server.handleLeave ws w) as [[w1 t1] o] eqn:Hleave.
    unfold outcome_of, state_of in Hdone, Hg1, Hcl1. simpl in Hdone, Hg1, Hcl1. subst o.
    rewrite (bind_run _ _ _ _ _ _ Hleave). unfold modify, state_of. simpl.
    apply grouped_disconnect; [exact Hg1 |].
    intros cl0 Hcl0. congruence.
  - unfold Server.on_relay. rewrite catch_state by reflexivity.
    unfold Server.handleRelayDelivery. rewrite bind_get.
    destruct payload as [p|]; [| exact Hg].
    repeat (case_bool_decide; [exact Hg |]).
    destruct (targetId p ≫= λ t, Server.findClientById t (Server.clients w));
      [| exact Hg].
    destruct (message p); [rewrite send_state |]; exact Hg.
  - unfold Server.on_heartbeat. rewrite bind_get.
    rewrite catch_state by reflexivity. rewrite on_store_run. exact Hg.
Qed.

(** Every node of the cluster groups its connections. *)
Lemma grouped_step (c c' : Cluster.t) :
  Room.invariant c → Registry.consistent (Cluster.redis c) →
  (∀ i n, Cluster.nodes c !! i = Some n →
     Local.grouped (Cluster.n_clients n) (Cluster.n_rooms n)) →
  Cluster.step c c' →
  ∀ i n, Cluster.nodes c' !! i = Some n →
    Local.grouped (Cluster.n_clients n) (Cluster.n_rooms n).
Proof.
  intros Hinv Hcons Hall Hstep.
  destruct Hstep as [c i n rs now e w' tr o Hn Hadm Hrun | c i n serverId Hn | c serverId];
    simpl; intros j m Hm.
  - destruct (decide (j = i)) as [-> | Hne].
    + rewrite list_lookup_insert_eq in Hm by (apply lookup_lt_is_Some; eauto).
      injection Hm as <-. simpl.
      pose proof (handler_grouped e (Cluster.world_of c n rs now)
                    (λ ws, invariant_local c i n rs now ws Hinv Hn) Hcons) as H.
      rewrite Hrun in H. apply H; [| apply (Hall i n Hn)].
      intros ws clientId ->. apply Hadm.
    + rewrite list_lookup_insert_ne in Hm by congruence. apply (Hall j m Hm).
  - destruct (decide (j = i)) as [-> | Hne].
    + rewrite list_lookup_insert_eq in Hm by (apply lookup_lt_is_Some; eauto).
      injection Hm as <-. simpl.
      split; [| split].
      * intros r room. rewrite lookup_empty. discriminate.
      * intros ws cl r H. inversion H.
      * apply NoDup_nil_2.
    + rewrite list_lookup_insert_ne in Hm by congruence. apply (Hall j m Hm).
  - apply (Hall j m Hm).
Qed.

Lemma reachable_grouped (c : Cluster.t) :
  Cluster.reachable c →
  ∀ i n, Cluster.nodes c !! i = Some n →
    Local.grouped (Cluster.n_clients n) (Cluster.n_rooms n).
Proof.
  induction 1 as [serverIds | c c' Hreach IH Hstep].
  - intros i n Hn. unfold Cluster.init in Hn. simpl in Hn.
    apply list_lookup_fmap_Some in Hn as (sid & -> & _). simpl.
    split; [| split].
    + intros r room. rewrite lookup_empty. discriminate.
    + intros ws cl r H. inversion H.
    + apply NoDup_nil_2.
  - apply (grouped_step c c' (reachable_invariant c Hreach)
             (reachable_consistent c Hreach) IH Hstep).
Qed.
(** ** Reachable clusters *)






Lemma JsMap_get_elem_of {A} (ws : Ws) (v : A) (m : list (Ws * A)) :
  JsMap.get ws m = Some v → (ws, v) ∈ m.
Proof.
  induction m as [|[k v'] m IH]; [discriminate |]. cbn [JsMap.get].
  destruct (decide (k = ws)) as [-> | Hne].
  - intros [= ->]. left.
  - intros H. right. apply IH, H.
Qed.

Lemma JsMap_elem_of_get {A} (ws : Ws) (v : A) (m : list (Ws * A)) :
  NoDup m.*1 → (ws, v) ∈ m → JsMap.get ws m = Some v.
Proof.
  induction m as [|[k v'] m IH]; [intros _ H; inversion H |].
  rewrite fmap_cons. cbn [fst JsMap.get]. intros Hnd Hin.
  apply NoDup_cons in Hnd as [Hk Hnd].
  apply elem_of_cons in Hin as [[= -> ->] | Hin].
  - rewrite decide_True by reflexivity. reflexivity.
  - destruct (decide (k = ws)) as [-> | Hne]; [| apply IH; assumption].
    exfalso. apply Hk. apply list_elem_of_fmap. exists (ws, v). auto.
Qed.

Lemma grouped_occupied (clients : list (Ws * Server.client))
    (rooms : gmap string (list Ws)) :
  Local.grouped clients rooms → dom rooms = Local.occupied clients.
Proof.
  intros (G1 & G2 & G3). apply set_eq. intros r.
  unfold Local.occupied. rewrite elem_of_dom, elem_of_list_to_set, list_elem_of_omap.
  split.
  - intros [room Hroom]. destruct (G1 r room Hroom) as (_ & Hne & _ & Hall).
    destruct room as [|ws room]; [congruence |].
    destruct (Hall ws) as (cl & Hcl & Hr); [left |].
    exists (ws, cl). split; [apply JsMap_get_elem_of, Hcl | exact Hr].
  - intros ([ws cl] & Hin & Hr). simpl in Hr.
    destruct (G2 ws cl r (JsMap_elem_of_get ws cl clients G3 Hin) Hr) as (room & Hroom & _).
    exists room. exact Hroom.
Qed.


(** ** The registry mirrors the connected clients *)

Lemma removeClient_frame (i r : string) (s : StateStore.t) (x : string) :
  Js.truthy i = true → Js.truthy r = true → x ≠ i →
  let d' := StateStore.redis (state_of (StateStore.removeClient (Some i) (Some r) s)) in
  d' !! StateStore.clientKey x = StateStore.redis s !! StateStore.clientKey x
  ∧ ∀ r', x ∈ Cluster.members d' r' ↔ x ∈ Cluster.members (StateStore.redis s) r'.
Proof.
  intros Hi Hr Hx d'.
  set (d := StateStore.redis s).
  set (d1 := (Redis.exec (Shape.removal i r) d).1).
  assert (d1 !! StateStore.clientKey x = d !! StateStore.clientKey x) as Hk1.
  { apply removal_lookup.
    - intros Heq. apply clientKey_inj in Heq. contradiction.
    - apply client_ne_members. }
  assert (∀ r', x ∈ Cluster.members d1 r' ↔ x ∈ Cluster.members d r') as Hm1.
  { intros r'. destruct (decide (r' = r)) as [-> | Hne].
    - unfold d1. rewrite removal_room. set_solver.
    - unfold d1. rewrite (removal_other_room _ _ _ _ Hne). reflexivity. }
  destruct (removeClient_db i r s Hi Hr) as [[Hd' _] | (Hd' & _ & Hempty)];
    fold d d1 in Hd'; fold d' in Hd'; rewrite Hd'.
  - split; [exact Hk1 | exact Hm1].
  - fold d d1 in Hempty. split.
    + rewrite collection_lookup;
        [exact Hk1 | apply client_ne_members | apply client_ne_index].
    + intros r'. destruct (decide (r' = r)) as [-> | Hne].
      * rewrite collection_room. rewrite <- Hm1.
        change (Cluster.members d1 r) with (Redis.set_at d1 (StateStore.roomMembersKey r)).
        rewrite Hempty. reflexivity.
      * rewrite (collection_other_room _ _ _ Hne). apply Hm1.
Qed.

Lemma removeClient_own (i r : string) (s : StateStore.t) :
  Js.truthy i = true → Js.truthy r = true →
  StateStore.redis (state_of (StateStore.removeClient (Some i) (Some r) s))
  !! StateStore.clientKey i = None.
Proof.
  intros Hi Hr.
  destruct (removeClient_db i r s Hi Hr) as [[Hd' _] | (Hd' & _ & _)]; rewrite Hd'.
  - apply removal_client.
  - rewrite collection_lookup;
      [apply removal_client | apply client_ne_members | apply client_ne_index].
Qed.

Lemma registration_frame sid now (i r ro : string) (d : gmap string Redis.value)
    (x : string) :
  Claims.well_typed d → x ≠ i →
  let d' := (Redis.exec (Shape.registration sid now i r ro) d).1 in
  d' !! StateStore.clientKey x = d !! StateStore.clientKey x
  ∧ ∀ r', x ∈ Cluster.members d' r' ↔ x ∈ Cluster.members d r'.
Proof.
  intros Htyped Hx d'. split.
  - apply registration_lookup.
    + apply client_ne_index.
    + apply client_ne_members.
    + intros Heq. apply clientKey_inj in Heq. contradiction.
  - intros r'. unfold d'. destruct (decide (r' = r)) as [-> | Hne].
    + rewrite (registration_room _ _ _ _ _ _ Htyped). set_solver.
    + rewrite (registration_other_room _ _ _ _ _ _ _ Hne). reflexivity.
Qed.

Lemma recorded_frame (d d' : gmap string Redis.value) (sid : string)
    (cl : Server.client) :
  d' !! StateStore.clientKey (Server.id cl) = d !! StateStore.clientKey (Server.id cl) →
  (∀ r, Server.id cl ∈ Cluster.members d' r ↔ Server.id cl ∈ Cluster.members d r) →
  Registry.recorded d sid cl → Registry.recorded d' sid cl.
Proof.
  intros Hk Hm. unfold Registry.recorded, Claims.field_at. rewrite Hk.
  destruct (Server.roomId cl) as [r|]; [| tauto].
  rewrite Hm. tauto.
Qed.

(** Leaving: the registry changes for the leaving client only, and a
    client that was in a room has no hash left. *)
Lemma handleLeave_mirror (ws : Ws) (cl : Server.client) (w : Server.world) :
  JsMap.get ws (Server.clients w) = Some cl →
  Room.local_ok w ws →
  Registry.consistent (Room.db w) →
  let w1 := state_of (Server.handleLeave ws w) in
  (∀ x, x ≠ Server.id cl →
     Room.db w1 !! StateStore.clientKey x = Room.db w !! StateStore.clientKey x
     ∧ ∀ r, x ∈ Cluster.members (Room.db w1) r ↔ x ∈ Cluster.members (Room.db w) r)
  ∧ (Registry.recorded (Room.db w) (Claims.self w) cl →
     Room.db w1 !! StateStore.clientKey (Server.id cl) = None)
  ∧ ∃ cl1, JsMap.get ws (Server.clients w1) = Some cl1
           ∧ Server.id cl1 = Server.id cl ∧ Server.roomId cl1 = None.
Proof.
  intros Hcl Hok Hcons w1. destruct (Hok cl Hcl) as (Hid & Hroom & _).
  destruct (Js.present (Server.roomId cl)) eqn:Hp.
  - apply present_Some in Hp as (r & Hr & Htr).
    unfold w1. rewrite (handleLeave_run ws cl r w Hcl Hr Htr).
    destruct (consistent_removeClient (Server.id cl) r (Server.stateStore w) Hid Htr Hcons)
      as [Hdone _].
    pose proof (removeClient_frame (Server.id cl) r (Server.stateStore w)) as Hframe.
    pose proof (removeClient_own (Server.id cl) r (Server.stateStore w) Hid Htr) as Hown.
    simpl in Hframe.
    destruct (StateStore.removeClient (Some (Server.id cl)) (Some r) (Server.stateStore w))
      as [[s t] [[]|e]]; [| discriminate Hdone].
    unfold state_of, Room.db in *. simpl in *. split; [| split].
    + intros x Hx. apply (Hframe x Hid Htr Hx).
    + intros _. exact Hown.
    + exists (Shape.cleared cl). rewrite JsMap_get_mutate, decide_True by reflexivity.
      rewrite Hcl. auto.
  - assert (Server.handleLeave ws w = (w, [], Done tt)) as Hrun.
    { unfold Server.handleLeave. rewrite bind_get, Hcl, Hp. reflexivity. }
    assert (Server.roomId cl = None) as Hnone
      by (destruct Hroom as [Hnone | Hpresent]; [exact Hnone | congruence]).
    unfold w1. rewrite Hrun. unfold state_of. simpl. split; [| split].
    + intros x _. split; reflexivity.
    + unfold Registry.recorded. rewrite Hnone. tauto.
    + exists cl. auto.
Qed.

(** Joining: the registry changes for the joining client only, and mirrors
    it afterwards. *)
Lemma handleJoin_mirror (ws : Ws) (cl : Server.client) (message : Msg.t)
    (w : Server.world) :
  JsMap.get ws (Server.clients w) = Some cl →
  Room.local_ok w ws →
  Registry.consistent (Room.db w) →
  let w2 := state_of (Server.handleJoin ws message w) in
  (∀ x, x ≠ Server.id cl →
     Room.db w2 !! StateStore.clientKey x = Room.db w !! StateStore.clientKey x
     ∧ ∀ r, x ∈ Cluster.members (Room.db w2) r ↔ x ∈ Cluster.members (Room.db w) r)
  ∧ (Registry.recorded (Room.db w) (Claims.self w) cl →
     ∀ cl2, JsMap.get ws (Server.clients w2) = Some cl2 →
            Registry.recorded (Room.db w2) (Claims.self w) cl2).
Proof.
  intros Hcl Hok Hcons w2. destruct (Hok cl Hcl) as (Hid & _ & _).
  assert (Js.present (Msg.roomId message) = false ∨ Js.present (Msg.role message) = false
          → (∀ x, x ≠ Server.id cl →
               Room.db w2 !! StateStore.clientKey x = Room.db w !! StateStore.clientKey x
               ∧ ∀ r, x ∈ Cluster.members (Room.db w2) r
                      ↔ x ∈ Cluster.members (Room.db w) r)
            ∧ (Registry.recorded (Room.db w) (Claims.self w) cl →
               ∀ cl2, JsMap.get ws (Server.clients w2) = Some cl2 →
                      Registry.recorded (Room.db w2) (Claims.self w) cl2)) as Hmissing.
  { intros Hm. unfold w2. rewrite (handleJoin_missing_run ws message w Hm), send_run.
    unfold state_of. simpl. split.
    - intros x _. split; reflexivity.
    - intros Hrec cl2 Hcl2. rewrite Hcl in Hcl2. injection Hcl2 as <-. exact Hrec. }
  destruct (Js.present (Msg.roomId message)) eqn:Hr; [| apply Hmissing; auto].
  destruct (Js.present (Msg.role message)) eqn:Hro; [| apply Hmissing; auto].
  clear Hmissing.
  apply present_Some in Hr as (r & Hmr & Hr).
  apply present_Some in Hro as (ro & Hmro & Hro).
  destruct (handleLeave_consistent ws cl w Hcl Hok Hcons) as [Hdone Hcons1].
  destruct (handleLeave_mirror ws cl w Hcl Hok Hcons) as (Hframe1 & _ & _).
  pose proof (handleLeave_state ws cl w Hcl Hok)
    as (Hsid & _ & _ & (cl1 & Hcl1 & Hid1 & _) & _ & _).
  destruct (Server.handleLeave ws w) as [[w1 t1] o] eqn:Hleave.
  unfold outcome_of, state_of in Hdone, Hcons1, Hframe1, Hsid, Hcl1.
  simpl in Hdone, Hcons1, Hframe1, Hsid, Hcl1. subst o.
  rewrite <- (when_leave ws cl w Hcl) in Hleave.
  pose proof (handleJoin_run ws cl message r ro w w1 t1 Hcl Hid Hmr Hr Hmro Hro Hleave)
    as Hrun. simpl in Hrun.
  set (cmds := Shape.registration (StateStore.serverId (Server.stateStore w1))
                 (Server.now w) (Server.id cl) r ro) in *.
  set (d2 := (Redis.exec cmds (StateStore.redis (Server.stateStore w1))).1) in *.
  assert (Room.db w2 = d2
          ∧ JsMap.get ws (Server.clients w2) = Some (Shape.entered r ro cl1)) as [Hdb2 Hcl2].
  { unfold w2. rewrite Hrun.
    destruct (StateStore.listParticipants _ _) as [[s3 t3] [ps|e]];
      unfold state_of, Room.db; simpl;
      rewrite JsMap_get_mutate, decide_True by reflexivity;
      rewrite Hcl1; split; reflexivity. }
  rewrite Hdb2. split.
  - intros x Hx.
    destruct (registration_frame (StateStore.serverId (Server.stateStore w1))
                (Server.now w) (Server.id cl) r ro
                (StateStore.redis (Server.stateStore w1)) x (proj1 Hcons1) Hx)
      as [Hk Hm].
    destruct (Hframe1 x Hx) as [Hk1 Hm1].
    split; [etransitivity; [exact Hk | exact Hk1] |].
    intros r'. etransitivity; [apply Hm | apply Hm1].
  - intros _ cl2 Hcl2'. rewrite Hcl2 in Hcl2'. injection Hcl2' as <-.
    destruct (registration_facts (StateStore.serverId (Server.stateStore w1))
                (Server.now w) (Server.id cl) r ro _ (proj1 Hcons1))
      as (Fid & Froom & Frole & Fsid & Fmember & _).
    fold cmds d2 in Fid, Froom, Frole, Fsid, Fmember.
    unfold Registry.recorded. simpl. rewrite Hid1.
    split; [exact Fmember |]. split; [exact Fid |]. split; [exact Froom |].
    split; [exact Frole |]. unfold Claims.self. rewrite <- Hsid. exact Fsid.
Qed.

Lemma frame_refl (d : gmap string Redis.value) (x : string) :
  d !! StateStore.clientKey x = d !! StateStore.clientKey x
  ∧ ∀ r, x ∈ Cluster.members d r ↔ x ∈ Cluster.members d r.
Proof. split; reflexivity. Qed.

(** A handler changes the hash and the memberships of no client but the
    one its event is about. *)
Lemma handler_frame (e : Cluster.event) (w : Server.world) (x : string) :
  (∀ ws, Room.local_ok w ws) →
  Registry.consistent (Room.db w) →
  (∀ ws cl, Registry.actor e = Some ws →
     JsMap.get ws (Server.clients w) = Some cl → x ≠ Server.id cl) →
  let w' := state_of (Cluster.handler e w) in
  Room.db w' !! StateStore.clientKey x = Room.db w !! StateStore.clientKey x
  ∧ ∀ r, x ∈ Cluster.members (Room.db w') r ↔ x ∈ Cluster.members (Room.db w) r.
Proof.
  intros Hok Hcons Hx.
  destruct e as [ws clientId | ws data | ws | payload |]; simpl.
  - unfold Server.on_connection. rewrite bind_modify, send_run. apply frame_refl.
  - unfold Server.on_message.
    rewrite catch_state by (intros; apply send_state).
    destruct data as [message|]; [| apply frame_refl].
    destruct (JsMap.get ws (Server.clients w)) as [cl|] eqn:Hcl.
    + specialize (Hx ws cl eq_refl Hcl).
      destruct (relay_handlers_state ws message w) as (So & Sa & Si).
      rewrite (handleMessage_dispatch ws cl message w _ Hcl eq_refl). simpl.
      repeat case_decide.
      * apply (handleJoin_mirror ws cl message w Hcl (Hok ws) Hcons), Hx.
      * rewrite So. apply frame_refl.
      * rewrite Sa. apply frame_refl.
      * rewrite Si. apply frame_refl.
      * apply (handleLeave_mirror ws cl w Hcl (Hok ws) Hcons), Hx.
      * rewrite send_run. apply frame_refl.
    + unfold Server.handleMessage. rewrite bind_get, Hcl. apply frame_refl.
  - unfold Server.on_close. rewrite catch_state by reflexivity.
    unfold Server.handleDisconnect. rewrite bind_get.
    destruct (JsMap.get ws (Server.clients w)) as [cl|] eqn:Hcl; [| apply frame_refl].
    specialize (Hx ws cl eq_refl Hcl).
    destruct (handleLeave_consistent ws cl w Hcl (Hok ws) Hcons) as [Hdone _].
    destruct (handleLeave_mirror ws cl w Hcl (Hok ws) Hcons) as (Hframe & _ & _).
    destruct (Server.handleLeave ws w) as [[w1 t1] o] eqn:Hleave.
    unfold outcome_of, state_of in Hdone, Hframe. simpl in Hdone, Hframe. subst o.
    rewrite (bind_run _ _ _ _ _ _ Hleave). unfold modify, state_of. simpl.
    apply (Hframe x Hx).
  - unfold Server.on_relay. rewrite catch_state by reflexivity.
    unfold Server.handleRelayDelivery. rewrite bind_get.
    destruct payload as [p|]; [| apply frame_refl].
    repeat (case_bool_decide; [apply frame_refl |]).
    destruct (targetId p ≫= λ t, Server.findClientById t (Server.clients w));
      [| apply frame_refl].
    destruct (message p); [rewrite send_state |]; apply frame_refl.
  - unfold Server.on_heartbeat. rewrite bind_get.
    rewrite catch_state by reflexivity. rewrite on_store_run. unfold state_of at 1.
    unfold Room.db. simpl. split.
    + apply setHeartbeat_lookup, not_eq_sym, server_ne_client.
    + intros r. unfold Cluster.members.
      rewrite (set_at_lookup_eq (StateStore.redis (Server.stateStore w))).
      * reflexivity.
      * apply setHeartbeat_lookup, not_eq_sym, server_ne_members.
Qed.

(** After a message or a close, the client the event is about is mirrored
    again, if it is still connected. *)
Lemma handler_own (e : Cluster.event) (w : Server.world) (ws : Ws) :
  Registry.actor e = Some ws →
  (∀ clientId, e ≠ Cluster.Connect ws clientId) →
  (∀ ws, Room.local_ok w ws) →
  Registry.consistent (Room.db w) →
  (∀ cl, JsMap.get ws (Server.clients w) = Some cl →
         Registry.recorded (Room.db w) (Claims.self w) cl) →
  let w' := state_of (Cluster.handler e w) in
  ∀ cl', JsMap.get ws (Server.clients w') = Some cl' →
         Registry.recorded (Room.db w') (Claims.self w) cl'.
Proof.
  intros Hactor Hnot Hok Hcons Hrec.
  destruct e as [ws0 clientId | ws0 data | ws0 | payload |]; simpl in Hactor;
    try discriminate Hactor; injection Hactor as ->.
  - exfalso. exact (Hnot clientId eq_refl).
  - simpl. unfold Server.on_message.
    rewrite catch_state by (intros; apply send_state).
    destruct data as [message|]; [| exact Hrec].
    destruct (JsMap.get ws (Server.clients w)) as [cl|] eqn:Hcl.
    + specialize (Hrec cl eq_refl).
      destruct (relay_handlers_state ws message w) as (So & Sa & Si).
      rewrite (handleMessage_dispatch ws cl message w _ Hcl eq_refl). simpl.
      assert (∀ cl', JsMap.get ws (Server.clients w) = Some cl' →
                     Registry.recorded (Room.db w) (Claims.self w) cl') as Hsame
        by (intros cl' Hcl'; rewrite Hcl in Hcl'; injection Hcl' as <-; exact Hrec).
      repeat case_decide.
      * apply (handleJoin_mirror ws cl message w Hcl (Hok ws) Hcons), Hrec.
      * rewrite So. exact Hsame.
      * rewrite Sa. exact Hsame.
      * rewrite Si. exact Hsame.
      * destruct (handleLeave_mirror ws cl w Hcl (Hok ws) Hcons)
          as (_ & Hgone & (cl1 & Hcl1 & Hid1 & Hnone1)).
        intros cl' Hcl'. rewrite Hcl1 in Hcl'. injection Hcl' as <-.
        unfold Registry.recorded. rewrite Hnone1, Hid1. apply Hgone, Hrec.
      * rewrite send_run. exact Hsame.
    + unfold Server.handleMessage. rewrite bind_get, Hcl. unfold throw, state_of. simpl.
      intros cl' Hcl'. congruence.
  - simpl. unfold Server.on_close. rewrite catch_state by reflexivity.
    unfold Server.handleDisconnect. rewrite bind_get.
    destruct (JsMap.get ws (Server.clients w)) as [cl|] eqn:Hcl.
    + destruct (handleLeave_consistent ws cl w Hcl (Hok ws) Hcons) as [Hdone _].
      destruct (Server.handleLeave ws w) as [[w1 t1] o] eqn:Hleave.
      unfold outcome_of in Hdone. simpl in Hdone. subst o.
      rewrite (bind_run _ _ _ _ _ _ Hleave). unfold modify, state_of. simpl.
      intros cl'. rewrite JsMap_get_delete, decide_True by reflexivity. discriminate.
    + unfold state_of. simpl. intros cl' Hcl'. congruence.
Qed.
Lemma handler_clients (e : Cluster.event) (w : Server.world) :
  (∀ ws, Room.local_ok w ws) →
  let w' := state_of (Cluster.handler e w) in
  Claims.self w' = Claims.self w
  ∧ ∀ ws, Registry.actor e ≠ Some ws →
          JsMap.get ws (Server.clients w') = JsMap.get ws (Server.clients w).
Proof.
  intros Hok.
  destruct e as [ws0 clientId | ws0 data | ws0 | payload |]; simpl.
  - unfold Server.on_connection. rewrite bind_modify, send_run. unfold state_of. simpl.
    split; [reflexivity |]. intros ws Hne.
    rewrite JsMap_get_set, decide_False by congruence. reflexivity.
  - destruct (on_message_acted ws0 data w (Hok ws0)) as (Hsid & Hothers & _).
    split; [exact Hsid |]. intros ws Hne. apply Hothers. congruence.
  - destruct (on_close_acted ws0 w (Hok ws0)) as (Hsid & Hothers & _).
    split; [exact Hsid |]. intros ws Hne. apply Hothers. congruence.
  - split.
    + destruct (on_relay_acted 0 payload w (Hok 0)) as (Hsid & _). exact Hsid.
    + intros ws _.
      destruct (on_relay_acted (S ws) payload w (Hok (S ws))) as (_ & Hothers & _).
      apply Hothers. lia.
  - split.
    + destruct (on_heartbeat_acted 0 w (Hok 0)) as (Hsid & _). exact Hsid.
    + intros ws _.
      destruct (on_heartbeat_acted (S ws) w (Hok (S ws))) as (_ & Hothers & _).
      apply Hothers. lia.
Qed.

Lemma issue_mono (e : Cluster.event) (s : gset string) (x : string) :
  x ∈ s → x ∈ Cluster.issue e s.
Proof. destruct e; simpl; set_solver. Qed.

Lemma recorded_delete_server (d : gmap string Redis.value) (sid sid' : string)
    (cl : Server.client) :
  Registry.recorded d sid cl →
  Registry.recorded (delete (StateStore.serverKey sid') d) sid cl.
Proof.
  apply recorded_frame.
  - apply lookup_delete_ne, server_ne_client.
  - intros r. rewrite members_delete_server. reflexivity.
Qed.

Lemma mirrors_step (c c' : Cluster.t) :
  Room.invariant c → Registry.consistent (Cluster.redis c) →
  Registry.mirrors c → Cluster.step c c' → Registry.mirrors c'.
Proof.
  intros Hinv Hcons [Hrec Hiss] Hstep.
  destruct Hstep as [c i n rs now e w' tr o Hn Hadm Hrun | c i n serverId Hn | c serverId].
  - set (w := Cluster.world_of c n rs now) in *.
    assert (∀ ws, Room.local_ok w ws) as Hok
      by (intros ws; apply (invariant_local c i n rs now ws Hinv Hn)).
    pose proof (handler_clients e w Hok) as [Hsid Hothers].
    pose proof (λ x, handler_frame e w x Hok Hcons) as Hframe.
    pose proof (λ ws, handler_own e w ws) as Hown.
    simpl in Hsid, Hothers, Hframe, Hown.
    rewrite Hrun in Hsid, Hothers, Hframe, Hown.
    unfold state_of in Hsid, Hothers, Hframe, Hown.
    simpl in Hsid, Hothers, Hframe, Hown.
    assert (∀ j m ws cl, Cluster.nodes c !! j = Some m →
              JsMap.get ws (Cluster.n_clients m) = Some cl →
              (j ≠ i ∨ Registry.actor e ≠ Some ws) →
              ∀ ws0 cl0, Registry.actor e = Some ws0 →
                JsMap.get ws0 (Server.clients w) = Some cl0 →
                Server.id cl ≠ Server.id cl0) as Hdiff.
    { intros j m ws cl Hm Hcl Hne ws0 cl0 Hactor Hcl0 Heq.
      destruct (Room.inv_unique c Hinv j ws cl i ws0 cl0) as [-> ->].
      - exists m. auto.
      - exists n. auto.
      - exact Heq.
      - destruct Hne as [Hne | Hne]; [apply Hne; reflexivity | apply Hne, Hactor]. }
    split.
    + simpl. intros j m ws cl Hm Hcl.
      destruct (decide (j = i)) as [-> | Hne].
      * rewrite list_lookup_insert_eq in Hm by (apply lookup_lt_is_Some; eauto).
        injection Hm as <-. simpl in Hcl. simpl.
        change (StateStore.serverId (Server.stateStore w')) with (Claims.self w').
        rewrite Hsid.
        destruct (decide (Registry.actor e = Some ws)) as [Hactor | Hother].
        -- destruct e as [ws0 clientId | ws0 data | ws0 | payload |];
             simpl in Hactor; try discriminate Hactor; injection Hactor as ->.
           ++ simpl in Hrun. unfold Server.on_connection in Hrun.
              rewrite bind_modify, send_run in Hrun. injection Hrun as <- _ _.
              simpl in Hcl. rewrite JsMap_get_set, decide_True in Hcl by reflexivity.
              injection Hcl as <-. unfold Registry.recorded. simpl.
              destruct Hadm as (_ & Hfresh & _).
              apply eq_None_not_Some. intros Hsome. apply Hfresh, Hiss, Hsome.
           ++ apply (Hown ws eq_refl); [discriminate | exact Hok | exact Hcons | | exact Hcl].
              intros cl0 Hcl0. apply (Hrec i n ws cl0 Hn Hcl0).
           ++ apply (Hown ws eq_refl); [discriminate | exact Hok | exact Hcons | | exact Hcl].
              intros cl0 Hcl0. apply (Hrec i n ws cl0 Hn Hcl0).
        -- rewrite (Hothers ws Hother) in Hcl.
           destruct (Hframe (Server.id cl)) as [Hk Hm'].
           { apply (Hdiff i n ws cl Hn Hcl). right. exact Hother. }
           apply (recorded_frame (Cluster.redis c)); [exact Hk | exact Hm' |].
           apply (Hrec i n ws cl Hn Hcl).
      * rewrite list_lookup_insert_ne in Hm by congruence.
        destruct (Hframe (Server.id cl)) as [Hk Hm'].
        { apply (Hdiff j m ws cl Hm Hcl). left. exact Hne. }
        apply (recorded_frame (Cluster.redis c)); [exact Hk | exact Hm' |].
        apply (Hrec j m ws cl Hm Hcl).
    + simpl. intros x Hsome.
      destruct (Registry.actor e) as [ws0|] eqn:Hactor.
      * destruct (JsMap.get ws0 (Server.clients w)) as [cl0|] eqn:Hcl0.
        -- destruct (decide (x = Server.id cl0)) as [-> | Hx].
           ++ apply issue_mono. apply (Room.inv_issued c Hinv i ws0 cl0).
              exists n. auto.
           ++ destruct (Hframe x) as [Hk _].
              { intros ws1 cl1 [= <-] Hcl1.
                change (JsMap.get ws0 (Server.clients w) = Some cl1) in Hcl1.
                congruence. }
              apply issue_mono, Hiss. unfold Room.db in Hk. simpl in Hk.
              rewrite <- Hk. exact Hsome.
        -- destruct (Hframe x) as [Hk _].
           { intros ws1 cl1 [= <-] Hcl1.
                change (JsMap.get ws0 (Server.clients w) = Some cl1) in Hcl1.
                congruence. }
           apply issue_mono, Hiss. unfold Room.db in Hk. simpl in Hk.
           rewrite <- Hk. exact Hsome.
      * destruct (Hframe x) as [Hk _]; [intros ws1 cl1 Hno; discriminate Hno |].
        apply issue_mono, Hiss. unfold Room.db in Hk. simpl in Hk.
        rewrite <- Hk. exact Hsome.
  - split; simpl.
    + intros j m ws cl Hm Hcl.
      destruct (decide (j = i)) as [-> | Hne].
      * rewrite list_lookup_insert_eq in Hm by (apply lookup_lt_is_Some; eauto).
        injection Hm as <-. simpl in Hcl. discriminate Hcl.
      * rewrite list_lookup_insert_ne in Hm by congruence.
        apply recorded_delete_server, (Hrec j m ws cl Hm Hcl).
    + intros x Hsome. apply Hiss.
      rewrite lookup_delete_ne in Hsome by apply server_ne_client. exact Hsome.
  - split; simpl.
    + intros j m ws cl Hm Hcl.
      apply recorded_delete_server, (Hrec j m ws cl Hm Hcl).
    + intros x Hsome. apply Hiss.
      rewrite lookup_delete_ne in Hsome by apply server_ne_client. exact Hsome.
Qed.

Lemma reachable_mirrors (c : Cluster.t) : Cluster.reachable c → Registry.mirrors c.
Proof.
  induction 1 as [serverIds | c c' Hreach IH Hstep].
  - split.
    + intros i n ws cl Hn Hcl. unfold Cluster.init in Hn. simpl in Hn.
      apply list_lookup_fmap_Some in Hn as (sid & -> & _). discriminate Hcl.
    + intros x [v Hv]. simpl in Hv. rewrite lookup_empty in Hv. discriminate Hv.
  - apply (mirrors_step c c' (reachable_invariant c Hreach)
             (reachable_consistent c Hreach) IH Hstep).
Qed.
Lemma findClientById_Some (t : string) (m : list (Ws * Server.client)) (ws : Ws)
    (cl : Server.client) :
  (ws, cl) ∈ m → Server.id cl = t →
  (∀ ws' c', (ws', c') ∈ m → Server.id c' = t → ws' = ws) →
  Server.findClientById t m = Some ws.
Proof.
  intros Hin Hid Huniq.
  destruct (Server.findClientById t m) as [ws'|] eqn:E.
  - destruct (findClientById_elem _ _ _ E) as (c' & Hin' & Hid').
    rewrite (Huniq ws' c' Hin' Hid'). reflexivity.
  - exfalso. clear Huniq. induction m as [|[k c] m IH]; [inversion Hin |].
    simpl in E. destruct (decide (Server.id c = t)) as [Heq | Hne]; [discriminate E |].
    apply elem_of_cons in Hin as [[= <- <-] | Hin]; [contradiction |].
    apply (IH Hin E).
Qed.

Lemma field_at_Some (d : gmap string Redis.value) (key f v : string) :
  Claims.field_at d key f = Some v →
  ∃ h, d !! key = Some (Redis.VHash h) ∧ h !! f = Some v.
Proof.
  unfold Claims.field_at. destruct (d !! key) as [[s|X|h]|]; try discriminate.
  intros H. exists h. auto.
Qed.






(** ** Peers are told of arrivals and departures *)

Lemma sent_to_broadcast (rs : Ws → ReadyState) (sender : Ws) (room : list Ws)
    (m : outbound) (ws' : Ws) :
  NoDup room →
  sent_to ws' (Shape.broadcast_trace rs sender room m)
  = if bool_decide (ws' ∈ room ∧ ws' ≠ sender ∧ rs ws' = OPEN) then [m] else [].
Proof.
  induction room as [|ws room IH]; intros Hnd.
  - rewrite bool_decide_eq_false_2; [reflexivity |]. intros (H & _). inversion H.
  - apply NoDup_cons in Hnd as [Hout Hnd]. specialize (IH Hnd).
    change (Shape.broadcast_trace rs sender (ws :: room) m)
      with ((if bool_decide (ws ≠ sender) && bool_decide (rs ws = OPEN)
             then [WsSend ws m] else [])
            ++ Shape.broadcast_trace rs sender room m).
    rewrite sent_to_app, IH.
    destruct (decide (ws' = ws)) as [-> | Hne].
    + rewrite (bool_decide_eq_false_2 (ws ∈ room ∧ _)) by tauto.
      rewrite app_nil_r.
      destruct (bool_decide_reflect (ws ≠ sender)) as [H1 | H1]; simpl.
      * destruct (bool_decide_reflect (rs ws = OPEN)) as [H2 | H2]; simpl.
        -- rewrite decide_True by reflexivity.
           rewrite bool_decide_eq_true_2; [reflexivity |].
           split; [left | auto].
        -- rewrite bool_decide_eq_false_2; [reflexivity | tauto].
      * rewrite bool_decide_eq_false_2; [reflexivity | tauto].
    + assert (sent_to ws' (if bool_decide (ws ≠ sender) && bool_decide (rs ws = OPEN)
                           then [WsSend ws m] else []) = []) as ->.
      { destruct (bool_decide (ws ≠ sender) && bool_decide (rs ws = OPEN));
          [| reflexivity].
        simpl. rewrite decide_False by congruence. reflexivity. }
      simpl.
      rewrite (bool_decide_ext (ws' ∈ ws :: room ∧ ws' ≠ sender ∧ rs ws' = OPEN)
                 (ws' ∈ room ∧ ws' ≠ sender ∧ rs ws' = OPEN));
        [reflexivity | rewrite elem_of_cons; tauto].
Qed.

Lemma listParticipants_silent (r : string) (s : StateStore.t) (ws : Ws) :
  Js.truthy r = true →
  sent_to ws (trace_of (StateStore.listParticipants (Some r) s)) = [].
Proof.
  intros Hr. rewrite (listParticipants_run r s Hr).
  destruct (StateStore.redis s !! StateStore.roomMembersKey r) as [[v|X|h]|];
    try reflexivity.
  destruct (bool_decide (length (elements X) = 0)); reflexivity.
Qed.



Lemma handleLeave_departure (c : Cluster.t) (i : nat) (n : Cluster.node)
    (ws : Ws) (cl : Server.client) (rs : Ws → ReadyState) (now : Z) (r : string) :
  Cluster.reachable c →
  Cluster.nodes c !! i = Some n →
  JsMap.get ws (Cluster.n_clients n) = Some cl →
  Server.roomId cl = Some r →
  let w := Cluster.world_of c n rs now in
  ∃ w1 t,
    Server.handleLeave ws w = (w1, t, Done tt)
    ∧ (∀ ws', sent_to ws' t
              = if bool_decide (ws' ∈ default [] (Cluster.n_rooms n !! r)
                                ∧ ws' ≠ ws ∧ rs ws' = OPEN)
                then [PeerLeft (Server.id cl)] else [])
    ∧ Room.db w1 !! StateStore.clientKey (Server.id cl) = None
    ∧ (∀ r', Server.id cl ∉ Cluster.members (Room.db w1) r')
    ∧ Server.clients w1 = JsMap.mutate ws Shape.cleared (Cluster.n_clients n).
Proof.
  intros Hreach Hn Hcl Hr w.
  pose proof (reachable_invariant c Hreach) as Hinv.
  pose proof (reachable_consistent c Hreach) as Hcons.
  pose proof (reachable_grouped c Hreach i n Hn) as Hg.
  pose proof (invariant_local c i n rs now ws Hinv Hn) as Hok.
  destruct (Hok cl Hcl) as (Hid & Hroom & _).
  assert (Js.truthy r = true) as Htr.
  { destruct Hroom as [Hnone | Hp]; [congruence |]. rewrite Hr in Hp. exact Hp. }
  pose proof (handleLeave_state ws cl w Hcl Hok) as (_ & _ & _ & _ & _ & Hgone).
  pose proof (handleLeave_run ws cl r w Hcl Hr Htr) as Hrun. cbv zeta in Hrun.
  destruct (removeClient_typed (Server.id cl) r (Server.stateStore w) Hid Htr (proj1 Hcons))
    as (s' & t & Hrm & _ & _ & Hsilent & _).
  pose proof (removeClient_own (Server.id cl) r (Server.stateStore w) Hid Htr) as Hown.
  rewrite Hrm in Hrun, Hown. simpl in Hgone. rewrite Hrun in Hgone.
  eexists _, _. split; [exact Hrun |]. split; [| split; [exact Hown | split; [exact Hgone |]]].
  - intros ws'. rewrite sent_to_app, Hsilent, app_nil_r.
    change (Server.rooms w) with (Cluster.n_rooms n).
    change (Server.readyState w) with rs.
    destruct (Cluster.n_rooms n !! r) as [room|] eqn:E; simpl.
    + destruct Hg as (G1 & _). destruct (G1 r room E) as (_ & _ & Hnd & _).
      rewrite (sent_to_broadcast _ _ _ _ _ (JsSet_NoDup_delete ws room Hnd)).
      rewrite (bool_decide_ext (ws' ∈ JsSet.delete ws room ∧ ws' ≠ ws ∧ rs ws' = OPEN)
                 (ws' ∈ room ∧ ws' ≠ ws ∧ rs ws' = OPEN));
        [reflexivity | rewrite JsSet_elem_of_delete; tauto].
    + reflexivity.
  - reflexivity.
Qed.


(** ** The persistence bridge across instances *)

Section persistence_restart.
Context (Doc : Type).
Context (encodeStateAsUpdate : Doc → list Byte.byte).
Context (applyUpdate : Doc → list Byte.byte → Doc).
Context (integrates : Doc → list Byte.byte → bool).
Context (toBase64 : list Byte.byte → string).
Context (fromBase64 : string → list Byte.byte).

Abbreviation pworld := (Persistence.world Doc).
Abbreviation pdoc := (Persistence.ydoc Doc).

(** X26: an update of a bound document survives a restart. When a
    document bound under [docName] integrates an update, the state it
    writes is what another instance of the bridge (same prefix, same
    substrate) loads when it binds a document object under that name: the
    new object's content becomes the merge of its own content with the
    full encoded state of the first document. This holds when the encoded
    state is a non-empty string that decodes to the bytes it encodes; an
    empty string would be taken for a missing key. *)
Theorem update_survives_rebinding (docName : string) (h h' : nat) (y y' : pdoc)
    (u : list Byte.byte) (w w2 : pworld) :
  Persistence.docs Doc w !! h = Some y →
  Persistence.listeners Doc y = [docName] →
  integrates (Persistence.content Doc y) u = true →
  let d := applyUpdate (Persistence.content Doc y) u in
  let payload := toBase64 (encodeStateAsUpdate d) in
  Js.truthy payload = true →
  fromBase64 payload = encodeStateAsUpdate d →
  Persistence.redis Doc w2
  = Persistence.redis Doc
      (state_of (Persistence.transact Doc encodeStateAsUpdate applyUpdate integrates
                   toBase64 h u w)) →
  Persistence.prefix Doc w2 = Persistence.prefix Doc w →
  Persistence.docs Doc w2 !! h' = Some y' →
  Persistence.listeners Doc y' = [] →
  Persistence.bindState Doc encodeStateAsUpdate applyUpdate integrates toBase64
    fromBase64 docName h' w2
  = (Persistence.with_doc Doc h'
       (applyUpdate (Persistence.content Doc y') (encodeStateAsUpdate d)) [docName] w2,
     [Substrate (Redis.Single (Redis.GET (Persistence.docKey Doc w docName)))],
     Done tt).
Proof.
  intros Hdoc Hls Hint d payload Htruthy Hround Hredis Hprefix Hdoc' Hls'.
  rewrite (transact_bound Doc encodeStateAsUpdate applyUpdate integrates toBase64
             docName h y u w Hdoc Hls) in Hredis.
  rewrite Hint in Hredis. unfold state_of in Hredis. simpl in Hredis.
  assert (Persistence.docKey Doc w2 docName = Persistence.docKey Doc w docName) as Hkey
    by (unfold Persistence.docKey; rewrite Hprefix; reflexivity).
  assert (Persistence.redis Doc w2 !! Persistence.docKey Doc w2 docName
          = Some (Redis.VString payload)) as Hstored.
  { rewrite Hredis, Hkey. apply lookup_insert_eq. }
  destruct (bindState_run Doc encodeStateAsUpdate applyUpdate integrates toBase64
              fromBase64 docName h' y' w2 Hdoc' Hls') as [Hload _].
  rewrite (Hload payload Hstored Htruthy), Hround, Hkey. reflexivity.
Qed.

End persistence_restart.

Lemma update_survives_rebinding_witness :
  Register.bindState "main.py" 0 Register.stored
  = (Persistence.with_doc Register.Doc 0 2 ["main.py"] Register.stored,
     [Substrate (Redis.Single (Redis.GET "collab:yjs:doc:main.py"))], Done tt).
Proof.
  apply (update_survives_rebinding Register.Doc Register.encodeStateAsUpdate
           Register.applyUpdate Register.integrates Register.toBase64
           Register.fromBase64 "main.py" 0 0
           {| Persistence.content := 0; Persistence.listeners := ["main.py"] |}
           {| Persistence.content := 0; Persistence.listeners := [] |}
           [Byte.x00; Byte.x00] Register.bound Register.stored).
  - reflexivity.
  - reflexivity.
  - reflexivity.
  - reflexivity.
  - reflexivity.
  - vm_compute. reflexivity.
  - reflexivity.
  - reflexivity.
  - reflexivity.
Defined.
(** ** The awareness bridge: binding, ignoring, ending *)

Lemma filter_all {A} (P : A → Prop) `{∀ x, Decision (P x)} (l : list A) :
  (∀ x, x ∈ l → P x) → filter P l = l.
Proof.
  induction l as [|x l IH]; intros Hall; [reflexivity |].
  rewrite filter_cons, decide_True by (apply Hall; left).
  rewrite IH; [reflexivity |]. intros y Hy. apply Hall. right. exact Hy.
Qed.

Lemma filter_none {A} (P : A → Prop) `{∀ x, Decision (P x)} (l : list A) :
  (∀ x, x ∈ l → ¬ P x) → filter P l = [].
Proof.
  induction l as [|x l IH]; intros Hall; [reflexivity |].
  rewrite filter_cons, decide_False by (apply Hall; left).
  apply IH. intros y Hy. apply Hall. right. exact Hy.
Qed.

Section awareness_lifecycle.
Context (States : Type).
Context (encodeAwarenessUpdate : States → list nat → list Byte.byte).
Context (applyAwarenessUpdate :
           States → list Byte.byte → option (States * Awareness.changes)).
Context (toBase64 : list Byte.byte → string).
Context (fromBase64 : string → list Byte.byte).

Abbreviation bworld := (Awareness.world States).
Abbreviation bobject := (Awareness.awareness States).
Abbreviation bwatch := (Awareness.watch States).
Abbreviation bhandleMessage :=
  (Awareness.handleMessage States encodeAwarenessUpdate applyAwarenessUpdate
     toBase64 fromBase64).
Abbreviation bchange := (Awareness.change States encodeAwarenessUpdate toBase64).
Abbreviation bdestroy := (Bridge.destroy States).

(** X27: a document name is bound once. [watch] without a document name,
    without an awareness, or for a name that is already bound does
    nothing: no handler is added and no channel is subscribed. So after a
    first [watch] of a name, a second one is ignored, also when it brings
    another awareness object. *)
Theorem watch_binds_once (docName : string) (awareness : option nat) (w : bworld) :
  (Js.truthy docName = false ∨ awareness = None
   ∨ is_Some (Awareness.boundDocs States w !! docName) →
   bwatch docName awareness w = (w, [], Done tt))
  ∧ (∀ h a other,
       Js.truthy docName = true →
       Awareness.boundDocs States w !! docName = None →
       Awareness.heap States w !! h = Some a →
       let w' := state_of (bwatch docName (Some h) w) in
       Awareness.boundDocs States w' !! docName = Some h
       ∧ bwatch docName other w' = (w', [], Done tt)).
Proof.
  assert (∀ (v : bworld) aw,
            Js.truthy docName = false ∨ aw = None
            ∨ is_Some (Awareness.boundDocs States v !! docName) →
            bwatch docName aw v = (v, [], Done tt)) as Hguard.
  { intros v aw Hg. unfold Awareness.watch. rewrite bind_get.
    destruct aw as [h|]; [| reflexivity].
    destruct Hg as [Hd | [Hn | Hb]].
    - rewrite Hd. reflexivity.
    - discriminate Hn.
    - rewrite (bool_decide_eq_true_2 _ Hb), orb_true_r. reflexivity. }
  split; [apply Hguard |].
  intros h a other Hname Hfree Ha w'.
  destruct (watch_binds States docName h a w Hname Hfree Ha) as (_ & Hbound & _).
  fold w' in Hbound. split; [exact Hbound |].
  apply Hguard. right. right. rewrite Hbound. eexists. reflexivity.
Qed.


Lemma without_NoDup (x : string) (l : list string) :
  NoDup l → Bridge.without x l = filter (λ n, n ≠ x) l.
Proof.
  induction l as [|y l IH]; intros Hnd; [reflexivity |].
  apply NoDup_cons in Hnd as [Hout Hnd]. cbn [Bridge.without]. rewrite filter_cons.
  destruct (decide (y = x)) as [-> | Hne].
  - rewrite decide_False by tauto. symmetry. apply filter_all.
    intros n Hn ->. contradiction.
  - rewrite decide_True by exact Hne. rewrite IH by exact Hnd. reflexivity.
Qed.

Lemma offs_run (l : list (string * nat)) (w : bworld) :
  (∀ h a, Awareness.heap States w !! h = Some a →
          NoDup (Awareness.handlers States a)) →
  ∃ w',
    for_each l (λ entry, Bridge.off States entry.1 entry.2) w = (w', [], Done tt)
    ∧ Awareness.prefix States w' = Awareness.prefix States w
    ∧ Awareness.boundDocs States w' = Awareness.boundDocs States w
    ∧ Awareness.origin_marker States w' = Awareness.origin_marker States w
    ∧ ∀ h, Awareness.heap States w' !! h
           = (λ a, {| Awareness.states := Awareness.states States a;
                      Awareness.handlers :=
                        filter (λ n, (n, h) ∉ l) (Awareness.handlers States a) |})
             <$> Awareness.heap States w !! h.
Proof.
  revert w. induction l as [|[dn h0] l IH]; intros w Hnd.
  - exists w. split; [reflexivity |]. repeat split.
    intros h. destruct (Awareness.heap States w !! h) as [[st hs]|]; simpl; [| reflexivity].
    f_equal. f_equal. symmetry. apply filter_all. intros n _ H. inversion H.
  - cbn [for_each]. unfold Bridge.off at 1. cbn [fst snd].
    change (bind ?m ?k) with (m ≫= k). rewrite bind_modify.
    set (w1 := Awareness.with_heap States _ w).
    assert (∀ h, Awareness.heap States w1 !! h
                 = (λ a, {| Awareness.states := Awareness.states States a;
                            Awareness.handlers :=
                              filter (λ n, ¬ (n = dn ∧ h = h0))
                                     (Awareness.handlers States a) |})
                   <$> Awareness.heap States w !! h) as Hheap1.
    { intros h. unfold w1, Awareness.with_heap. simpl.
      destruct (Awareness.heap States w !! h0) as [[st hs]|] eqn:E.
      - destruct (decide (h = h0)) as [-> | Hne].
        + rewrite lookup_insert_eq, E. simpl. f_equal. f_equal.
          rewrite (without_NoDup dn hs (Hnd h0 _ E)).
          apply list_filter_iff. intros n. tauto.
        + rewrite lookup_insert_ne by congruence.
          destruct (Awareness.heap States w !! h) as [[st' hs']|]; simpl; [| reflexivity].
          f_equal. f_equal. symmetry. apply filter_all. intros n _ [_ Heq]. contradiction.
      - destruct (Awareness.heap States w !! h) as [[st' hs']|] eqn:E'; simpl;
          [| reflexivity].
        f_equal. f_equal. symmetry. apply filter_all.
        intros n _ [_ Heq]. subst h. congruence. }
    destruct (IH w1) as (w' & Hrun & Hp & Hb & Ho & Hheap).
    { intros h a1 Ha1. rewrite Hheap1 in Ha1.
      destruct (Awareness.heap States w !! h) as [a|] eqn:E; [| discriminate Ha1].
      simpl in Ha1. injection Ha1 as <-. simpl. apply NoDup_filter, (Hnd h a E). }
    exists w'. split; [exact Hrun |].
    split; [exact Hp |]. split; [exact Hb |]. split; [exact Ho |].
    intros h. rewrite Hheap, Hheap1.
    destruct (Awareness.heap States w !! h) as [[st hs]|]; simpl; [| reflexivity].
    f_equal. f_equal. rewrite list_filter_filter. apply list_filter_iff. intros n.
    rewrite not_elem_of_cons. split.
    + intros [H1 H2]. split; [intros [= -> ->]; tauto | exact H1].
    + intros [H1 H2]. split; [exact H2 | intros [-> ->]; apply H1; reflexivity].
Qed.

(** X29: [destroy] unbinds everything. When the update handlers on every
    awareness object are handlers the bridge registered for bound
    documents, one per document, then after [destroy]: no document is
    bound, no awareness object carries a handler (their states are
    untouched), nothing was published or subscribed, and the result lists
    exactly the connections the bridge created itself. From then on no
    awareness change is published and every inbound message is ignored. *)
Theorem destroy_unbinds (externalSubscriber externalPublisher : bool) (w : bworld) :
  (∀ h a, Awareness.heap States w !! h = Some a →
          NoDup (Awareness.handlers States a)
          ∧ ∀ n, n ∈ Awareness.handlers States a →
                 Awareness.boundDocs States w !! n = Some h) →
  let run := bdestroy externalSubscriber externalPublisher w in
  let w' := state_of run in
  trace_of run = []
  ∧ outcome_of run
    = Done ((if externalSubscriber then [] else [Bridge.Subscriber])
            ++ (if externalPublisher then [] else [Bridge.Publisher]))
  ∧ Awareness.boundDocs States w' = ∅
  ∧ (∀ h, Awareness.heap States w' !! h
          = (λ a, {| Awareness.states := Awareness.states States a;
                     Awareness.handlers := [] |})
            <$> Awareness.heap States w !! h)
  ∧ (∀ h s ch o, trace_of (bchange h s ch o w') = [])
  ∧ (∀ channel payload, bhandleMessage channel payload w' = (w', [], Done tt)).
Proof.
  intros Hreg run w'.
  destruct (offs_run (map_to_list (Awareness.boundDocs States w)) w)
    as (w1 & Hoffs & Hp & Hb & Ho & Hheap);
    [intros h a Ha; apply (Hreg h a Ha) |].
  assert (run = (Awareness.with_boundDocs States (λ _, ∅) w1, [],
                 Done ((if externalSubscriber then [] else [Bridge.Subscriber])
                       ++ (if externalPublisher then [] else [Bridge.Publisher]))))
    as Hrun.
  { unfold run, Bridge.destroy. rewrite bind_get.
    rewrite (bind_run _ _ _ _ _ _ Hoffs), bind_modify. reflexivity. }
  assert (∀ h, Awareness.heap States w' !! h
               = (λ a, {| Awareness.states := Awareness.states States a;
                          Awareness.handlers := [] |})
                 <$> Awareness.heap States w !! h) as Hheap'.
  { intros h. unfold w'. rewrite Hrun. unfold state_of. simpl. rewrite Hheap.
    destruct (Awareness.heap States w !! h) as [a|] eqn:E; simpl; [| reflexivity].
    f_equal. f_equal. apply filter_none.
    intros n Hn Hout. apply Hout. apply elem_of_map_to_list.
    apply (proj2 (Hreg h a E) n Hn). }
  assert (Awareness.boundDocs States w' = ∅) as Hbound'
    by (unfold w'; rewrite Hrun; reflexivity).
  split; [rewrite Hrun; reflexivity |]. split; [rewrite Hrun; reflexivity |].
  split; [exact Hbound' |]. split; [exact Hheap' |]. split.
  - intros h s ch o. unfold Awareness.change. rewrite bind_get, Hheap'.
    destruct (Awareness.heap States w !! h) as [a|]; simpl; [| reflexivity].
    rewrite bind_modify.
    destruct (bool_decide (length (Awareness.changed ch) = 0)); simpl; [reflexivity |].
    unfold Awareness.emit_update. rewrite bind_get.
    unfold Awareness.with_heap. simpl. rewrite lookup_insert_eq. reflexivity.
  - intros channel payload. unfold Awareness.handleMessage. rewrite bind_get.
    destruct (negb (String.prefix (Awareness.prefix States w') channel)); [reflexivity |].
    rewrite Hbound', lookup_empty. reflexivity.
Qed.

End awareness_lifecycle.

Lemma destroy_unbinds_witness :
  let run := Bridge.destroy Presence.States false true Presence.watched in
  let w' := state_of run in
  trace_of run = []
  ∧ outcome_of run = Done [Bridge.Subscriber]
  ∧ Awareness.boundDocs Presence.States w' = ∅
  ∧ (∀ h, Awareness.heap Presence.States w' !! h
          = (λ a, {| Awareness.states := Awareness.states Presence.States a;
                     Awareness.handlers := [] |})
            <$> Awareness.heap Presence.States Presence.watched !! h)
  ∧ (∀ h s ch o, trace_of (Presence.change h s ch o w') = [])
  ∧ (∀ channel payload, Presence.handleMessage channel payload w' = (w', [], Done tt)).
Proof.
  apply (destroy_unbinds Presence.States Presence.encodeAwarenessUpdate
           Presence.applyAwarenessUpdate Presence.toBase64 Presence.fromBase64
           false true Presence.watched).
  intros h a Ha.
  destruct (decide (h = 0)) as [-> | Hne].
  - vm_compute in Ha. injection Ha as <-. simpl. split.
    + apply NoDup_singleton.
    + intros n Hn. apply list_elem_of_singleton in Hn. subst n. reflexivity.
  - unfold Presence.watched in Ha. simpl in Ha.
    rewrite lookup_singleton_ne in Ha by congruence. discriminate Ha.
Defined.

Lemma watch_binds_once_witness :
  Presence.watch "main.py" (Some 0) Presence.watched = (Presence.watched, [], Done tt)
  ∧ (let w' := state_of (Presence.watch "notes.md" (Some 0) Presence.watched) in
     Awareness.boundDocs Presence.States w' !! "notes.md" = Some 0
     ∧ Presence.watch "notes.md" (Some 1) w' = (w', [], Done tt)).
Proof.
  split.
  - apply (proj1 (watch_binds_once Presence.States "main.py" (Some 0) Presence.watched)).
    right. right. eexists. reflexivity.
  - apply (proj2 (watch_binds_once Presence.States "notes.md" (Some 0) Presence.watched)
             0 {| Awareness.states := [7]; Awareness.handlers := ["main.py"] |} (Some 1));
      reflexivity.
Defined.

(** ** The collaboration server: the document of a connection *)

Lemma before_chars (sep : Ascii.ascii) (s : string) :
  sep ∉ String.list_ascii_of_string (CollabServer.before sep s).
Proof.
  induction s as [|a s IH]; simpl.
  - intros H. inversion H.
  - destruct (decide (a = sep)) as [-> | Hne]; simpl.
    + intros H. inversion H.
    + rewrite not_elem_of_cons. split; [congruence | exact IH].
Qed.

Lemma before_app (sep : Ascii.ascii) (name rest : string) :
  sep ∉ String.list_ascii_of_string name →
  CollabServer.before sep (name +:+ String sep rest) = name
  ∧ CollabServer.before sep name = name.
Proof.
  induction name as [|a name IH]; simpl; intros Hout.
  - rewrite decide_True by reflexivity. auto.
  - apply not_elem_of_cons in Hout as [Hne Hout].
    rewrite decide_False by congruence.
    change (String a name +:+ String sep rest) with (String a (name +:+ String sep rest)).
    simpl. rewrite decide_False by congruence.
    destruct (IH Hout) as [-> ->]. auto.
Qed.

(** X30: the document a connection is for. The name is what follows the
    first character of the request URL, up to the first ['?']; when that
    is empty, the name is ['default']. So the name is never empty and
    never holds a ['?']; a URL made of one character, a non-empty name
    without ['?'] and, possibly, a query gives that name; and a URL with
    nothing before the query, or with nothing at all, gives ['default']. *)
Theorem docName_of_url (url : string) :
  Js.truthy (CollabServer.docName url) = true
  ∧ (CollabServer.query_mark ∉ String.list_ascii_of_string (CollabServer.docName url))
  ∧ (∀ (c : Ascii.ascii) (name query : string),
       Js.truthy name = true →
       CollabServer.query_mark ∉ String.list_ascii_of_string name →
       CollabServer.docName (String c (name +:+ String CollabServer.query_mark query)) = name
       ∧ CollabServer.docName (String c name) = name)
  ∧ (∀ (c : Ascii.ascii) (query : string),
       CollabServer.docName (String c (String CollabServer.query_mark query)) = "default")
  ∧ CollabServer.docName EmptyString = "default"
  ∧ (∀ c : Ascii.ascii, CollabServer.docName (String c EmptyString) = "default").
Proof.
  split; [| split; [| split; [| split; [| split]]]].
  - unfold CollabServer.docName, Js.or_else.
    destruct (Js.truthy (CollabServer.before CollabServer.query_mark (Awareness.slice 1 url))) eqn:E;
      [exact E | reflexivity].
  - unfold CollabServer.docName, Js.or_else.
    destruct (Js.truthy (CollabServer.before CollabServer.query_mark (Awareness.slice 1 url))).
    + apply before_chars.
    + vm_compute. intros H. repeat (apply elem_of_cons in H as [H | H]; [discriminate H |]).
      inversion H.
  - intros c name query Hname Hout.
    unfold CollabServer.docName. cbn [Awareness.slice].
    destruct (before_app CollabServer.query_mark name query Hout) as [-> ->].
    unfold Js.or_else. rewrite Hname. auto.
  - intros c query. reflexivity.
  - reflexivity.
  - intros c. reflexivity.
Qed.
